(** * TwentyFive: the board store (internal/app)

    A shallow embedding of the mutation engine of the TwentyFive backend,
    package [app]: its data model (constants, types, errors, clones and
    validation), the request types of [requests.go] and the operations of
    [store.go].

    Conventions.
    - A Go slice owned by the store is a [list]; the store never leaks a
      slice (every exported method returns [Clone]s), so value semantics
      is exact for the in-memory board.
    - Every exported method runs its closure on [&s.state] under the write
      lock.  An operation is therefore a function from the board to an
      outcome paired with the board that is left in memory, also when the
      outcome is an error ([withWrite] returns the error and keeps
      whatever the closure already wrote).  The operations of this part,
      named as the methods, are the closures: what the engine decides and
      leaves in memory.  The write to disk that [withWrite] adds after a
      closure that returned no error, and with it the whole method, is
      [withWrite] in the part on persistence.
    - [NewID()] is random: the identifier it would return is an argument.
    - [strings.TrimSpace] is the Go library function: it is a parameter
      of the development.
    - Go's [int] is [Z]; the only arithmetic on it, the running total of
      [ensureCapacity], wraps as a 64-bit integer ([int_add]).  Slice
      indices are [nat], an optional [*int] position is an [option Z].
    - Names are the source's.  The fields [ID] and [Name] of [Category]
      are [CatID] and [CatName]; an assignment [x.F = v] is [set_F v x];
      the request and patch types live in modules of their name. *)

From Stdlib Require Import ZArith Lia.
From stdpp Require Import base option list strings gmap.

Open Scope string_scope.
Open Scope list_scope.
Open Scope Z_scope.

(** ** Constants *)

Definition ColumnCapacity : Z := 5.
Definition CategoryLimit : nat := 5%nat.

Definition LocationCategory : string := "category".
Definition LocationBackburner : string := "backburner".
Definition LocationArchive : string := "archive".
Definition LocationCategoryBoard : string := "board".

(** ** Data model *)

Record TaskLink := mkTaskLink { Text : string; URL : string }.

Record ChecklistItem := mkChecklistItem { ItemText : string; Done : bool }.

Record Task := mkTask {
  ID : string;
  Name : string;
  Description : string;
  Notes : string;
  State : string;
  Size : Z;
  Links : list TaskLink;
  Checklist : list ChecklistItem;
  Urgent : bool;
  Focused : bool;
  SourceID : string;
  Source : string
}.

Record Category := mkCategory {
  CatID : string;
  CatName : string;
  Tasks : list Task
}.

Record BoardState := mkBoardState {
  Categories : list Category;
  Backburner : list Task;
  Archives : list Task;
  CategoryBackburner : list Category;
  CategoryArchives : list Category
}.

(** The zero values [Task{}] and [Category{}]. *)
Definition zeroTask : Task :=
  mkTask "" "" "" "" "" 0 [] [] false false "" "".

Definition zeroCategory : Category := mkCategory "" "" [].

#[export] Instance Task_inhabited : Inhabited Task := populate zeroTask.
#[export] Instance Category_inhabited : Inhabited Category := populate zeroCategory.

(** Field assignments. *)
Definition set_ID (v : string) (t : Task) : Task :=
  mkTask v (Name t) (Description t) (Notes t) (State t) (Size t) (Links t)
         (Checklist t) (Urgent t) (Focused t) (SourceID t) (Source t).
Definition set_Name (v : string) (t : Task) : Task :=
  mkTask (ID t) v (Description t) (Notes t) (State t) (Size t) (Links t)
         (Checklist t) (Urgent t) (Focused t) (SourceID t) (Source t).
Definition set_Description (v : string) (t : Task) : Task :=
  mkTask (ID t) (Name t) v (Notes t) (State t) (Size t) (Links t)
         (Checklist t) (Urgent t) (Focused t) (SourceID t) (Source t).
Definition set_Notes (v : string) (t : Task) : Task :=
  mkTask (ID t) (Name t) (Description t) v (State t) (Size t) (Links t)
         (Checklist t) (Urgent t) (Focused t) (SourceID t) (Source t).
Definition set_State (v : string) (t : Task) : Task :=
  mkTask (ID t) (Name t) (Description t) (Notes t) v (Size t) (Links t)
         (Checklist t) (Urgent t) (Focused t) (SourceID t) (Source t).
Definition set_Size (v : Z) (t : Task) : Task :=
  mkTask (ID t) (Name t) (Description t) (Notes t) (State t) v (Links t)
         (Checklist t) (Urgent t) (Focused t) (SourceID t) (Source t).
Definition set_Links (v : list TaskLink) (t : Task) : Task :=
  mkTask (ID t) (Name t) (Description t) (Notes t) (State t) (Size t) v
         (Checklist t) (Urgent t) (Focused t) (SourceID t) (Source t).
Definition set_Checklist (v : list ChecklistItem) (t : Task) : Task :=
  mkTask (ID t) (Name t) (Description t) (Notes t) (State t) (Size t) (Links t)
         v (Urgent t) (Focused t) (SourceID t) (Source t).
Definition set_Urgent (v : bool) (t : Task) : Task :=
  mkTask (ID t) (Name t) (Description t) (Notes t) (State t) (Size t) (Links t)
         (Checklist t) v (Focused t) (SourceID t) (Source t).
Definition set_Focused (v : bool) (t : Task) : Task :=
  mkTask (ID t) (Name t) (Description t) (Notes t) (State t) (Size t) (Links t)
         (Checklist t) (Urgent t) v (SourceID t) (Source t).
Definition set_SourceID (v : string) (t : Task) : Task :=
  mkTask (ID t) (Name t) (Description t) (Notes t) (State t) (Size t) (Links t)
         (Checklist t) (Urgent t) (Focused t) v (Source t).
Definition set_Source (v : string) (t : Task) : Task :=
  mkTask (ID t) (Name t) (Description t) (Notes t) (State t) (Size t) (Links t)
         (Checklist t) (Urgent t) (Focused t) (SourceID t) v.

Definition set_CatName (v : string) (c : Category) : Category :=
  mkCategory (CatID c) v (Tasks c).
Definition set_Tasks (v : list Task) (c : Category) : Category :=
  mkCategory (CatID c) (CatName c) v.

Definition set_Categories (v : list Category) (b : BoardState) : BoardState :=
  mkBoardState v (Backburner b) (Archives b) (CategoryBackburner b) (CategoryArchives b).
Definition set_Backburner (v : list Task) (b : BoardState) : BoardState :=
  mkBoardState (Categories b) v (Archives b) (CategoryBackburner b) (CategoryArchives b).
Definition set_Archives (v : list Task) (b : BoardState) : BoardState :=
  mkBoardState (Categories b) (Backburner b) v (CategoryBackburner b) (CategoryArchives b).
Definition set_CategoryBackburner (v : list Category) (b : BoardState) : BoardState :=
  mkBoardState (Categories b) (Backburner b) (Archives b) v (CategoryArchives b).
Definition set_CategoryArchives (v : list Category) (b : BoardState) : BoardState :=
  mkBoardState (Categories b) (Backburner b) (Archives b) (CategoryBackburner b) v.

(** ** Errors

    The nine sentinel errors, [fmt.Errorf("%w: ...", sentinel)] and
    [fmt.Errorf] without [%w]; [errors_Is] is [errors.Is]. *)

Inductive sentinel :=
  | ErrTaskNotFound
  | ErrCategoryNotFound
  | ErrCapacityExceeded
  | ErrInvalidState
  | ErrInvalidLocation
  | ErrInvalidTaskSize
  | ErrInvalidRequest
  | ErrDuplicateCategory
  | ErrCategoryLimit.

Inductive error :=
  | Sentinel (e : sentinel)
  | Wrapf (e : sentinel) (msg : string)
  | Errorf (msg : string).

Definition sentinel_eqb (a b : sentinel) : bool :=
  match a, b with
  | ErrTaskNotFound, ErrTaskNotFound
  | ErrCategoryNotFound, ErrCategoryNotFound
  | ErrCapacityExceeded, ErrCapacityExceeded
  | ErrInvalidState, ErrInvalidState
  | ErrInvalidLocation, ErrInvalidLocation
  | ErrInvalidTaskSize, ErrInvalidTaskSize
  | ErrInvalidRequest, ErrInvalidRequest
  | ErrDuplicateCategory, ErrDuplicateCategory
  | ErrCategoryLimit, ErrCategoryLimit => true
  | _, _ => false
  end.

Definition errors_Is (err : error) (target : sentinel) : bool :=
  match err with
  | Sentinel e => sentinel_eqb e target
  | Wrapf e _ => sentinel_eqb e target
  | Errorf _ => false
  end.

Inductive result (A : Type) :=
  | Ok (a : A)
  | Err (e : error).
Arguments Ok {A} a.
Arguments Err {A} e.

(** The [error] a Go caller sees: [None] is [nil]. *)
Definition result_error {A : Type} (r : result A) : option error :=
  match r with
  | Ok _ => None
  | Err e => Some e
  end.

(** ** Clone: copies of the slices, the same values. *)

Definition Task_Clone (t : Task) : Task :=
  mkTask (ID t) (Name t) (Description t) (Notes t) (State t) (Size t)
         (if (0 <? length (Links t))%nat then (fun l => l) <$> Links t else Links t)
         (if (0 <? length (Checklist t))%nat then (fun c => c) <$> Checklist t else Checklist t)
         (Urgent t) (Focused t) (SourceID t) (Source t).

Definition Category_Clone (c : Category) : Category :=
  mkCategory (CatID c) (CatName c)
             (if (0 <? length (Tasks c))%nat then Task_Clone <$> Tasks c else Tasks c).

(** ** Validation *)

Definition allowedStates : gset string :=
  {[ "todo"; "doing"; "blocked"; "done"; "delegated" ]}.

Definition ValidateTaskState (state : string) : option error :=
  if bool_decide (state ∈ allowedStates) then None
  else Some (Wrapf ErrInvalidState state).

Definition NormalizeSize (size : Z) : result Z :=
  if (size <? 1) || (5 <? size) then Err (Sentinel ErrInvalidTaskSize)
  else Ok size.

(** ** Requests (requests.go) *)

Module CreateTaskRequest.
Record t := mk {
  Location : string;
  CategoryID : string;
  Position : option Z;
  Task : Task
}.

Definition Normalize (r : t) : t :=
  if String.eqb (Location r) "" then mk LocationCategory (CategoryID r) (Position r) (Task r)
  else r.

Definition Validate (r : t) : option error :=
  match ValidateTaskState (State (Task r)) with
  | Some e => Some e
  | None =>
    match NormalizeSize (Size (Task r)) with
    | Err e => Some e
    | Ok _ =>
      if String.eqb (Location r) LocationCategory then
        if String.eqb (CategoryID r) "" then
          Some (Wrapf ErrInvalidRequest "categoryId required for category location")
        else None
      else if String.eqb (Location r) LocationBackburner
              || String.eqb (Location r) LocationArchive then None
      else Some (Sentinel ErrInvalidLocation)
    end
  end.
End CreateTaskRequest.

Module TaskPatch.
Record t := mk {
  Name : option string;
  Description : option string;
  Notes : option string;
  State : option string;
  Size : option Z;
  Links : option (list TaskLink);
  Checklist : option (list ChecklistItem);
  Urgent : option bool
}.

(** [Apply] writes through the task pointer field by field, so the fields
    assigned before a failing validation stay assigned: the task as left
    by the call is returned with the error. *)
Definition Apply (p : t) (task : Task) : option error * Task :=
  let task := match Name p with Some v => set_Name v task | None => task end in
  let task := match Description p with Some v => set_Description v task | None => task end in
  let task := match Notes p with Some v => set_Notes v task | None => task end in
  match (match State p with
         | Some v =>
           match ValidateTaskState v with
           | Some e => inl e
           | None => inr (set_State v task)
           end
         | None => inr task
         end) with
  | inl e => (Some e, task)
  | inr task =>
    match (match Size p with
           | Some v =>
             match NormalizeSize v with
             | Err e => inl e
             | Ok size => inr (set_Size size task)
             end
           | None => inr task
           end) with
    | inl e => (Some e, task)
    | inr task =>
      let task := match Links p with Some v => set_Links v task | None => task end in
      let task := match Checklist p with Some v => set_Checklist v task | None => task end in
      let task := match Urgent p with Some v => set_Urgent v task | None => task end in
      (None, task)
    end
  end.
End TaskPatch.

Module MoveTaskRequest.
Record t := mk {
  Location : string;
  CategoryID : string;
  Position : option Z;
  SourceID : string;
  Source : string
}.

Definition Normalize (r : t) : t :=
  if String.eqb (Location r) "" then
    mk LocationCategory (CategoryID r) (Position r) (SourceID r) (Source r)
  else r.

Definition Validate (r : t) : option error :=
  if String.eqb (Location r) LocationCategory then
    if String.eqb (CategoryID r) "" then
      Some (Wrapf ErrInvalidRequest "categoryId required for category move")
    else None
  else if String.eqb (Location r) LocationBackburner
          || String.eqb (Location r) LocationArchive then None
  else Some (Sentinel ErrInvalidLocation).
End MoveTaskRequest.

Module MoveCategoryRequest.
Record t := mk {
  Location : string;
  Position : option Z
}.

Definition Normalize (r : t) : t :=
  if String.eqb (Location r) "" then mk LocationCategoryBoard (Position r) else r.

Definition Validate (r : t) : option error :=
  if String.eqb (Location r) LocationCategoryBoard
     || String.eqb (Location r) LocationBackburner
     || String.eqb (Location r) LocationArchive then None
  else Some (Sentinel ErrInvalidLocation).
End MoveCategoryRequest.

(** ** Slice primitives (store.go)

    [append(s[:i], s[i+1:]...)] is stdpp's [delete i s].  The insertion
    idiom [s = append(s, zero); copy(s[i+1:], s[i:]); s[i] = x] (and
    [append(s[:i+1], s[i:]...); s[i] = x]) is [insertAt i x s]; Go panics
    for [i > len(s)], every call site has [i <= len(s)]. *)

Definition insertAt {A : Type} (i : nat) (x : A) (l : list A) : list A :=
  take i l ++ x :: drop i l.

(** The index chosen from an optional [*int] position: the position when
    it is within [0 .. len], the end of the slice otherwise. *)
Definition insertIndex (position : option Z) (len : nat) : nat :=
  match position with
  | Some p => if (0 <=? p) && (p <=? Z.of_nat len) then Z.to_nat p else len
  | None => len
  end.

(** Go's [int] addition (64-bit, two's complement). *)
Definition int_add (a b : Z) : Z :=
  (a + b + 2 ^ 63) mod 2 ^ 64 - 2 ^ 63.

(** ** Locations *)

Record taskLocation := mkTaskLocation {
  Kind : string;
  CategoryIndex : nat;
  TaskIndex : nat
}.

Record categoryLocation := mkCategoryLocation {
  CKind : string;
  Index : nat
}.

(** ** Invariant enforcement (store.go) *)

Fixpoint ensureCapacity_loop (total : Z) (tasks : list Task) : option error :=
  match tasks with
  | [] => None
  | t :: rest =>
    let total := int_add total (Size t) in
    if ColumnCapacity <? total then Some (Sentinel ErrCapacityExceeded)
    else ensureCapacity_loop total rest
  end.

Definition ensureCapacity (cat : Category) : option error :=
  ensureCapacity_loop 0 (Tasks cat).

Definition normalizeUrgent (state : BoardState) (catIdx : nat) (urgentTaskID : string)
  : BoardState :=
  set_Categories
    (alter (fun c => set_Tasks
                       ((fun t => set_Urgent (String.eqb (ID t) urgentTaskID) t) <$> Tasks c) c)
           catIdx (Categories state))
    state.

Definition clearCategoryFocus (cat : Category) : Category :=
  set_Tasks (set_Focused false <$> Tasks cat) cat.

Definition normalizeFocus (state : BoardState) (focusedID : string) : BoardState :=
  mkBoardState
    ((fun c => set_Tasks
                 ((fun t => set_Focused
                              (String.eqb (ID t) focusedID
                               && negb (String.eqb focusedID "")) t)
                    <$> Tasks c) c)
       <$> Categories state)
    (set_Focused false <$> Backburner state)
    (set_Focused false <$> Archives state)
    (clearCategoryFocus <$> CategoryBackburner state)
    (clearCategoryFocus <$> CategoryArchives state).

Definition clearFocus (state : BoardState) : BoardState :=
  mkBoardState
    (clearCategoryFocus <$> Categories state)
    (set_Focused false <$> Backburner state)
    (set_Focused false <$> Archives state)
    (clearCategoryFocus <$> CategoryBackburner state)
    (clearCategoryFocus <$> CategoryArchives state).

(** ** Find (store.go) *)

(** The index of the first category with the identifier; [None] is the
    source's [-1]. *)
Definition findCategoryIndex (categories : list Category) (id : string) : option nat :=
  fst <$> list_find (fun c => CatID c = id) categories.

(** The outer loop of [findTask] over [state.Categories], from category
    index [ci]. *)
Fixpoint findInCategories (cats : list Category) (ci : nat) (id : string)
  : option (Task * taskLocation) :=
  match cats with
  | [] => None
  | c :: rest =>
    match list_find (fun t => ID t = id) (Tasks c) with
    | Some (ti, t) => Some (t, mkTaskLocation LocationCategory ci ti)
    | None => findInCategories rest (S ci) id
    end
  end.

(** [findTask] scans the active categories, then [Backburner], then
    [Archives]; the categories parked in [CategoryBackburner] and
    [CategoryArchives] are not scanned.  The task is returned by value
    together with its address; writes through the returned pointer are
    [setTaskAt]. *)
Definition findTask (state : BoardState) (id : string) : result (Task * taskLocation) :=
  match findInCategories (Categories state) 0 id with
  | Some r => Ok r
  | None =>
    match list_find (fun t => ID t = id) (Backburner state) with
    | Some (i, t) => Ok (t, mkTaskLocation LocationBackburner 0 i)
    | None =>
      match list_find (fun t => ID t = id) (Archives state) with
      | Some (i, t) => Ok (t, mkTaskLocation LocationArchive 0 i)
      | None => Err (Sentinel ErrTaskNotFound)
      end
    end
  end.

(** Reading and writing the task at an address. *)
Definition taskAt (state : BoardState) (loc : taskLocation) : option Task :=
  if String.eqb (Kind loc) LocationCategory then
    c ← Categories state !! CategoryIndex loc; Tasks c !! TaskIndex loc
  else if String.eqb (Kind loc) LocationBackburner then Backburner state !! TaskIndex loc
  else if String.eqb (Kind loc) LocationArchive then Archives state !! TaskIndex loc
  else None.

Definition setTaskAt (loc : taskLocation) (task : Task) (state : BoardState) : BoardState :=
  if String.eqb (Kind loc) LocationCategory then
    set_Categories
      (alter (fun c => set_Tasks (<[TaskIndex loc := task]> (Tasks c)) c)
             (CategoryIndex loc) (Categories state))
      state
  else if String.eqb (Kind loc) LocationBackburner then
    set_Backburner (<[TaskIndex loc := task]> (Backburner state)) state
  else if String.eqb (Kind loc) LocationArchive then
    set_Archives (<[TaskIndex loc := task]> (Archives state)) state
  else state.

(** ** Remove and restore (store.go) *)

Definition removeTask (state : BoardState) (id : string)
  : result (Task * taskLocation) * BoardState :=
  match findTask state id with
  | Ok (taskPtr, loc) =>
    let task := Task_Clone taskPtr in
    let state :=
      if String.eqb (Kind loc) LocationCategory then
        set_Categories
          (alter (fun cat => set_Tasks (delete (TaskIndex loc) (Tasks cat)) cat)
                 (CategoryIndex loc) (Categories state))
          state
      else if String.eqb (Kind loc) LocationBackburner then
        set_Backburner (delete (TaskIndex loc) (Backburner state)) state
      else if String.eqb (Kind loc) LocationArchive then
        set_Archives (delete (TaskIndex loc) (Archives state)) state
      else state in
    (Ok (task, loc), state)
  | Err _ => (Err (Sentinel ErrTaskNotFound), state)
  end.

Definition restoreTask (state : BoardState) (task : Task) (loc : taskLocation) : BoardState :=
  if String.eqb (Kind loc) LocationCategory then
    set_Categories
      (alter (fun cat =>
                if (length (Tasks cat) <=? TaskIndex loc)%nat
                then set_Tasks (Tasks cat ++ [task]) cat
                else set_Tasks (insertAt (TaskIndex loc) task (Tasks cat)) cat)
             (CategoryIndex loc) (Categories state))
      state
  else if String.eqb (Kind loc) LocationBackburner then
    set_Backburner (insertAt (TaskIndex loc) task (Backburner state)) state
  else if String.eqb (Kind loc) LocationArchive then
    set_Archives (insertAt (TaskIndex loc) task (Archives state)) state
  else state.

Definition removeCategory (state : BoardState) (id : string)
  : result (Category * categoryLocation) * BoardState :=
  match list_find (fun c => CatID c = id) (Categories state) with
  | Some (i, c) =>
    (Ok (Category_Clone c, mkCategoryLocation LocationCategoryBoard i),
     set_Categories (delete i (Categories state)) state)
  | None =>
    match list_find (fun c => CatID c = id) (CategoryBackburner state) with
    | Some (i, c) =>
      (Ok (Category_Clone c, mkCategoryLocation LocationBackburner i),
       set_CategoryBackburner (delete i (CategoryBackburner state)) state)
    | None =>
      match list_find (fun c => CatID c = id) (CategoryArchives state) with
      | Some (i, c) =>
        (Ok (Category_Clone c, mkCategoryLocation LocationArchive i),
         set_CategoryArchives (delete i (CategoryArchives state)) state)
      | None => (Err (Sentinel ErrCategoryNotFound), state)
      end
    end
  end.

Definition restoreCategory (state : BoardState) (cat : Category) (loc : categoryLocation)
  : BoardState :=
  if String.eqb (CKind loc) LocationCategoryBoard then
    if (length (Categories state) <=? Index loc)%nat
    then set_Categories (Categories state ++ [cat]) state
    else set_Categories (insertAt (Index loc) cat (Categories state)) state
  else if String.eqb (CKind loc) LocationBackburner then
    set_CategoryBackburner (insertAt (Index loc) cat (CategoryBackburner state)) state
  else if String.eqb (CKind loc) LocationArchive then
    set_CategoryArchives (insertAt (Index loc) cat (CategoryArchives state)) state
  else state.

(** ** Insert and place (store.go) *)

Definition insertTask (newID : string) (req : CreateTaskRequest.t) (state : BoardState)
  : result Task * BoardState :=
  let task := CreateTaskRequest.Task req in
  let task := if String.eqb (ID task) "" then set_ID newID task else task in
  let task := if Size task =? 0 then set_Size 1 task else task in
  match NormalizeSize (Size task) with
  | Err e => (Err e, state)
  | Ok size =>
    let task := set_Size size task in
    match ValidateTaskState (State task) with
    | Some e => (Err e, state)
    | None =>
      if String.eqb (CreateTaskRequest.Location req) LocationCategory then
        match findCategoryIndex (Categories state) (CreateTaskRequest.CategoryID req) with
        | None => (Err (Sentinel ErrCategoryNotFound), state)
        | Some idx =>
          let cat := Categories state !!! idx in
          let i := insertIndex (CreateTaskRequest.Position req) (length (Tasks cat)) in
          let cat := set_Tasks (insertAt i task (Tasks cat)) cat in
          match ensureCapacity cat with
          | Some e =>
            let cat := set_Tasks (delete i (Tasks cat)) cat in
            (Err e, set_Categories (<[idx := cat]> (Categories state)) state)
          | None =>
            let state := set_Categories (<[idx := cat]> (Categories state)) state in
            let state := if Urgent task then normalizeUrgent state idx (ID task) else state in
            let state := if Focused task then normalizeFocus state (ID task) else state in
            (Ok (Task_Clone task), state)
          end
        end
      else if String.eqb (CreateTaskRequest.Location req) LocationBackburner then
        let task := set_Focused false (set_Urgent false task) in
        (Ok (Task_Clone task), set_Backburner (Backburner state ++ [task]) state)
      else if String.eqb (CreateTaskRequest.Location req) LocationArchive then
        let task := set_Focused false (set_Urgent false task) in
        (Ok (Task_Clone task), set_Archives (Archives state ++ [task]) state)
      else (Err (Sentinel ErrInvalidLocation), state)
    end
  end.

(** [placeTask] receives the task by value: its assignments to the task
    are not seen by the caller. *)
Definition placeTask (task : Task) (dest : MoveTaskRequest.t) (state : BoardState)
  : option error * BoardState :=
  let dest := MoveTaskRequest.Normalize dest in
  match MoveTaskRequest.Validate dest with
  | Some e => (Some e, state)
  | None =>
    let task := set_Focused false task in
    if String.eqb (MoveTaskRequest.Location dest) LocationCategory then
      match findCategoryIndex (Categories state) (MoveTaskRequest.CategoryID dest) with
      | None => (Some (Sentinel ErrCategoryNotFound), state)
      | Some idx =>
        let i := insertIndex (MoveTaskRequest.Position dest)
                             (length (Tasks (Categories state !!! idx))) in
        let task := set_Source "" (set_SourceID "" task) in
        let state :=
          if Urgent task then normalizeUrgent state idx (ID task)
          else normalizeUrgent state idx "" in
        let cat := Categories state !!! idx in
        let cat := set_Tasks (insertAt i task (Tasks cat)) cat in
        match ensureCapacity cat with
        | Some e =>
          let cat := set_Tasks (delete i (Tasks cat)) cat in
          (Some e, set_Categories (<[idx := cat]> (Categories state)) state)
        | None => (None, set_Categories (<[idx := cat]> (Categories state)) state)
        end
      end
    else if String.eqb (MoveTaskRequest.Location dest) LocationBackburner then
      let task := set_Focused false (set_Urgent false task) in
      let task := set_Source (MoveTaskRequest.Source dest)
                    (set_SourceID (MoveTaskRequest.SourceID dest) task) in
      (None, set_Backburner (Backburner state ++ [task]) state)
    else if String.eqb (MoveTaskRequest.Location dest) LocationArchive then
      let task := set_Focused false (set_Urgent false task) in
      let task := set_Source (MoveTaskRequest.Source dest)
                    (set_SourceID (MoveTaskRequest.SourceID dest) task) in
      (None, set_Archives (Archives state ++ [task]) state)
    else (Some (Sentinel ErrInvalidLocation), state)
  end.

(** [placeCategory] receives the category by value, but
    [clearCategoryFocus] writes through the task slice it shares with the
    caller: the category as the caller sees it afterwards is returned
    with the outcome. *)
Definition placeCategory (cat : Category) (dest : MoveCategoryRequest.t) (state : BoardState)
  : option error * Category * BoardState :=
  if String.eqb (MoveCategoryRequest.Location dest) LocationCategoryBoard then
    if (CategoryLimit <=? length (Categories state))%nat then
      (Some (Sentinel ErrCategoryLimit), cat, state)
    else
      match ensureCapacity cat with
      | Some e => (Some e, cat, state)
      | None =>
        let i := insertIndex (MoveCategoryRequest.Position dest) (length (Categories state)) in
        (None, cat, set_Categories (insertAt i cat (Categories state)) state)
      end
  else if String.eqb (MoveCategoryRequest.Location dest) LocationBackburner then
    let cat := clearCategoryFocus cat in
    (None, cat, set_CategoryBackburner (CategoryBackburner state ++ [cat]) state)
  else if String.eqb (MoveCategoryRequest.Location dest) LocationArchive then
    let cat := clearCategoryFocus cat in
    (None, cat, set_CategoryArchives (CategoryArchives state ++ [cat]) state)
  else (Some (Sentinel ErrInvalidLocation), cat, state).

(** ** Reorder (store.go) *)

(** [index[id] = i] for every [i, id] of [order], from position [i]. *)
Fixpoint orderIndex (order : list string) (i : nat) (index : gmap string nat)
  : gmap string nat :=
  match order with
  | [] => index
  | id :: rest => orderIndex rest (S i) (<[id := i]> index)
  end.

(** The loop over [cat.Tasks] writing [reordered[pos] = task]. *)
Fixpoint placeByIndex (index : gmap string nat) (tasks reordered : list Task)
  : result (list Task) :=
  match tasks with
  | [] => Ok reordered
  | task :: rest =>
    match index !! ID task with
    | None => Err (Wrapf ErrInvalidRequest ("missing task id " ++ ID task))
    | Some pos => placeByIndex index rest (<[pos := task]> reordered)
    end
  end.

Definition reorderTasks (cat : Category) (order : list string) : option error * Category :=
  if negb (length order =? length (Tasks cat))%nat then
    (Some (Wrapf ErrInvalidRequest "task order length mismatch"), cat)
  else
    let index := orderIndex order 0 ∅ in
    match placeByIndex index (Tasks cat) (replicate (length (Tasks cat)) zeroTask) with
    | Err e => (Some e, cat)
    | Ok reordered => (None, set_Tasks reordered cat)
    end.

(** ** The exported operations (store.go)

    Each is the closure the method hands to [withWrite], preceded by the
    request checks the method runs before taking the lock. *)

Definition CreateTask (newID : string) (req : CreateTaskRequest.t) (state : BoardState)
  : result Task * BoardState :=
  let req := CreateTaskRequest.Normalize req in
  match CreateTaskRequest.Validate req with
  | Some e => (Err e, state)
  | None => insertTask newID req state
  end.

Definition UpdateTask (id : string) (patch : TaskPatch.t) (state : BoardState)
  : result Task * BoardState :=
  match findTask state id with
  | Err e => (Err e, state)
  | Ok (task, loc) =>
    let '(err, task) := TaskPatch.Apply patch task in
    let state := setTaskAt loc task state in
    match err with
    | Some e => (Err e, state)
    | None =>
      let state :=
        if String.eqb (Kind loc) LocationCategory then
          if Urgent task then normalizeUrgent state (CategoryIndex loc) (ID task)
          else normalizeUrgent state (CategoryIndex loc) ""
        else state in
      match (if String.eqb (Kind loc) LocationCategory
             then ensureCapacity (Categories state !!! CategoryIndex loc)
             else None) with
      | Some e => (Err e, state)
      | None => (Ok (Task_Clone (default task (taskAt state loc))), state)
      end
    end
  end.

Definition MoveTask (id : string) (dest : MoveTaskRequest.t) (state : BoardState)
  : result Task * BoardState :=
  match removeTask state id with
  | (Err e, state) => (Err e, state)
  | (Ok (task, loc), state) =>
    let destCopy :=
      if (String.eqb (MoveTaskRequest.Location dest) LocationBackburner
          || String.eqb (MoveTaskRequest.Location dest) LocationArchive)
         && String.eqb (MoveTaskRequest.SourceID dest) ""
      then
        if String.eqb (Kind loc) LocationCategory then
          let cat := Categories state !!! CategoryIndex loc in
          MoveTaskRequest.mk (MoveTaskRequest.Location dest)
                             (MoveTaskRequest.CategoryID dest)
                             (MoveTaskRequest.Position dest)
                             (CatID cat) (CatName cat)
        else dest
      else dest in
    match placeTask task destCopy state with
    | (Some e, state) => (Err e, restoreTask state task loc)
    | (None, state) => (Ok (Task_Clone task), state)
    end
  end.

Definition DeleteTask (id : string) (state : BoardState) : result unit * BoardState :=
  match findTask state id with
  | Err e => (Err e, state)
  | Ok (_, loc) =>
    if negb (String.eqb (Kind loc) LocationArchive) then
      (Err (Errorf ("task " ++ id ++ " is not in archive")), state)
    else
      match removeTask state id with
      | (Err e, state) => (Err e, state)
      | (Ok _, state) => (Ok (), state)
      end
  end.

Definition MoveCategory (id : string) (dest : MoveCategoryRequest.t) (state : BoardState)
  : result Category * BoardState :=
  let dest := MoveCategoryRequest.Normalize dest in
  match MoveCategoryRequest.Validate dest with
  | Some e => (Err e, state)
  | None =>
    match removeCategory state id with
    | (Err e, state) => (Err e, state)
    | (Ok (cat, loc), state) =>
      match placeCategory cat dest state with
      | (Some e, cat, state) => (Err e, restoreCategory state cat loc)
      | (None, cat, state) => (Ok (Category_Clone cat), state)
      end
    end
  end.

Definition ReorderCategoryTasks (id : string) (order : list string) (state : BoardState)
  : result Category * BoardState :=
  match findCategoryIndex (Categories state) id with
  | Some i =>
    match reorderTasks (Categories state !!! i) order with
    | (Some e, _) => (Err e, state)
    | (None, cat) =>
      (Ok (Category_Clone cat), set_Categories (<[i := cat]> (Categories state)) state)
    end
  | None => (Err (Sentinel ErrCategoryNotFound), state)
  end.

Definition SetFocused (taskID : string) (state : BoardState) : result Task * BoardState :=
  if String.eqb taskID "" then (Ok zeroTask, clearFocus state)
  else
    match findTask state taskID with
    | Err e => (Err e, state)
    | Ok (task, loc) =>
      let state := clearFocus state in
      let task := set_Focused true (default task (taskAt state loc)) in
      (Ok (Task_Clone task), setTaskAt loc task state)
    end.

Section Store.

(** [strings.TrimSpace]. *)
Variable TrimSpace : string -> string.

Definition RenameCategory (id name : string) (state : BoardState)
  : result Category * BoardState :=
  let name := TrimSpace name in
  if String.eqb name "" then (Err (Wrapf ErrInvalidRequest "name cannot be empty"), state)
  else if bool_decide (Exists (fun existing => CatName existing = name /\ CatID existing <> id)
                              (Categories state)) then
    (Err (Sentinel ErrDuplicateCategory), state)
  else if bool_decide (Exists (fun existing => CatName existing = name /\ CatID existing <> id)
                              (CategoryBackburner state)) then
    (Err (Sentinel ErrDuplicateCategory), state)
  else if bool_decide (Exists (fun existing => CatName existing = name /\ CatID existing <> id)
                              (CategoryArchives state)) then
    (Err (Sentinel ErrDuplicateCategory), state)
  else
    match findCategoryIndex (Categories state) id with
    | Some i =>
      let cat := set_CatName name (Categories state !!! i) in
      (Ok (Category_Clone cat), set_Categories (<[i := cat]> (Categories state)) state)
    | None => (Err (Sentinel ErrCategoryNotFound), state)
    end.

Definition CreateCategory (newID name : string) (state : BoardState)
  : result Category * BoardState :=
  let name := TrimSpace name in
  if String.eqb name "" then (Err (Wrapf ErrInvalidRequest "name required"), state)
  else if bool_decide (Exists (fun existing => CatName existing = name) (Categories state)) then
    (Err (Sentinel ErrDuplicateCategory), state)
  else if bool_decide (Exists (fun existing => CatName existing = name)
                              (CategoryBackburner state)) then
    (Err (Sentinel ErrDuplicateCategory), state)
  else if bool_decide (Exists (fun existing => CatName existing = name)
                              (CategoryArchives state)) then
    (Err (Sentinel ErrDuplicateCategory), state)
  else if (CategoryLimit <=? length (Categories state))%nat then
    (Err (Sentinel ErrCategoryLimit), state)
  else
    let cat := mkCategory newID name [] in
    (Ok cat, set_Categories (Categories state ++ [cat]) state).

(** The nine mutating operations as one step function: the error the
    caller receives ([None] for success) and the board left in
    memory. *)
Inductive Op :=
  | OpCreateTask (newID : string) (req : CreateTaskRequest.t)
  | OpUpdateTask (id : string) (patch : TaskPatch.t)
  | OpMoveTask (id : string) (dest : MoveTaskRequest.t)
  | OpDeleteTask (id : string)
  | OpCreateCategory (newID name : string)
  | OpRenameCategory (id name : string)
  | OpMoveCategory (id : string) (dest : MoveCategoryRequest.t)
  | OpReorderCategoryTasks (id : string) (order : list string)
  | OpSetFocused (taskID : string).

Definition outcome {A : Type} (r : result A * BoardState) : option error * BoardState :=
  (result_error (fst r), snd r).

Definition step (op : Op) (state : BoardState) : option error * BoardState :=
  match op with
  | OpCreateTask newID req => outcome (CreateTask newID req state)
  | OpUpdateTask id patch => outcome (UpdateTask id patch state)
  | OpMoveTask id dest => outcome (MoveTask id dest state)
  | OpDeleteTask id => outcome (DeleteTask id state)
  | OpCreateCategory newID name => outcome (CreateCategory newID name state)
  | OpRenameCategory id name => outcome (RenameCategory id name state)
  | OpMoveCategory id dest => outcome (MoveCategory id dest state)
  | OpReorderCategoryTasks id order => outcome (ReorderCategoryTasks id order state)
  | OpSetFocused taskID => outcome (SetFocused taskID state)
  end.

End Store.


(** * The seeded board (store.go)

    [seedBoard] draws a fresh identifier for each task and each category
    with [NewID()]; [newID k] is the identifier of the call number [k],
    the calls counted in evaluation order (the tasks of a category
    before the category). *)

Definition newTask (id name desc state : string) (size : Z) : Task :=
  mkTask id name desc "" state size [] [] false false "" "".

Definition newCategory (id name : string) (tasks : list Task) : Category :=
  mkCategory id name tasks.

Definition seedBoard (newID : nat -> string) : BoardState :=
  mkBoardState
    [newCategory (newID 3%nat) "Backlog"
       [newTask (newID 0%nat) "Research idea"
                "Collect references and create a quick outline." "todo" 2;
        newTask (newID 1%nat) "Spike prototype"
                "Throwaway exploration to de-risk approach." "doing" 2;
        newTask (newID 2%nat) "Triage inbox" "Sort and label incoming items." "todo" 1];
     newCategory (newID 6%nat) "Planning"
       [newTask (newID 4%nat) "Roadmap v1"
                "Define milestones and success criteria." "doing" 3;
        newTask (newID 5%nat) "Team sync" "Align on goals, scope, and timelines." "todo" 2];
     newCategory (newID 10%nat) "Build"
       [newTask (newID 7%nat) "Implement core" "Core feature work across modules." "doing" 2;
        newTask (newID 8%nat) "Write tests" "Unit and integration coverage." "todo" 1;
        newTask (newID 9%nat) "Docs pass" "README + usage examples." "todo" 2];
     newCategory (newID 12%nat) "Launch"
       [newTask (newID 11%nat) "Release prep"
                "Changelog, versioning, and rollout plan." "todo" 5];
     newCategory (newID 17%nat) "Personal"
       [newTask (newID 13%nat) "Workout" "Split day routine; 45 minutes." "doing" 2;
        newTask (newID 14%nat) "Groceries" "Restock staples and veggies." "todo" 1;
        newTask (newID 15%nat) "Call mom" "Weekly check-in." "done" 1;
        newTask (newID 16%nat) "Read 30 mins" "Continue current book." "todo" 1]]
    [] [] [] [].

(** * Persistence (store.go)

    [withWrite] runs the closure of a method on the board in memory and,
    when the closure returned no error, writes the board to disk with
    [saveLocked].  What the file system answers is a parameter:
    [saveLocked state] is [None] when the board is written, and the text
    of the error otherwise.  That error is built by [fmt.Errorf] around
    the error of [json.MarshalIndent] or of the [os] call that failed, so
    it wraps none of the sentinel errors of the package.  When the save
    fails the method returns that error and zero values, and the board
    in memory stays as the closure left it. *)

Definition withWrite {A : Type} (saveLocked : BoardState -> option string)
           (lockFn : BoardState -> result A * BoardState) (state : BoardState)
  : result A * BoardState :=
  match lockFn state with
  | (Err err, state) => (Err err, state)
  | (Ok a, state) =>
    match saveLocked state with
    | Some message => (Err (Errorf message), state)
    | None => (Ok a, state)
    end
  end.

(** The methods of the store, by operation: the closure under
    [withWrite]. *)
Definition storeStep (saveLocked : BoardState -> option string)
           (TrimSpace : string -> string) (op : Op) (state : BoardState)
  : option error * BoardState :=
  match op with
  | OpCreateTask newID req => outcome (withWrite saveLocked (CreateTask newID req) state)
  | OpUpdateTask id patch => outcome (withWrite saveLocked (UpdateTask id patch) state)
  | OpMoveTask id dest => outcome (withWrite saveLocked (MoveTask id dest) state)
  | OpDeleteTask id => outcome (withWrite saveLocked (DeleteTask id) state)
  | OpCreateCategory newID name =>
    outcome (withWrite saveLocked (CreateCategory TrimSpace newID name) state)
  | OpRenameCategory id name =>
    outcome (withWrite saveLocked (RenameCategory TrimSpace id name) state)
  | OpMoveCategory id dest => outcome (withWrite saveLocked (MoveCategory id dest) state)
  | OpReorderCategoryTasks id order =>
    outcome (withWrite saveLocked (ReorderCategoryTasks id order) state)
  | OpSetFocused taskID => outcome (withWrite saveLocked (SetFocused taskID) state)
  end.

(** * The HTTP layer (server.go)

    The handlers of [server.go] that take a task or a category by the
    identifier in the URL.  A handler is a function of the request method,
    the URL path and the request body to the response written and the
    board left in memory.  The handlers are registered on an
    [http.ServeMux]: they are called for the URL paths the multiplexer
    hands to them, which are those without an empty, ["."] or [".."]
    segment (for the others it answers with a redirect by itself).

    Conventions.
    - [encoding/json] is the Go library: the decoding of a request body
      into each request type is a parameter of the development, returning
      the decoded value or the text of the decoding error.
    - A response is its status code, its [Allow] header and its payload;
      a JSON object is the constructor of its shape, [http.Error] and
      [http.NotFound] write [PlainText].  The board in a payload is
      [s.state.Clone()], the board itself.
    - The strings are byte strings, as in Go; [strings.Trim] is called
      with the one-byte cutset ["/"] only and is [TrimByte]. *)

(** ** [strings] *)

(** [Some rest] when [s] is [prefix] followed by [rest]. *)
Fixpoint stripPrefix (prefix s : string) : option string :=
  match prefix, s with
  | EmptyString, _ => Some s
  | String p prefix', String c s' =>
    if Ascii.eqb c p then stripPrefix prefix' s' else None
  | String _ _, EmptyString => None
  end.

(** [Some rest] when [s] is [rest] followed by [suffix]. *)
Fixpoint stripSuffix (suffix s : string) : option string :=
  if String.eqb s suffix then Some EmptyString
  else match s with
       | EmptyString => None
       | String c s' => String c <$> stripSuffix suffix s'
       end.

Definition HasPrefix (s prefix : string) : bool :=
  bool_decide (is_Some (stripPrefix prefix s)).

Definition HasSuffix (s suffix : string) : bool :=
  bool_decide (is_Some (stripSuffix suffix s)).

Definition TrimPrefix (s prefix : string) : string :=
  default s (stripPrefix prefix s).

Definition TrimSuffix (s suffix : string) : string :=
  default s (stripSuffix suffix s).

Fixpoint trimLeftByte (s : string) (c : Ascii.ascii) : string :=
  match s with
  | EmptyString => EmptyString
  | String a rest => if Ascii.eqb a c then trimLeftByte rest c else s
  end.

Fixpoint trimRightByte (s : string) (c : Ascii.ascii) : string :=
  match s with
  | EmptyString => EmptyString
  | String a rest =>
    let rest := trimRightByte rest c in
    if String.eqb rest "" && Ascii.eqb a c then EmptyString else String a rest
  end.

(** The byte of ["/"]. *)
Definition slash : Ascii.ascii :=
  Eval cbv in match "/" with String c _ => c | EmptyString => Ascii.zero end.

(** [strings.Trim(s, cutset)] for a cutset of the one byte [c]. *)
Definition TrimByte (s : string) (c : Ascii.ascii) : string :=
  trimLeftByte (trimRightByte s c) c.

Fixpoint Join (elems : list string) (sep : string) : string :=
  match elems with
  | [] => ""
  | [e] => e
  | e :: rest => e ++ sep ++ Join rest sep
  end.

(** ** Responses *)

Definition StatusOK : Z := 200.
Definition StatusBadRequest : Z := 400.
Definition StatusNotFound : Z := 404.
Definition StatusMethodNotAllowed : Z := 405.
Definition StatusConflict : Z := 409.
Definition StatusInternalServerError : Z := 500.

Inductive payload :=
  | JSONBoard (board : BoardState)
  | JSONTask (task : Task) (board : BoardState)
  | JSONCategory (category : Category) (board : BoardState)
  | JSONError (message : string)
  | PlainText (message : string).

Record response := mkResponse {
  Status : Z;
  Allow : option string;
  Payload : payload
}.

(** [err.Error()]. *)
Definition sentinel_Error (e : sentinel) : string :=
  match e with
  | ErrTaskNotFound => "task not found"
  | ErrCategoryNotFound => "category not found"
  | ErrCapacityExceeded => "column capacity exceeded"
  | ErrInvalidState => "invalid state value"
  | ErrInvalidLocation => "invalid location"
  | ErrInvalidTaskSize => "task size must be between 1 and 5"
  | ErrInvalidRequest => "invalid request"
  | ErrDuplicateCategory => "duplicate category name"
  | ErrCategoryLimit => "maximum number of categories reached"
  end.

Definition Error (err : error) : string :=
  match err with
  | Sentinel e => sentinel_Error e
  | Wrapf e msg => sentinel_Error e ++ ": " ++ msg
  | Errorf msg => msg
  end.

Definition writeJSON (status : Z) (p : payload) : response :=
  mkResponse status None p.

(** [writeError(w, status, err)], from the text of the error. *)
Definition writeError (status : Z) (message : string) : response :=
  writeJSON status (JSONError message).

Definition methodNotAllowed (methods : list string) : response :=
  mkResponse StatusMethodNotAllowed (Some (Join methods ", ")) (PlainText "method not allowed").

(** [http.NotFound]. *)
Definition NotFound : response :=
  mkResponse StatusNotFound None (PlainText "404 page not found").

Definition writeDomainError (err : error) : response :=
  if errors_Is err ErrInvalidRequest || errors_Is err ErrInvalidState
     || errors_Is err ErrInvalidLocation || errors_Is err ErrInvalidTaskSize
  then writeError StatusBadRequest (Error err)
  else if errors_Is err ErrTaskNotFound || errors_Is err ErrCategoryNotFound
  then writeError StatusNotFound (Error err)
  else if errors_Is err ErrCapacityExceeded || errors_Is err ErrCategoryLimit
  then writeError StatusConflict (Error err)
  else if errors_Is err ErrDuplicateCategory
  then writeError StatusConflict (Error err)
  else writeError StatusInternalServerError "internal server error".

(** The ending the handlers share: the domain error of a failed store
    call, or status 200 with the value and the board it returned. *)
Definition respondTask (r : result Task * BoardState) : response * BoardState :=
  match r with
  | (Err err, state) => (writeDomainError err, state)
  | (Ok task, state) => (writeJSON StatusOK (JSONTask task state), state)
  end.

Definition respondCategory (r : result Category * BoardState) : response * BoardState :=
  match r with
  | (Err err, state) => (writeDomainError err, state)
  | (Ok cat, state) => (writeJSON StatusOK (JSONCategory cat state), state)
  end.

Definition respondBoard (r : result unit * BoardState) : response * BoardState :=
  match r with
  | (Err err, state) => (writeDomainError err, state)
  | (Ok _, state) => (writeJSON StatusOK (JSONBoard state), state)
  end.

(** ** Requests (requests.go) *)

Module CategoryPatch.
Record t := mk {
  Name : option string;
  Order : option (list string)
}.
End CategoryPatch.

(** ** Handlers *)

Section Server.

Variable TrimSpace : string -> string.

(** [s.store.saveLocked()], as in the part on persistence. *)
Variable saveLocked : BoardState -> option string.

(** [decodeJSON(r, &v)] for the four request types. *)
Variable Body : Type.
Variable decodeTaskPatch : Body -> string + TaskPatch.t.
Variable decodeMoveTaskRequest : Body -> string + MoveTaskRequest.t.
Variable decodeCategoryPatch : Body -> string + CategoryPatch.t.
Variable decodeMoveCategoryRequest : Body -> string + MoveCategoryRequest.t.

Definition handleMoveTask (method : string) (body : Body) (id : string) (state : BoardState)
  : response * BoardState :=
  if negb (String.eqb method "POST") then (methodNotAllowed ["POST"], state)
  else
    match decodeMoveTaskRequest body with
    | inl message => (writeError StatusBadRequest message, state)
    | inr req => respondTask (withWrite saveLocked (MoveTask id req) state)
    end.

Definition handleTaskByID (method urlPath : string) (body : Body) (state : BoardState)
  : response * BoardState :=
  let path := TrimPrefix urlPath "/api/tasks/" in
  if String.eqb path "" then (NotFound, state)
  else if HasSuffix path "/move" then
    let id := TrimSuffix path "/move" in
    let id := TrimSuffix id "/" in
    handleMoveTask method body id state
  else
    let id := TrimByte path slash in
    if String.eqb method "PATCH" then
      match decodeTaskPatch body with
      | inl message => (writeError StatusBadRequest message, state)
      | inr patch => respondTask (withWrite saveLocked (UpdateTask id patch) state)
      end
    else if String.eqb method "DELETE" then respondBoard (withWrite saveLocked (DeleteTask id) state)
    else (methodNotAllowed ["PATCH"; "DELETE"], state).

Definition handleMoveCategory (method : string) (body : Body) (id : string)
           (state : BoardState) : response * BoardState :=
  if negb (String.eqb method "POST") then (methodNotAllowed ["POST"], state)
  else
    match decodeMoveCategoryRequest body with
    | inl message => (writeError StatusBadRequest message, state)
    | inr req => respondCategory (withWrite saveLocked (MoveCategory id req) state)
    end.

(** The [PATCH] branch of [handleCategoryByID] once the body is
    decoded: the rename, then the reorder, each under its own write
    lock; [cat] and [board] start as zero values. *)
Definition patchCategory (id : string) (patch : CategoryPatch.t) (state : BoardState)
  : response * BoardState :=
  let board := mkBoardState [] [] [] [] [] in
  let cat := zeroCategory in
  match (match CategoryPatch.Name patch with
         | Some name =>
           match withWrite saveLocked (RenameCategory TrimSpace id name) state with
           | (Err err, state) => inl (writeDomainError err, state)
           | (Ok cat, state) => inr (cat, state, state)
           end
         | None => inr (cat, board, state)
         end) with
  | inl r => r
  | inr (cat, board, state) =>
    match (match CategoryPatch.Order patch with
           | Some order =>
             match withWrite saveLocked (ReorderCategoryTasks id order) state with
             | (Err err, state) => inl (writeDomainError err, state)
             | (Ok cat, state) => inr (cat, state, state)
             end
           | None => inr (cat, board, state)
           end) with
    | inl r => r
    | inr (cat, board, state) =>
      match CategoryPatch.Name patch, CategoryPatch.Order patch with
      | None, None =>
        (writeError StatusBadRequest (Error (Wrapf ErrInvalidRequest "no fields to update")),
         state)
      | _, _ => (writeJSON StatusOK (JSONCategory cat board), state)
      end
    end
  end.

Definition handleCategoryByID (method urlPath : string) (body : Body) (state : BoardState)
  : response * BoardState :=
  let path := TrimPrefix urlPath "/api/categories/" in
  if String.eqb path "" then (NotFound, state)
  else if HasSuffix path "/move" then
    let id := TrimSuffix path "/move" in
    let id := TrimSuffix id "/" in
    if String.eqb id "" then (NotFound, state)
    else handleMoveCategory method body id state
  else
    let id := TrimByte path slash in
    if String.eqb id "" then (NotFound, state)
    else if String.eqb method "PATCH" then
      match decodeCategoryPatch body with
      | inl message => (writeError StatusBadRequest message, state)
      | inr patch => patchCategory id patch state
      end
    else (methodNotAllowed ["PATCH"], state).

End Server.

(** * Specification vocabulary *)

(** ** Addresses *)

(** No task of the categories [cats] carries the identifier. *)
Definition absentFrom (id : string) (cats : list Category) : Prop :=
  Forall (fun c => Forall (fun t => ID t <> id) (Tasks c)) cats.

(** The three shapes of an address returned by [findTask]. *)
Inductive located (state : BoardState) (id : string) (t : Task) : taskLocation -> Prop :=
  | located_category ci ti c :
      Categories state !! ci = Some c -> Tasks c !! ti = Some t ->
      absentFrom id (take ci (Categories state)) ->
      Forall (fun t' => ID t' <> id) (take ti (Tasks c)) ->
      located state id t (mkTaskLocation LocationCategory ci ti)
  | located_backburner i :
      absentFrom id (Categories state) ->
      Backburner state !! i = Some t ->
      Forall (fun t' => ID t' <> id) (take i (Backburner state)) ->
      located state id t (mkTaskLocation LocationBackburner 0 i)
  | located_archive i :
      absentFrom id (Categories state) ->
      Forall (fun t' => ID t' <> id) (Backburner state) ->
      Archives state !! i = Some t ->
      Forall (fun t' => ID t' <> id) (take i (Archives state)) ->
      located state id t (mkTaskLocation LocationArchive 0 i).

(** The identifier is carried by a task of a parked category and by no
    task that [findTask] scans. *)
Definition parkedOnly (id : string) (state : BoardState) : Prop :=
  Exists (fun c => Exists (fun t => ID t = id) (Tasks c))
         (CategoryBackburner state ++ CategoryArchives state) /\
  absentFrom id (Categories state) /\
  Forall (fun t => ID t <> id) (Backburner state) /\
  Forall (fun t => ID t <> id) (Archives state).

(** The three outcomes of a successful [removeCategory]. *)
Inductive detached (state : BoardState) (id : string) (c : Category)
  : categoryLocation -> BoardState -> Prop :=
  | detached_board i :
      list_find (fun c => CatID c = id) (Categories state) = Some (i, c) ->
      detached state id c (mkCategoryLocation LocationCategoryBoard i)
               (set_Categories (delete i (Categories state)) state)
  | detached_backburner i :
      Forall (fun c => CatID c <> id) (Categories state) ->
      list_find (fun c => CatID c = id) (CategoryBackburner state) = Some (i, c) ->
      detached state id c (mkCategoryLocation LocationBackburner i)
               (set_CategoryBackburner (delete i (CategoryBackburner state)) state)
  | detached_archive i :
      Forall (fun c => CatID c <> id) (Categories state) ->
      Forall (fun c => CatID c <> id) (CategoryBackburner state) ->
      list_find (fun c => CatID c = id) (CategoryArchives state) = Some (i, c) ->
      detached state id c (mkCategoryLocation LocationArchive i)
               (set_CategoryArchives (delete i (CategoryArchives state)) state).

(** The category identifier is on no active column and on some parked
    category. *)
Definition categoryParkedOnly (id : string) (state : BoardState) : Prop :=
  Forall (fun c => CatID c <> id) (Categories state) /\
  Exists (fun c => CatID c = id) (CategoryBackburner state ++ CategoryArchives state).

(** The urgent identifier [placeTask] normalizes the destination with. *)
Definition urgentIDOf (task : Task) : string :=
  if Urgent task then ID task else "".

(** ** Category names *)

(** Some category other than [id], in any of the three category
    containers, already carries the name. *)
Definition nameTakenByOther (name id : string) (state : BoardState) : Prop :=
  Exists (fun c => CatName c = name /\ CatID c <> id)
         (Categories state ++ CategoryBackburner state ++ CategoryArchives state).

(** Some category, in any of the three category containers, carries the
    name. *)
Definition nameTaken (name : string) (state : BoardState) : Prop :=
  Exists (fun c => CatName c = name)
         (Categories state ++ CategoryBackburner state ++ CategoryArchives state).

(** ** Capacity *)

(** The points a column carries: the sum of its task sizes. *)
Fixpoint sumSizes (tasks : list Task) : Z :=
  match tasks with
  | [] => 0
  | t :: rest => Size t + sumSizes rest
  end.

Definition validSize (t : Task) : Prop := 1 <= Size t <= 5.

Definition withinCapacity (c : Category) : Prop := sumSizes (Tasks c) <= ColumnCapacity.

(** Every active column carries at most [ColumnCapacity] points. *)
Definition capacityKept (state : BoardState) : Prop :=
  Forall withinCapacity (Categories state).

(** Every task of the board, in any of the five containers, has a size
    in 1..5. *)
Definition sizesValid (state : BoardState) : Prop :=
  Forall (fun c => Forall validSize (Tasks c))
         (Categories state ++ CategoryBackburner state ++ CategoryArchives state) /\
  Forall validSize (Backburner state ++ Archives state).

(** Every task of the columns [cats] has a size in 1..5. *)
Definition columnsValid (cats : list Category) : Prop :=
  Forall (fun c => Forall validSize (Tasks c)) cats.

(** ** Focus *)

(** The tasks of a list that carry the focus flag. *)
Definition focusedTasks (tasks : list Task) : list Task :=
  filter (fun t => Focused t = true) tasks.

(** The tasks of the active columns, and the tasks held anywhere else. *)
Definition boardTasks (state : BoardState) : list Task :=
  concat (Tasks <$> Categories state).

Definition offBoardTasks (state : BoardState) : list Task :=
  Backburner state ++ Archives state
  ++ concat (Tasks <$> CategoryBackburner state)
  ++ concat (Tasks <$> CategoryArchives state).

(** ** The operations a claim singles out *)

(** The operation would put one more column on the board: a
    [CreateCategory] whose request is well formed (a name that is not
    blank and not in use), or a [MoveCategory] to the board of a category
    that is parked. *)
Definition addsColumn (TrimSpace : string -> string) (op : Op) (state : BoardState) : Prop :=
  match op with
  | OpCreateCategory _ name =>
    TrimSpace name <> "" /\ ~ nameTaken (TrimSpace name) state
  | OpMoveCategory id dest =>
    MoveCategoryRequest.Location (MoveCategoryRequest.Normalize dest) = LocationCategoryBoard /\
    categoryParkedOnly id state
  | _ => False
  end.

(** The operation would push the points of an active column above
    [ColumnCapacity] and nothing else stands in its way: a well-formed
    [CreateTask] or [MoveTask] into an existing active category whose
    other tasks leave too little room, or a [MoveCategory] to the board,
    with a place free on it, of a category that carries too many
    points. *)
Definition exceedsCapacity (op : Op) (state : BoardState) : Prop :=
  match op with
  | OpCreateTask _ req =>
    let req := CreateTaskRequest.Normalize req in
    CreateTaskRequest.Validate req = None /\
    CreateTaskRequest.Location req = LocationCategory /\
    exists idx,
      findCategoryIndex (Categories state) (CreateTaskRequest.CategoryID req) = Some idx /\
      ColumnCapacity
      < sumSizes (Tasks (Categories state !!! idx)) + Size (CreateTaskRequest.Task req)
  | OpMoveTask id dest =>
    let dest := MoveTaskRequest.Normalize dest in
    MoveTaskRequest.Validate dest = None /\
    MoveTaskRequest.Location dest = LocationCategory /\
    exists task loc idx,
      findTask state id = Ok (task, loc) /\
      findCategoryIndex (Categories state) (MoveTaskRequest.CategoryID dest) = Some idx /\
      ColumnCapacity
      < sumSizes (Tasks (Categories (snd (removeTask state id)) !!! idx)) + Size task
  | OpMoveCategory id dest =>
    MoveCategoryRequest.Location (MoveCategoryRequest.Normalize dest) = LocationCategoryBoard /\
    exists cat loc state',
      removeCategory state id = (Ok (cat, loc), state') /\
      (length (Categories state') < CategoryLimit)%nat /\
      ColumnCapacity < sumSizes (Tasks cat)
  | _ => False
  end.

(** A [MoveCategory] to the board of a category that carries too many
    points, when the board without that category has no place free. *)
Definition overloadedOntoFullBoard (op : Op) (state : BoardState) : Prop :=
  match op with
  | OpMoveCategory id dest =>
    MoveCategoryRequest.Location (MoveCategoryRequest.Normalize dest) = LocationCategoryBoard /\
    exists cat loc state',
      removeCategory state id = (Ok (cat, loc), state') /\
      (CategoryLimit <= length (Categories state'))%nat /\
      ColumnCapacity < sumSizes (Tasks cat)
  | _ => False
  end.

(** * Sample boards and requests

    Concrete inputs on which the statements below are instantiated. *)

(** The ASCII fragment of [strings.TrimSpace]; it instantiates the
    parameter in the closed examples, whose names are plain ASCII. *)
Definition isSpaceASCII (a : Ascii.ascii) : bool :=
  let n := Ascii.N_of_ascii a in
  (N.eqb n 32 || (N.leb 9 n && N.leb n 13))%N.

Fixpoint trimLeftASCII (s : string) : string :=
  match s with
  | String a rest => if isSpaceASCII a then trimLeftASCII rest else s
  | EmptyString => EmptyString
  end.

Fixpoint trimRightASCII (s : string) : string :=
  match s with
  | String a rest =>
    let r := trimRightASCII rest in
    if isSpaceASCII a && String.eqb r "" then EmptyString else String a r
  | EmptyString => EmptyString
  end.

Definition trimSpaceASCII (s : string) : string := trimRightASCII (trimLeftASCII s).

Definition sampleTask (id : string) (size : Z) (urgent focused : bool) : Task :=
  mkTask id id "" "" "todo" size [] [] urgent focused "" "".

(** Two active columns (the second one full), one task in the backburner,
    one in the archive, one parked category. *)
Definition sampleBoard : BoardState :=
  mkBoardState
    [mkCategory "c1" "Alpha" [sampleTask "t1" 3 true false; sampleTask "t2" 2 false false];
     mkCategory "c2" "Beta" [sampleTask "t3" 5 true false]]
    [sampleTask "b1" 1 false false]
    [sampleTask "a1" 1 false false]
    [mkCategory "p1" "Parked" [sampleTask "pt" 2 false false]]
    [].

(** A full board: five active columns and one parked category, as in
    [TestMoveCategoryRespectsLimit]. *)
Definition fullBoard : BoardState :=
  mkBoardState
    [mkCategory "cat1" "Alpha" []; mkCategory "cat2" "Beta" [];
     mkCategory "cat3" "Gamma" []; mkCategory "cat4" "Delta" [];
     mkCategory "cat5" "Epsilon" []]
    [] []
    [mkCategory "cat6" "Zeta" []]
    [].

(** A full board with a parked category that carries six points, as in
    [TestMoveCategoryCapacityCheck] but with a fifth active column. *)
Definition fullBoardOverloaded : BoardState :=
  mkBoardState
    [mkCategory "cat1" "Alpha" []; mkCategory "cat2" "Beta" [];
     mkCategory "cat3" "Gamma" []; mkCategory "cat4" "Delta" [];
     mkCategory "cat5" "Epsilon" []]
    [] []
    [mkCategory "cat6" "Overloaded"
       [sampleTask "task1" 3 false false; sampleTask "task2" 3 false false]]
    [].

(** A board with a single empty column, and the board reached from it by
    two [CreateTask] calls whose tasks carry the same caller-supplied
    identifier. *)
Definition oneColumnBoard : BoardState :=
  mkBoardState [mkCategory "c1" "Alpha" []] [] [] [] [].

Definition firstDup : Task := mkTask "dup" "first" "" "" "todo" 1 [] [] false false "" "".
Definition secondDup : Task := mkTask "dup" "second" "" "" "todo" 2 [] [] false false "" "".

Definition duplicateBoard : BoardState :=
  snd (CreateTask "n2" (CreateTaskRequest.mk LocationCategory "c1" None secondDup)
         (snd (CreateTask "n1" (CreateTaskRequest.mk LocationCategory "c1" None firstDup)
                 oneColumnBoard))).

(** Move a task to the end of the full column [c2] of [sampleBoard]. *)
Definition intoFullColumn : MoveTaskRequest.t :=
  MoveTaskRequest.mk LocationCategory "c2" None "" "".

(** Park a task in the backburner. *)
Definition intoBackburner : MoveTaskRequest.t :=
  MoveTaskRequest.mk LocationBackburner "" None "" "".

(** Move a category to the end of the board. *)
Definition ontoBoard : MoveCategoryRequest.t :=
  MoveCategoryRequest.mk LocationCategoryBoard None.

(** Set the size of a task to 5; rename a task. *)
Definition sizeFivePatch : TaskPatch.t :=
  TaskPatch.mk None None None None (Some 5) None None None.

Definition renamePatch : TaskPatch.t :=
  TaskPatch.mk (Some "renamed") None None None None None None None.

(** Create a task of one point in the full column [c2]. *)
Definition onePointIntoFullColumn : CreateTaskRequest.t :=
  CreateTaskRequest.mk "" "c2" None (sampleTask "t9" 1 false false).

(** * Further vocabulary *)

(** ** Tasks of the whole board *)

(** Every task the board holds, container by container. *)
Definition allTasks (state : BoardState) : list Task :=
  boardTasks state ++ offBoardTasks state.

(** The identifier the task of a [CreateTask] request is stored under:
    the request's own when it has one, the generated one otherwise. *)
Definition createdID (newID : string) (req : CreateTaskRequest.t) : string :=
  if String.eqb (ID (CreateTaskRequest.Task req)) "" then newID
  else ID (CreateTaskRequest.Task req).

(** The address a successful [CreateTask] stores the task at. *)
Definition createdAt (req : CreateTaskRequest.t) (state : BoardState) : taskLocation :=
  let req := CreateTaskRequest.Normalize req in
  if String.eqb (CreateTaskRequest.Location req) LocationCategory then
    match findCategoryIndex (Categories state) (CreateTaskRequest.CategoryID req) with
    | Some idx =>
      mkTaskLocation LocationCategory idx
        (insertIndex (CreateTaskRequest.Position req)
                     (length (Tasks (Categories state !!! idx))))
    | None => mkTaskLocation LocationCategory 0 0
    end
  else if String.eqb (CreateTaskRequest.Location req) LocationBackburner then
    mkTaskLocation LocationBackburner 0 (length (Backburner state))
  else mkTaskLocation LocationArchive 0 (length (Archives state)).

(** The address [placeTask] stores a moved task at, on the board
    [state] the task has been taken from. *)
Definition placedAt (dest : MoveTaskRequest.t) (state : BoardState) : taskLocation :=
  let dest := MoveTaskRequest.Normalize dest in
  if String.eqb (MoveTaskRequest.Location dest) LocationCategory then
    match findCategoryIndex (Categories state) (MoveTaskRequest.CategoryID dest) with
    | Some idx =>
      mkTaskLocation LocationCategory idx
        (insertIndex (MoveTaskRequest.Position dest)
                     (length (Tasks (Categories state !!! idx))))
    | None => mkTaskLocation LocationCategory 0 0
    end
  else if String.eqb (MoveTaskRequest.Location dest) LocationBackburner then
    mkTaskLocation LocationBackburner 0 (length (Backburner state))
  else mkTaskLocation LocationArchive 0 (length (Archives state)).

(** The identifiers [findTask] compares, in its scanning order: those of
    each active column, of [Backburner] and of [Archives]. *)
Definition idSkeleton (state : BoardState) : list (list string) * list string * list string :=
  ((fun c => ID <$> Tasks c) <$> Categories state,
   ID <$> Backburner state,
   ID <$> Archives state).

(** ** What a task says

    A task without its two flags and its recorded source: the fields a
    client edits through [UpdateTask] and the identifier. *)
Definition taskContent (t : Task) : Task :=
  set_Source "" (set_SourceID "" (set_Focused false (set_Urgent false t))).

(** The operations that move or flag tasks and categories but create,
    edit or delete no task. *)
Definition editsNoTask (op : Op) : Prop :=
  match op with
  | OpMoveTask _ _ | OpCreateCategory _ _ | OpRenameCategory _ _
  | OpMoveCategory _ _ | OpSetFocused _ => True
  | OpCreateTask _ _ | OpUpdateTask _ _ | OpDeleteTask _
  | OpReorderCategoryTasks _ _ => False
  end.

(** A task is well formed when its size is in 1..5 and its state is one
    of [allowedStates]. *)
Definition wellFormed (t : Task) : Prop :=
  validSize t /\ State t ∈ allowedStates.

(** The two fields [wellFormed] reads. *)
Definition sizeAndState (t : Task) : Z * string := (Size t, State t).

(** ** Flags *)

(** The tasks of a list that carry the urgent flag. *)
Definition urgentTasks (tasks : list Task) : list Task :=
  filter (fun t => Urgent t = true) tasks.

(** At most one task of the category is urgent. *)
Definition oneUrgent (c : Category) : Prop :=
  (length (urgentTasks (Tasks c)) <= 1)%nat.

(** What a method returns when its closure has succeeded with [a] and
    left the board [state]: [a] once the board is saved, the error of the
    save otherwise. *)
Definition afterSave {A : Type} (saveLocked : BoardState -> option string)
           (a : A) (state : BoardState) : result A :=
  match saveLocked state with
  | Some message => Err (Errorf message)
  | None => Ok a
  end.

(** The segments of a path: [strings.Split(s, "/")]. *)
Fixpoint segments (s : string) : list string :=
  match s with
  | EmptyString => [EmptyString]
  | String c rest =>
    if Ascii.eqb c slash then EmptyString :: segments rest
    else match segments rest with
         | seg :: segs => String c seg :: segs
         | [] => [String c EmptyString]
         end
  end.

(** The identifier makes a path that the multiplexer hands to the
    handler as it is: none of its segments is empty, ["."] or [".."]. *)
Definition routed (id : string) : Prop :=
  Forall (fun seg => seg <> "" /\ seg <> "." /\ seg <> "..") (segments id).

(** The categories of the three category containers. *)
Definition allCategories (state : BoardState) : list Category :=
  Categories state ++ CategoryBackburner state ++ CategoryArchives state.

(** ** Categories *)

(** What identifies a category: its identifier and its name. *)
Definition header (c : Category) : string * string := (CatID c, CatName c).

(** The operations on tasks and on the focus, which name no
    category to change. *)
Definition editsNoCategory (op : Op) : Prop :=
  match op with
  | OpCreateTask _ _ | OpUpdateTask _ _ | OpMoveTask _ _ | OpDeleteTask _
  | OpReorderCategoryTasks _ _ | OpSetFocused _ => True
  | OpCreateCategory _ _ | OpRenameCategory _ _ | OpMoveCategory _ _ => False
  end.

(** ** Sample requests *)

Definition sizeZeroRequest : CreateTaskRequest.t :=
  CreateTaskRequest.mk "" "c2" None
    (mkTask "" "no size" "" "" "todo" 0 [] [] false false "" "").

(** A task for [Backburner] that asks for both flags and for a position. *)
Definition parkedRequest : CreateTaskRequest.t :=
  CreateTaskRequest.mk LocationBackburner "c2" (Some 0)
    (mkTask "" "later" "" "" "todo" 5 [] [] true true "" "").

(** An urgent, focused task of one point for the head of column [c1] of
    [roomyBoard]. *)
Definition headRequest : CreateTaskRequest.t :=
  CreateTaskRequest.mk "" "c1" (Some 0)
    (mkTask "t9" "first" "" "" "doing" 1 [] [] true true "" "").

(** [sampleBoard] with a lighter first column. *)
Definition roomyBoard : BoardState :=
  mkBoardState
    [mkCategory "c1" "Alpha" [sampleTask "t1" 2 true false; sampleTask "t2" 2 false true];
     mkCategory "c2" "Beta" [sampleTask "t3" 5 true false]]
    [sampleTask "b1" 3 false false]
    [sampleTask "a1" 1 false false]
    [mkCategory "p1" "Parked" [sampleTask "pt" 4 true false]]
    [].

(** A board whose backburner holds a task that remembers the column it
    came from. *)
Definition parkedSourceBoard : BoardState :=
  mkBoardState
    [mkCategory "c1" "Alpha" []]
    [mkTask "b1" "b1" "" "" "todo" 1 [] [] false false "c1" "Alpha"]
    [] [] [].

(** Move a task to the head of column [c1]; archive a task. *)
Definition toHeadOfFirst : MoveTaskRequest.t :=
  MoveTaskRequest.mk "" "c1" (Some 0) "" "".

Definition intoArchive : MoveTaskRequest.t :=
  MoveTaskRequest.mk LocationArchive "" None "" "".

(** Identifiers for a seeded board, and a request for its fourth
    column. *)
Definition seedIDs (k : nat) : string :=
  String (Ascii.ascii_of_nat (97 + k)) EmptyString.

Definition seedRequest : CreateTaskRequest.t :=
  CreateTaskRequest.mk "" (seedIDs 12) None
    (mkTask "" "one more" "" "" "todo" 1 [] [] false false "" "").

(** Move a task to the end of column [c2]. *)
Definition toSecond : MoveTaskRequest.t :=
  MoveTaskRequest.mk LocationCategory "c2" None "" "".

(** A category patch that carries an order only, and a request that
    parks a category. *)
Definition headOrder : CategoryPatch.t := CategoryPatch.mk None (Some ["t2"; "t1"]).

Definition parkRequest : MoveCategoryRequest.t :=
  MoveCategoryRequest.mk LocationBackburner None.

(** A disk that takes every write, and a disk that takes none. *)
Definition diskOK : BoardState -> option string := fun _ => None.

Definition diskFull : BoardState -> option string :=
  fun _ => Some "write temp file: no space left on device".

(** * Lemmas *)

(** ** Clones are equal values *)

Lemma Task_Clone_id (t : Task) : Task_Clone t = t.
Proof.
  destruct t as [i n d no st sz ls cl u f si so]; unfold Task_Clone; simpl.
  rewrite !list_fmap_id.
  by destruct (0 <? length ls)%nat, (0 <? length cl)%nat.
Qed.

Lemma Category_Clone_id (c : Category) : Category_Clone c = c.
Proof.
  destruct c as [i n ts]; unfold Category_Clone; simpl.
  assert (Task_Clone <$> ts = ts) as ->.
  { induction ts as [|t ts IH]; [done|]. by rewrite fmap_cons, Task_Clone_id, IH. }
  by destruct (0 <? length ts)%nat.
Qed.

(** ** Slices *)

Section slices.
Context {A : Type}.
Implicit Types (l : list A) (x : A) (i : nat).

Lemma length_insertAt i x l : length (insertAt i x l) = S (length l).
Proof.
  unfold insertAt. rewrite length_app, length_cons, length_take, length_drop. lia.
Qed.

Lemma delete_insertAt i x l : (i <= length l)%nat -> delete i (insertAt i x l) = l.
Proof.
  intros Hi. unfold insertAt.
  assert (i = length (take i l)) as Hlen by (rewrite length_take; lia).
  rewrite Hlen at 1. rewrite delete_middle. apply take_drop.
Qed.

Lemma insertAt_delete i x l : l !! i = Some x -> insertAt i x (delete i l) = l.
Proof.
  intros Hx. pose proof (lookup_lt_Some _ _ _ Hx) as Hlt.
  unfold insertAt. rewrite delete_take_drop.
  rewrite take_app_length' by (rewrite length_take; lia).
  rewrite drop_app_length' by (rewrite length_take; lia).
  by apply take_drop_middle.
Qed.

Lemma lookup_insertAt i x l : (i <= length l)%nat -> insertAt i x l !! i = Some x.
Proof.
  intros Hi. unfold insertAt.
  rewrite lookup_app_r by (rewrite length_take; lia).
  rewrite length_take. by replace (i - i `min` length l)%nat with 0%nat by lia.
Qed.

Lemma insertAt_end x l : insertAt (length l) x l = l ++ [x].
Proof. unfold insertAt. by rewrite firstn_all, drop_all. Qed.

Lemma restore_index_insertAt i x l :
  (i <= length l)%nat ->
  (if (length l <=? i)%nat then l ++ [x] else insertAt i x l) = insertAt i x l.
Proof.
  intros Hi. destruct (length l <=? i)%nat eqn:E; [|done].
  apply Nat.leb_le in E. assert (i = length l) as -> by lia.
  by rewrite insertAt_end.
Qed.

Lemma append_insertAt i x l :
(i <= length l)%nat -> (length l <=? i)%nat = true -> l ++ [x] = insertAt i x l.
Proof.
intros Hi E. apply Nat.leb_le in E. assert (i = length l) as -> by lia.
by rewrite insertAt_end.
Qed.

Lemma insertIndex_le pos (len : nat) : (insertIndex pos len <= len)%nat.
Proof.
  unfold insertIndex. destruct pos as [p|]; [|done].
  destruct ((0 <=? p) && (p <=? Z.of_nat len)) eqn:E; [|done].
  apply andb_true_iff in E as [E1 E2]. lia.
Qed.
End slices.

(** ** Find *)

Lemma findCategoryIndex_Some cats id i :
  findCategoryIndex cats id = Some i ->
  exists c, cats !! i = Some c /\ CatID c = id /\
            forall j c', cats !! j = Some c' -> (j < i)%nat -> CatID c' <> id.
Proof.
  unfold findCategoryIndex. intros H.
  destruct (list_find _ cats) as [[i' c]|] eqn:E; simplify_eq/=.
  apply list_find_Some in E as (? & ? & ?). eauto.
Qed.

Lemma findCategoryIndex_None cats id :
  findCategoryIndex cats id = None <-> Forall (fun c => CatID c <> id) cats.
Proof.
  unfold findCategoryIndex. rewrite fmap_None. apply list_find_None.
Qed.

Lemma findCategoryIndex_lookup_total cats id i :
  findCategoryIndex cats id = Some i -> cats !! i = Some (cats !!! i).
Proof.
  intros (c & Hc & _)%findCategoryIndex_Some.
  by rewrite (list_lookup_total_correct _ _ _ Hc).
Qed.

Lemma findInCategories_None cats k id :
  findInCategories cats k id = None <-> absentFrom id cats.
Proof.
  unfold absentFrom. revert k. induction cats as [|c cats IH]; intros k; simpl.
  - split; [constructor|done].
  - destruct (list_find _ (Tasks c)) as [[ti t]|] eqn:E.
    + split; [done|]. intros [Hc _]%Forall_cons.
      apply list_find_Some in E as (Ht & Hid & _).
      rewrite Forall_forall in Hc. destruct (Hc t); [|done].
      by eapply list_elem_of_lookup_2.
    + apply list_find_None in E. rewrite IH, Forall_cons. tauto.
Qed.

Lemma findInCategories_Some cats k id t loc :
  findInCategories cats k id = Some (t, loc) ->
  exists ci ti c,
    loc = mkTaskLocation LocationCategory (k + ci) ti /\
    cats !! ci = Some c /\ Tasks c !! ti = Some t /\ ID t = id /\
    absentFrom id (take ci cats) /\
    Forall (fun t' => ID t' <> id) (take ti (Tasks c)).
Proof.
  revert k. induction cats as [|c cats IH]; intros k; simpl; [done|].
  destruct (list_find _ (Tasks c)) as [[ti t']|] eqn:E.
  - intros [= <- <-]. apply list_find_Some in E as (Ht & Hid & Hfirst).
    exists 0%nat, ti, c. rewrite Nat.add_0_r. repeat split; try done.
    + constructor.
    + apply Forall_forall. intros t'' [j Hj]%list_elem_of_lookup_1.
      apply lookup_take_Some in Hj as [Hj Hlt]. by eapply Hfirst.
  - intros (ci & ti & c' & -> & Hc & Ht & Hid & Habs & Hpre)%IH.
    exists (S ci), ti, c'. rewrite Nat.add_succ_r. repeat split; try done.
    simpl. constructor; [by apply list_find_None in E|done].
Qed.

Lemma list_find_ID_Some (ts : list Task) id i t :
  list_find (fun t => ID t = id) ts = Some (i, t) <->
  ts !! i = Some t /\ ID t = id /\ Forall (fun t' => ID t' <> id) (take i ts).
Proof.
  rewrite list_find_Some. split.
  - intros (Ht & Hid & Hfirst). repeat split; try done.
    apply Forall_forall. intros t' [j Hj]%list_elem_of_lookup_1.
    apply lookup_take_Some in Hj as [Hj Hlt]. by eapply Hfirst.
  - intros (Ht & Hid & Hpre). repeat split; try done.
    intros j y Hj Hlt. rewrite Forall_forall in Hpre. apply Hpre.
    eapply list_elem_of_lookup_2. apply lookup_take_Some. eauto.
Qed.

Lemma list_find_ID_None (ts : list Task) id :
  list_find (fun t => ID t = id) ts = None <-> Forall (fun t' => ID t' <> id) ts.
Proof. apply list_find_None. Qed.

Lemma findTask_Ok state id t loc :
  findTask state id = Ok (t, loc) <-> ID t = id /\ located state id t loc.
Proof.
  unfold findTask. split.
  - destruct (findInCategories _ 0 id) as [[t' loc']|] eqn:E.
    + intros [= -> ->].
      apply findInCategories_Some in E as (ci & ti & c & -> & ? & ? & ? & ? & ?).
      split; [done|]. by econstructor.
    + apply findInCategories_None in E.
      destruct (list_find _ (Backburner state)) as [[i t']|] eqn:Eb.
      * intros [= -> <-]. apply list_find_ID_Some in Eb as (? & ? & ?).
        split; [done|]. by constructor.
      * apply list_find_None in Eb.
        destruct (list_find _ (Archives state)) as [[i t']|] eqn:Ea; [|done].
        intros [= -> <-]. apply list_find_ID_Some in Ea as (? & ? & ?).
        split; [done|]. by constructor.
  - intros [Hid Hloc]. destruct Hloc as [ci ti c Hc Ht Habs Hpre|i Habs Ht Hpre|i Habs Hbb Ht Hpre].
    + destruct (findInCategories _ 0 id) as [[t' loc']|] eqn:E.
      * apply findInCategories_Some in E as (ci' & ti' & c' & -> & Hc' & Ht' & Hid' & Habs' & Hpre').
        simpl. destruct (lt_eq_lt_dec ci ci') as [[Hlt| ->]|Hlt].
        -- exfalso. unfold absentFrom in Habs'. rewrite Forall_forall in Habs'.
           assert (c ∈ take ci' (Categories state)) as Hin.
           { eapply list_elem_of_lookup_2. apply lookup_take_Some. eauto. }
           apply Habs' in Hin. rewrite Forall_forall in Hin.
           by destruct (Hin t); [eapply list_elem_of_lookup_2|].
        -- simplify_eq. destruct (lt_eq_lt_dec ti ti') as [[Hlt| ->]|Hlt].
           ++ exfalso. rewrite Forall_forall in Hpre'. destruct (Hpre' t); [|done].
              eapply list_elem_of_lookup_2. apply lookup_take_Some. eauto.
           ++ by simplify_eq.
           ++ exfalso. rewrite Forall_forall in Hpre. destruct (Hpre t'); [|done].
              eapply list_elem_of_lookup_2. apply lookup_take_Some. eauto.
        -- exfalso. unfold absentFrom in Habs. rewrite Forall_forall in Habs.
           assert (c' ∈ take ci (Categories state)) as Hin.
           { eapply list_elem_of_lookup_2. apply lookup_take_Some. eauto. }
           apply Habs in Hin. rewrite Forall_forall in Hin.
           by destruct (Hin t'); [eapply list_elem_of_lookup_2|].
      * exfalso. apply findInCategories_None in E.
        unfold absentFrom in E. rewrite Forall_forall in E.
        assert (c ∈ Categories state) as Hin by (by eapply list_elem_of_lookup_2).
        apply E in Hin. rewrite Forall_forall in Hin.
        by destruct (Hin t); [eapply list_elem_of_lookup_2|].
    + apply (findInCategories_None _ 0%nat) in Habs. rewrite Habs.
      assert (list_find (fun t => ID t = id) (Backburner state) = Some (i, t)) as ->; [|done].
      by apply list_find_ID_Some.
    + apply (findInCategories_None _ 0%nat) in Habs. rewrite Habs.
      assert (list_find (fun t => ID t = id) (Backburner state) = None) as ->.
      { by apply list_find_ID_None. }
      assert (list_find (fun t => ID t = id) (Archives state) = Some (i, t)) as ->; [|done].
      by apply list_find_ID_Some.
Qed.

Lemma findTask_Err state id e :
  findTask state id = Err e <->
  e = Sentinel ErrTaskNotFound /\ absentFrom id (Categories state) /\
  Forall (fun t => ID t <> id) (Backburner state) /\
  Forall (fun t => ID t <> id) (Archives state).
Proof.
  unfold findTask.
  destruct (findInCategories _ 0 id) as [[t' loc']|] eqn:E.
  - split; [done|]. intros (_ & Habs & _).
    apply (findInCategories_None _ 0%nat) in Habs. congruence.
  - apply findInCategories_None in E.
    destruct (list_find _ (Backburner state)) as [[i t']|] eqn:Eb.
    + split; [done|]. intros (_ & _ & Hbb%list_find_ID_None & _). congruence.
    + apply list_find_None in Eb.
      destruct (list_find _ (Archives state)) as [[i t']|] eqn:Ea.
      * split; [done|]. intros (_ & _ & _ & Ha%list_find_ID_None). congruence.
      * apply list_find_None in Ea. split; [by intros [= <-]|by intros (-> & _)].
Qed.

Lemma located_taskAt state id t loc : located state id t loc -> taskAt state loc = Some t.
Proof.
  intros [ci ti c Hc Ht _ _|i _ Ht _|i _ _ Ht _]; unfold taskAt; simpl; [|done..].
  by rewrite Hc.
Qed.

Section slices_more.
Context {A : Type}.
Implicit Types (l : list A) (x : A) (i : nat).

Lemma insertAt_delete_insert i x l :
  (i < length l)%nat -> insertAt i x (delete i l) = <[i := x]> l.
Proof.
  intros Hi. unfold insertAt. rewrite delete_take_drop.
  rewrite take_app_length' by (rewrite length_take; lia).
  rewrite drop_app_length' by (rewrite length_take; lia).
  by rewrite insert_take_drop.
Qed.
End slices_more.

(** ** Capacity check *)

Lemma ensureCapacity_loop_error total ts e :
  ensureCapacity_loop total ts = Some e -> e = Sentinel ErrCapacityExceeded.
Proof.
  revert total. induction ts as [|t ts IH]; intros total; simpl; [done|].
  destruct (ColumnCapacity <? _); [by intros [= <-]|apply IH].
Qed.

Lemma ensureCapacity_error cat e :
  ensureCapacity cat = Some e -> e = Sentinel ErrCapacityExceeded.
Proof. apply ensureCapacity_loop_error. Qed.

(** ** Record extensionality helpers *)

Lemma set_Tasks_Tasks c : set_Tasks (Tasks c) c = c.
Proof. by destruct c. Qed.

Lemma set_Tasks_set_Tasks v w c : set_Tasks v (set_Tasks w c) = set_Tasks v c.
Proof. done. Qed.

Lemma Tasks_set_Tasks v c : Tasks (set_Tasks v c) = v.
Proof. done. Qed.

Lemma set_Categories_Categories s : set_Categories (Categories s) s = s.
Proof. by destruct s. Qed.

Lemma restore_category_insertAt (i : nat) (x : Task) (ts : list Task) (c : Category) :
  (i <= length ts)%nat ->
  (if (length ts <=? i)%nat then set_Tasks (ts ++ [x]) c
   else set_Tasks (insertAt i x ts) c) = set_Tasks (insertAt i x ts) c.
Proof.
  intros Hi. destruct (length ts <=? i)%nat eqn:E; [|done].
  apply Nat.leb_le in E. assert (i = length ts) as -> by lia.
  by rewrite insertAt_end.
Qed.

(** ** A failed [placeTask] *)

Lemma placeTask_error task dest state e state' :
  placeTask task dest state = (Some e, state') ->
  (e <> Sentinel ErrCapacityExceeded /\ state' = state) \/
  (e = Sentinel ErrCapacityExceeded /\
   exists idx,
     findCategoryIndex (Categories state)
       (MoveTaskRequest.CategoryID (MoveTaskRequest.Normalize dest)) = Some idx /\
     state' = normalizeUrgent state idx (urgentIDOf task)).
Proof.
  unfold placeTask.
  destruct (MoveTaskRequest.Validate _) as [e'|] eqn:EV.
  { intros [= <- <-]. left. split; [|done].
    unfold MoveTaskRequest.Validate in EV.
    repeat case_match; by simplify_eq. }
  destruct (String.eqb _ LocationCategory).
  - destruct (findCategoryIndex _ _) as [idx|] eqn:Eidx.
    2:{ intros [= <- <-]. by left. }
    set (st := if Urgent _ then _ else _).
    assert (st = normalizeUrgent state idx (urgentIDOf task)) as Hst.
    { unfold st, urgentIDOf. simpl. by destruct (Urgent task). }
    apply findCategoryIndex_Some in Eidx as (c & Hc & _).
    assert (Categories st !! idx = Some (Categories st !!! idx)) as Hlk.
    { apply list_lookup_lookup_total_lt. rewrite Hst. unfold normalizeUrgent; simpl.
      rewrite length_alter. by eapply lookup_lt_Some. }
    assert (length (Tasks (Categories st !!! idx))
            = length (Tasks (Categories state !!! idx))) as Hlen.
    { rewrite (list_lookup_total_correct _ _ _ Hc).
      rewrite Hst. unfold normalizeUrgent; simpl.
      erewrite list_lookup_total_correct;
        [|by rewrite list_lookup_alter_eq, Hc]. simpl.
      by rewrite length_fmap. }
    clearbody st.
    destruct (ensureCapacity _) as [e'|] eqn:EC; [|done].
    intros [= <- <-]. right. split; [by eapply ensureCapacity_error|].
    exists idx. split; [done|]. rewrite <- Hst.
    rewrite ?set_Tasks_set_Tasks, ?Tasks_set_Tasks.
    rewrite delete_insertAt by (rewrite Hlen; apply insertIndex_le).
    rewrite set_Tasks_Tasks.
    by rewrite list_insert_id, set_Categories_Categories.
  - repeat case_match; intros; simplify_eq. by left.
Qed.

(** ** Detaching a task and putting it back *)

Lemma removeTask_Err state id :
  (exists e, findTask state id = Err e) ->
  removeTask state id = (Err (Sentinel ErrTaskNotFound), state).
Proof. intros [e He]. unfold removeTask. by rewrite He. Qed.

Lemma removeTask_Ok state id t loc :
  findTask state id = Ok (t, loc) ->
  exists state', removeTask state id = (Ok (t, loc), state').
Proof. intros H. unfold removeTask. rewrite H, Task_Clone_id. eauto. Qed.

(** Detaching the task found for [id], normalizing the urgent flags of
    category [idx] and re-attaching the task at its address leaves the
    board as it was up to that normalization: the task is back at its
    address with its own fields. *)
Lemma restoreTask_normalizeUrgent_removeTask state id t loc idx u :
  findTask state id = Ok (t, loc) ->
  restoreTask (normalizeUrgent (snd (removeTask state id)) idx u) t loc
  = setTaskAt loc t (normalizeUrgent state idx u).
Proof.
  intros Hfind. unfold removeTask. rewrite Hfind.
  apply findTask_Ok in Hfind as [_ Hloc].
  destruct Hloc as [ci ti c Hc Ht _ _|i _ Ht _|i _ _ Ht _];
    unfold restoreTask, setTaskAt, normalizeUrgent; simpl.
  - destruct state as [cats bb ar cb ca]; simpl in *.
    unfold set_Categories; simpl. f_equal.
    pose proof (lookup_lt_Some _ _ _ Ht) as Hti.
    apply list_eq. intros j.
    destruct (decide (j = ci)) as [->|Hj].
    + rewrite !list_lookup_alter_eq.
      destruct (decide (idx = ci)) as [->|Hidx].
      * rewrite !list_lookup_alter_eq, Hc. simpl. f_equal.
        rewrite restore_category_insertAt
          by (rewrite length_fmap, length_delete by eauto; lia).
        rewrite !set_Tasks_set_Tasks, list_fmap_delete.
        by rewrite insertAt_delete_insert by (by rewrite length_fmap).
      * rewrite (list_lookup_alter_ne _ _ idx ci) by done.
        rewrite list_lookup_alter_eq.
        rewrite (list_lookup_alter_ne _ _ idx ci) by done.
        rewrite Hc. simpl. f_equal.
        rewrite restore_category_insertAt by (rewrite length_delete by eauto; lia).
        rewrite !set_Tasks_set_Tasks.
        by rewrite insertAt_delete_insert.
    + rewrite !(list_lookup_alter_ne _ _ ci j) by done.
      rewrite !list_lookup_alter.
      repeat case_decide; by simplify_eq.
  - destruct state as [cats bb ar cb ca]; simpl in *.
    unfold set_Backburner, set_Categories; simpl. f_equal.
    rewrite insertAt_delete_insert; [done|]. by eapply lookup_lt_Some.
  - destruct state as [cats bb ar cb ca]; simpl in *.
    unfold set_Archives, set_Categories; simpl. f_equal.
    rewrite insertAt_delete_insert; [done|]. by eapply lookup_lt_Some.
Qed.

(** What a [MoveTask] that fails the capacity check leaves in memory. *)
Lemma MoveTask_capacity_error_state id dest state state' :
  MoveTask id dest state = (Err (Sentinel ErrCapacityExceeded), state') ->
  exists t loc idx,
    findTask state id = Ok (t, loc) /\
    state' = setTaskAt loc t (normalizeUrgent state idx (urgentIDOf t)).
Proof.
  unfold MoveTask. intros H.
  destruct (findTask state id) as [[t loc]|e] eqn:Hfind.
  2:{ rewrite removeTask_Err in H by eauto. done. }
  pose proof (restoreTask_normalizeUrgent_removeTask state id t loc) as Hrestore.
  destruct (removeTask_Ok _ _ _ _ Hfind) as [st Hst].
  rewrite Hst in H, Hrestore. simpl in Hrestore.
  match type of H with
  | context [placeTask t ?d st] => destruct (placeTask t d st) as [[e|] st'] eqn:Hplace
  end; [|done].
  injection H as -> <-.
  apply placeTask_error in Hplace as [[? _]|[_ (idx & _ & ->)]]; [done|].
  exists t, loc, idx. split; [done|]. by apply Hrestore.
Qed.

(** ** The address of a task survives urgent normalization *)

Lemma absentFrom_take_alter id (f : Category -> Category) n i cats :
  (forall c, Forall (fun t => ID t <> id) (Tasks c) ->
             Forall (fun t => ID t <> id) (Tasks (f c))) ->
  absentFrom id (take n cats) -> absentFrom id (take n (alter f i cats)).
Proof.
  intros Hf. unfold absentFrom. rewrite !Forall_lookup. intros H j c Hj.
  apply lookup_take_Some in Hj as [Hj Hlt].
  rewrite list_lookup_alter in Hj. case_decide; subst.
  - apply fmap_Some in Hj as (c' & Hc' & ->). apply Hf.
    eapply H, lookup_take_Some; eauto.
  - eapply H, lookup_take_Some; eauto.
Qed.

Lemma absentFrom_alter id (f : Category -> Category) i cats :
  (forall c, Forall (fun t => ID t <> id) (Tasks c) ->
             Forall (fun t => ID t <> id) (Tasks (f c))) ->
  absentFrom id cats -> absentFrom id (alter f i cats).
Proof.
  intros Hf H. rewrite <- (firstn_all (alter f i cats)), length_alter.
  apply absentFrom_take_alter; [done|]. by rewrite firstn_all.
Qed.

Lemma Forall_ID_set_Urgent id (g : Task -> bool) ts :
  Forall (fun t => ID t <> id) ts ->
  Forall (fun t => ID t <> id) ((fun t => set_Urgent (g t) t) <$> ts).
Proof. intros H. apply Forall_fmap. by eapply Forall_impl. Qed.

Lemma located_normalizeUrgent_setTaskAt state id t loc idx u :
  ID t = id ->
  located state id t loc ->
  located (setTaskAt loc t (normalizeUrgent state idx u)) id t loc.
Proof.
  intros Hid Hloc.
  assert (forall c, Forall (fun t => ID t <> id) (Tasks c) ->
            Forall (fun t => ID t <> id)
              (Tasks (set_Tasks ((fun t => set_Urgent (String.eqb (ID t) u) t) <$> Tasks c) c)))
    as HG by (intros c; apply Forall_ID_set_Urgent).
  destruct Hloc as [ci ti c Hc Ht Habs Hpre|i Habs Ht Hpre|i Habs Hbb Ht Hpre];
    unfold setTaskAt, normalizeUrgent; simpl.
  - pose proof (lookup_lt_Some _ _ _ Ht) as Hti.
    destruct (decide (idx = ci)) as [->|Hne].
    + eapply (located_category _ _ _ ci ti); simpl.
      * by rewrite !list_lookup_alter_eq, Hc.
      * simpl. apply list_lookup_insert_eq. by rewrite length_fmap.
      * rewrite !take_alter_ge by done. done.
      * simpl. rewrite take_insert_ge by done.
        rewrite <- fmap_take. by apply Forall_ID_set_Urgent.
    + eapply (located_category _ _ _ ci ti); simpl.
      * by rewrite list_lookup_alter_eq, list_lookup_alter_ne, Hc.
      * simpl. by apply list_lookup_insert_eq.
      * rewrite take_alter_ge by done. by apply absentFrom_take_alter.
      * simpl. by rewrite take_insert_ge.
  - apply located_backburner; simpl.
    + by apply absentFrom_alter.
    + apply list_lookup_insert_eq. by eapply lookup_lt_Some.
    + by rewrite take_insert_ge.
  - apply located_archive; simpl.
    + by apply absentFrom_alter.
    + done.
    + apply list_lookup_insert_eq. by eapply lookup_lt_Some.
    + by rewrite take_insert_ge.
Qed.


(** ** The number of active columns *)

Lemma length_Categories_normalizeUrgent state idx u :
  length (Categories (normalizeUrgent state idx u)) = length (Categories state).
Proof. unfold normalizeUrgent; simpl. apply length_alter. Qed.

Lemma length_Categories_normalizeFocus state id :
  length (Categories (normalizeFocus state id)) = length (Categories state).
Proof. unfold normalizeFocus; simpl. apply length_fmap. Qed.

Lemma length_Categories_clearFocus state :
  length (Categories (clearFocus state)) = length (Categories state).
Proof. unfold clearFocus; simpl. apply length_fmap. Qed.

Lemma length_Categories_setTaskAt loc task state :
  length (Categories (setTaskAt loc task state)) = length (Categories state).
Proof. unfold setTaskAt. repeat case_match; simpl; by rewrite ?length_alter. Qed.

Lemma length_Categories_restoreTask state task loc :
  length (Categories (restoreTask state task loc)) = length (Categories state).
Proof. unfold restoreTask. repeat case_match; simpl; by rewrite ?length_alter. Qed.

Lemma length_Categories_removeTask state id :
  length (Categories (snd (removeTask state id))) = length (Categories state).
Proof.
  unfold removeTask. destruct (findTask state id) as [[t loc]|e]; [|done].
  repeat case_match; simpl; by rewrite ?length_alter.
Qed.

Lemma length_Categories_placeTask task dest state :
  length (Categories (snd (placeTask task dest state))) = length (Categories state).
Proof.
  unfold placeTask.
  repeat case_match; simpl;
    rewrite ?length_insert, ?length_Categories_normalizeUrgent, ?length_alter; done.
Qed.

Lemma length_Categories_insertTask newID req state :
  length (Categories (snd (insertTask newID req state))) = length (Categories state).
Proof.
  unfold insertTask.
  repeat case_match; simpl;
    rewrite ?length_Categories_normalizeFocus, ?length_Categories_normalizeUrgent,
      ?length_fmap, ?length_alter; simpl;
    rewrite ?length_insert; done.
Qed.

Create Rewrite HintDb board_len.
#[export] Hint Rewrite length_Categories_normalizeUrgent length_Categories_normalizeFocus
  length_Categories_clearFocus length_Categories_setTaskAt length_Categories_restoreTask
  length_Categories_removeTask length_Categories_placeTask length_Categories_insertTask
  : board_len.

Lemma length_Categories_CreateTask newID req state :
  length (Categories (snd (CreateTask newID req state))) = length (Categories state).
Proof.
  unfold CreateTask. case_match; [done|]. by autorewrite with board_len.
Qed.

Lemma length_Categories_UpdateTask id patch state :
  length (Categories (snd (UpdateTask id patch state))) = length (Categories state).
Proof.
  unfold UpdateTask. destruct (findTask state id) as [[t loc]|e]; [|done].
  destruct (TaskPatch.Apply patch t) as [err t'].
  repeat case_match; simpl; autorewrite with board_len;
    by rewrite ?length_alter, ?length_Categories_setTaskAt.
Qed.

Lemma length_Categories_MoveTask id dest state :
  length (Categories (snd (MoveTask id dest state))) = length (Categories state).
Proof.
  unfold MoveTask.
  pose proof (length_Categories_removeTask state id) as Hrm.
  destruct (removeTask state id) as [[[t loc]|e] st]; simpl in Hrm; [|done].
  match goal with
  | |- context [placeTask t ?d st] =>
    pose proof (length_Categories_placeTask t d st) as Hpl;
      destruct (placeTask t d st) as [[e|] st']; simpl in *
  end; autorewrite with board_len; congruence.
Qed.

Lemma length_Categories_DeleteTask id state :
  length (Categories (snd (DeleteTask id state))) = length (Categories state).
Proof.
  unfold DeleteTask. destruct (findTask state id) as [[t loc]|e]; [|done].
  case_match; [done|].
  pose proof (length_Categories_removeTask state id) as Hrm.
  by destruct (removeTask state id) as [[?|?] ?].
Qed.

Lemma length_Categories_ReorderCategoryTasks id order state :
  length (Categories (snd (ReorderCategoryTasks id order state))) = length (Categories state).
Proof.
  unfold ReorderCategoryTasks. repeat case_match; simpl; by rewrite ?length_insert.
Qed.

Lemma length_Categories_SetFocused id state :
  length (Categories (snd (SetFocused id state))) = length (Categories state).
Proof.
  unfold SetFocused. repeat case_match; simpl; autorewrite with board_len;
    by rewrite ?length_fmap.
Qed.

(** ** Detaching a category and putting it back *)

Lemma list_find_CatID_None (cats : list Category) id :
  list_find (fun c => CatID c = id) cats = None <-> Forall (fun c => CatID c <> id) cats.
Proof. apply list_find_None. Qed.

Lemma removeCategory_Ok state id c loc state' :
  removeCategory state id = (Ok (c, loc), state') <-> detached state id c loc state'.
Proof.
  unfold removeCategory. split.
  - destruct (list_find _ (Categories state)) as [[i c']|] eqn:E1.
    { rewrite Category_Clone_id. intros [= <- <- <-]. by constructor. }
    apply list_find_CatID_None in E1.
    destruct (list_find _ (CategoryBackburner state)) as [[i c']|] eqn:E2.
    { rewrite Category_Clone_id. intros [= <- <- <-]. by constructor. }
    apply list_find_CatID_None in E2.
    destruct (list_find _ (CategoryArchives state)) as [[i c']|] eqn:E3; [|done].
    rewrite Category_Clone_id. intros [= <- <- <-]. by constructor.
  - intros [i H|i H1 H|i H1 H2 H].
    + by rewrite H, Category_Clone_id.
    + apply list_find_CatID_None in H1. by rewrite H1, H, Category_Clone_id.
    + apply list_find_CatID_None in H1, H2. by rewrite H1, H2, H, Category_Clone_id.
Qed.

Lemma removeCategory_Err state id e state' :
  removeCategory state id = (Err e, state') <->
  e = Sentinel ErrCategoryNotFound /\ state' = state /\
  Forall (fun c => CatID c <> id)
         (Categories state ++ CategoryBackburner state ++ CategoryArchives state).
Proof.
  unfold removeCategory. rewrite !Forall_app, <- !list_find_CatID_None.
  destruct (list_find _ (Categories state)) as [[i c']|].
  { split; [done|]. by intros (_ & _ & ? & _). }
  destruct (list_find _ (CategoryBackburner state)) as [[i c']|].
  { split; [done|]. by intros (_ & _ & _ & ? & _). }
  destruct (list_find _ (CategoryArchives state)) as [[i c']|].
  { split; [done|]. by intros (_ & _ & _ & _ & ?). }
  split; [by intros [= <- <-]|by intros (-> & -> & _)].
Qed.

Lemma restoreCategory_detached state id c loc state' :
  detached state id c loc state' -> restoreCategory state' c loc = state.
Proof.
  intros [i H|i _ H|i _ _ H]; apply list_find_Some in H as (Hc & _);
    pose proof (lookup_lt_Some _ _ _ Hc) as Hlt;
    unfold restoreCategory; simpl; destruct state as [cats bb ar cb ca]; simpl in *.
  - assert (i <= length (delete i cats))%nat as Hi
      by (rewrite length_delete by eauto; lia).
    destruct (length (delete i cats) <=? i)%nat eqn:E;
      unfold set_Categories; simpl;
      rewrite ?(append_insertAt i c _ Hi E); by rewrite insertAt_delete.
  - unfold set_CategoryBackburner; simpl. by rewrite insertAt_delete.
  - unfold set_CategoryArchives; simpl. by rewrite insertAt_delete.
Qed.

(** ** Sizes and sums *)

Lemma int_add_small a b :
  - 2 ^ 63 <= a + b < 2 ^ 63 -> int_add a b = a + b.
Proof. intros H. unfold int_add. rewrite Z.mod_small; lia. Qed.

Lemma sumSizes_app l1 l2 : sumSizes (l1 ++ l2) = sumSizes l1 + sumSizes l2.
Proof. induction l1 as [|t l1 IH]; simpl; lia. Qed.

Lemma sumSizes_nonneg ts : Forall (fun t => 0 <= Size t) ts -> 0 <= sumSizes ts.
Proof. induction 1; simpl; lia. Qed.

Lemma validSize_nonneg ts : Forall validSize ts -> Forall (fun t => 0 <= Size t) ts.
Proof. intros H. eapply Forall_impl; [exact H|]. unfold validSize. intros; lia. Qed.

Lemma sumSizes_take_drop i ts : sumSizes (take i ts) + sumSizes (drop i ts) = sumSizes ts.
Proof. by rewrite <- sumSizes_app, take_drop. Qed.

Lemma sumSizes_insertAt i t ts : sumSizes (insertAt i t ts) = Size t + sumSizes ts.
Proof.
  unfold insertAt. rewrite sumSizes_app. simpl.
  pose proof (sumSizes_take_drop i ts). lia.
Qed.

Lemma sumSizes_delete i t ts :
  ts !! i = Some t -> sumSizes (delete i ts) = sumSizes ts - Size t.
Proof.
  intros Ht. rewrite <- (take_drop_middle ts i t Ht) at 2.
  rewrite delete_take_drop, !sumSizes_app. simpl. lia.
Qed.

Lemma sumSizes_insert i t' ts :
  sumSizes (<[i := t']> ts)
  = match ts !! i with
    | Some t => sumSizes ts - Size t + Size t'
    | None => sumSizes ts
    end.
Proof.
  destruct (ts !! i) as [t|] eqn:Ht.
  - rewrite insert_take_drop by (by eapply lookup_lt_Some).
    rewrite <- (take_drop_middle ts i t Ht) at 3.
    rewrite !sumSizes_app. simpl. lia.
  - rewrite list_insert_ge; [done|]. by apply lookup_ge_None.
Qed.

Lemma sumSizes_fmap (f : Task -> Task) ts :
  (forall t, Size (f t) = Size t) -> sumSizes (f <$> ts) = sumSizes ts.
Proof.
  intros Hf. induction ts as [|t ts IH]; [done|].
  rewrite fmap_cons. simpl. by rewrite Hf, IH.
Qed.

Lemma Forall_validSize_fmap (f : Task -> Task) ts :
  (forall t, Size (f t) = Size t) -> Forall validSize ts -> Forall validSize (f <$> ts).
Proof.
  intros Hf H. apply Forall_fmap. eapply Forall_impl; [exact H|].
  intros t. unfold validSize; simpl. by rewrite Hf.
Qed.

Lemma Forall_insertAt {A : Type} (P : A -> Prop) i x l :
  P x -> Forall P l -> Forall P (insertAt i x l).
Proof.
  intros Hx Hl. unfold insertAt. apply Forall_app. split.
  - by apply Forall_take.
  - constructor; [done|]. by apply Forall_drop.
Qed.

(** ** The capacity check *)

(** On tasks of valid size the running total never wraps, and the check
    passes exactly when the whole sum is within capacity. *)
Lemma ensureCapacity_loop_None total ts :
  Forall validSize ts -> 0 <= total <= ColumnCapacity ->
  ensureCapacity_loop total ts = None <-> total + sumSizes ts <= ColumnCapacity.
Proof.
  unfold ColumnCapacity. intros Hvalid. revert total.
  induction Hvalid as [|t ts Ht Hts IH]; intros total Htotal; simpl.
  - split; [lia|done].
  - unfold validSize in Ht.
    pose proof (sumSizes_nonneg ts (validSize_nonneg ts Hts)) as Hnn.
    rewrite int_add_small by lia. unfold ColumnCapacity.
    destruct (5 <? total + Size t) eqn:E.
    + apply Z.ltb_lt in E. split; [done|lia].
    + apply Z.ltb_ge in E. rewrite IH by lia. lia.
Qed.

Lemma ensureCapacity_None cat :
  Forall validSize (Tasks cat) -> ensureCapacity cat = None <-> withinCapacity cat.
Proof.
  intros H. unfold ensureCapacity, withinCapacity.
  rewrite ensureCapacity_loop_None by (done || (unfold ColumnCapacity; lia)). lia.
Qed.

Lemma ensureCapacity_exceeded cat :
  Forall validSize (Tasks cat) -> ~ withinCapacity cat ->
  ensureCapacity cat = Some (Sentinel ErrCapacityExceeded).
Proof.
  intros Hvalid Hover. destruct (ensureCapacity cat) as [e|] eqn:E.
  - by rewrite (ensureCapacity_error _ _ E).
  - by apply ensureCapacity_None in E.
Qed.

(** ** Validation outcomes *)

Lemma NormalizeSize_Ok size size' : NormalizeSize size = Ok size' -> size' = size /\ 1 <= size <= 5.
Proof.
  unfold NormalizeSize. destruct ((size <? 1) || (5 <? size)) eqn:E; [done|].
  intros [= <-]. apply orb_false_iff in E as [E1 E2]. lia.
Qed.

Lemma TaskPatch_Apply_None patch task task' :
  TaskPatch.Apply patch task = (None, task') ->
  ID task' = ID task /\ Focused task' = Focused task /\
  (validSize task -> validSize task').
Proof.
  unfold TaskPatch.Apply, validSize.
  destruct patch as [n d no st sz ls cl u]; simpl.
  destruct st as [st|]; [destruct (ValidateTaskState st); [by intros [= ?]|]|];
  (destruct sz as [sz|];
   [destruct (NormalizeSize sz) as [sz'|] eqn:Esz;
    [apply NormalizeSize_Ok in Esz as [-> ?]|by intros [= ?]]|]);
  intros [= <-]; destruct n, d, no, ls, cl, u; simpl; repeat split; (done || lia).
Qed.

(** * The claims *)

(** C5. A [MoveTask] rejected by the capacity check of its destination
    leaves the moved task at its original address: looking the
    identifier up again finds the same container, the same category index
    and task index, and a task with all its original field values. *)
Theorem MoveTask_capacity_failure_restores_address id dest state state' :
  MoveTask id dest state = (Err (Sentinel ErrCapacityExceeded), state') ->
  exists task loc,
    findTask state id = Ok (task, loc) /\
    taskAt state' loc = Some task /\
    findTask state' id = Ok (task, loc).
Proof.
  intros (t & loc & idx & Hfind & ->)%MoveTask_capacity_error_state.
  exists t, loc. split; [done|].
  apply findTask_Ok in Hfind as [Hid Hloc].
  pose proof (located_normalizeUrgent_setTaskAt _ _ _ _ idx (urgentIDOf t) Hid Hloc) as Hloc'.
  split; [by eapply located_taskAt|]. by apply findTask_Ok.
Qed.

Lemma MoveTask_capacity_failure_restores_address_witness :
  exists task loc,
    findTask sampleBoard "t2" = Ok (task, loc) /\
    taskAt (snd (MoveTask "t2" intoFullColumn sampleBoard)) loc = Some task /\
    findTask (snd (MoveTask "t2" intoFullColumn sampleBoard)) "t2" = Ok (task, loc).
Proof.
  apply (MoveTask_capacity_failure_restores_address "t2" intoFullColumn sampleBoard).
  vm_compute. reflexivity.
Defined.

(** C9. [findTask] does not scan the categories parked in
    [CategoryBackburner] and [CategoryArchives]: for an identifier carried
    only by a task of a parked category, [UpdateTask], [MoveTask],
    [DeleteTask] and [SetFocused] return [ErrTaskNotFound] and leave the
    board as it was.  ([SetFocused] reads the empty string as the request
    to clear the focus, not as a task identifier.) *)
Theorem parked_task_is_not_found id state :
  parkedOnly id state ->
  (forall patch, UpdateTask id patch state = (Err (Sentinel ErrTaskNotFound), state)) /\
  (forall dest, MoveTask id dest state = (Err (Sentinel ErrTaskNotFound), state)) /\
  DeleteTask id state = (Err (Sentinel ErrTaskNotFound), state) /\
  (id <> "" -> SetFocused id state = (Err (Sentinel ErrTaskNotFound), state)).
Proof.
  intros (_ & Hcats & Hbb & Har).
  assert (findTask state id = Err (Sentinel ErrTaskNotFound)) as Hfind
    by (by apply findTask_Err).
  repeat split.
  - intros patch. unfold UpdateTask. by rewrite Hfind.
  - intros dest. unfold MoveTask. by rewrite removeTask_Err by eauto.
  - unfold DeleteTask. by rewrite Hfind.
  - intros Hne. unfold SetFocused.
    apply String.eqb_neq in Hne. by rewrite Hne, Hfind.
Qed.

Lemma parked_task_is_not_found_witness :
  parkedOnly "pt" sampleBoard /\
  (forall patch, UpdateTask "pt" patch sampleBoard
                 = (Err (Sentinel ErrTaskNotFound), sampleBoard)) /\
  (forall dest, MoveTask "pt" dest sampleBoard
                = (Err (Sentinel ErrTaskNotFound), sampleBoard)) /\
  DeleteTask "pt" sampleBoard = (Err (Sentinel ErrTaskNotFound), sampleBoard) /\
  SetFocused "pt" sampleBoard = (Err (Sentinel ErrTaskNotFound), sampleBoard).
Proof.
  assert (parkedOnly "pt" sampleBoard) as Hparked.
  { unfold parkedOnly, absentFrom, sampleBoard; simpl.
    split; [by repeat constructor|].
    repeat split; repeat constructor; done. }
  split; [exact Hparked|].
  destruct (parked_task_is_not_found "pt" sampleBoard Hparked) as (Hu & Hm & Hd & Hf).
  split; [exact Hu|]. split; [exact Hm|]. split; [exact Hd|].
  apply Hf. discriminate.
Defined.

Section rename.
Variable TrimSpace : string -> string.

Lemma RenameCategory_duplicate_check id name state :
  (bool_decide (Exists (fun c => CatName c = name /\ CatID c <> id) (Categories state))
   || bool_decide (Exists (fun c => CatName c = name /\ CatID c <> id)
                          (CategoryBackburner state))
   || bool_decide (Exists (fun c => CatName c = name /\ CatID c <> id)
                          (CategoryArchives state))) = true
  <-> nameTakenByOther name id state.
Proof.
  unfold nameTakenByOther. rewrite !Exists_app, !orb_true_iff, !bool_decide_eq_true. tauto.
Qed.

(** C10. [RenameCategory] renames active columns only.  For an identifier
    carried only by a parked category the call changes nothing and fails:
    with [ErrDuplicateCategory] when another category, active or parked,
    already has the (trimmed) name, with [ErrCategoryNotFound] otherwise.
    (The request itself is taken to be well formed: a name that is blank
    after trimming is refused before either check, with
    [ErrInvalidRequest] and the same untouched board.) *)
Theorem RenameCategory_parked_category id name state :
  categoryParkedOnly id state ->
  snd (RenameCategory TrimSpace id name state) = state /\
  (TrimSpace name = "" ->
   RenameCategory TrimSpace id name state
   = (Err (Wrapf ErrInvalidRequest "name cannot be empty"), state)) /\
  (TrimSpace name <> "" ->
   (nameTakenByOther (TrimSpace name) id state ->
    RenameCategory TrimSpace id name state = (Err (Sentinel ErrDuplicateCategory), state)) /\
   (~ nameTakenByOther (TrimSpace name) id state ->
    RenameCategory TrimSpace id name state = (Err (Sentinel ErrCategoryNotFound), state))).
Proof.
  intros [Hboard _].
  apply findCategoryIndex_None in Hboard.
  pose proof (RenameCategory_duplicate_check id (TrimSpace name) state) as Hdup.
  unfold RenameCategory. rewrite Hboard.
  destruct (String.eqb (TrimSpace name) "") eqn:Eblank.
  { apply String.eqb_eq in Eblank. repeat split; done. }
  apply String.eqb_neq in Eblank.
  repeat split.
  - repeat case_match; done.
  - done.
  - intros Htaken%Hdup. rewrite !orb_true_iff in Htaken.
    destruct Htaken as [[-> | ->] | ->]; repeat case_match; done.
  - intros Hfree. rewrite <- Hdup in Hfree. apply not_true_iff_false in Hfree.
    rewrite !orb_false_iff in Hfree. destruct Hfree as [[-> ->] ->]. done.
Qed.

End rename.

Lemma RenameCategory_parked_category_witness :
  categoryParkedOnly "p1" sampleBoard /\
  RenameCategory trimSpaceASCII "p1" " Alpha " sampleBoard
  = (Err (Sentinel ErrDuplicateCategory), sampleBoard) /\
  RenameCategory trimSpaceASCII "p1" "Gamma" sampleBoard
  = (Err (Sentinel ErrCategoryNotFound), sampleBoard).
Proof.
  assert (categoryParkedOnly "p1" sampleBoard) as Hparked.
  { split; simpl; repeat constructor; done. }
  split; [exact Hparked|]. split.
  - destruct (RenameCategory_parked_category trimSpaceASCII "p1" " Alpha " sampleBoard Hparked)
      as (_ & _ & H).
    apply H; [vm_compute; discriminate|].
    vm_compute. apply Exists_cons_hd. split; [reflexivity|discriminate].
  - destruct (RenameCategory_parked_category trimSpaceASCII "p1" "Gamma" sampleBoard Hparked)
      as (_ & _ & H).
    apply H; [vm_compute; discriminate|].
    vm_compute. intros Hex. repeat (apply Exists_cons in Hex as [[? ?]|Hex]; [done|]).
    by apply Exists_nil in Hex.
Defined.

(** ** DeleteTask *)

Lemma DeleteTask_missing id state :
  absentFrom id (Categories state) ->
  Forall (fun t => ID t <> id) (Backburner state) ->
  Forall (fun t => ID t <> id) (Archives state) ->
  DeleteTask id state = (Err (Sentinel ErrTaskNotFound), state).
Proof.
  intros Hc Hb Ha. unfold DeleteTask.
  assert (findTask state id = Err (Sentinel ErrTaskNotFound)) as -> by (by apply findTask_Err).
  done.
Qed.

(** A task found in an active category or in the backburner is not
    removed; the error is the plain [fmt.Errorf] value. *)
Lemma DeleteTask_not_archived id state task loc :
  findTask state id = Ok (task, loc) ->
  Kind loc <> LocationArchive ->
  DeleteTask id state = (Err (Errorf ("task " ++ id ++ " is not in archive")), state).
Proof.
  intros Hfind Hkind. unfold DeleteTask. rewrite Hfind.
  apply String.eqb_neq in Hkind. by rewrite Hkind.
Qed.

(** A task found in [Archives] is removed from it; nothing else changes. *)
Lemma DeleteTask_archived id state task i :
  findTask state id = Ok (task, mkTaskLocation LocationArchive 0 i) ->
  DeleteTask id state = (Ok (), set_Archives (delete i (Archives state)) state).
Proof.
  intros Hfind. unfold DeleteTask, removeTask. by rewrite Hfind.
Qed.

Lemma DeleteTask_succeeds_iff id state :
  (exists state', DeleteTask id state = (Ok (), state')) <->
  exists task i, findTask state id = Ok (task, mkTaskLocation LocationArchive 0 i).
Proof.
  split.
  - intros [state' H]. unfold DeleteTask in H.
    destruct (findTask state id) as [[t loc]|e] eqn:Hfind; [|done].
    pose proof Hfind as [_ Hloc]%findTask_Ok.
    destruct Hloc; simpl in H; try done. eauto.
  - intros (t & i & Hfind). rewrite (DeleteTask_archived _ _ _ _ Hfind). eauto.
Qed.

(** C8. [DeleteTask] on a task that sits in an active category: the task
    stays in place and the call fails, but the error it returns is built
    by [fmt.Errorf] without wrapping [ErrInvalidRequest], so it is not an
    invalid-request error for [errors.Is] (nor any of the nine kinds). *)
Theorem DeleteTask_not_archived_error_is_untyped :
  DeleteTask "t1" sampleBoard
  = (Err (Errorf "task t1 is not in archive"), sampleBoard) /\
  errors_Is (Errorf "task t1 is not in archive") ErrInvalidRequest = false /\
  (forall kind, errors_Is (Errorf "task t1 is not in archive") kind = false).
Proof.
  split; [by vm_compute|]. split; [done|]. by intros [].
Qed.

(** ** MoveCategory and CreateCategory *)

Lemma placeCategory_error cat dest state e cat' state' :
  placeCategory cat dest state = (Some e, cat', state') -> cat' = cat /\ state' = state.
Proof. unfold placeCategory. repeat case_match; intros; by simplify_eq. Qed.

(** A failing [MoveCategory] leaves the board as it was. *)
Lemma MoveCategory_error_state id dest state e state' :
  MoveCategory id dest state = (Err e, state') -> state' = state.
Proof.
  unfold MoveCategory. case_match; [by intros [= _ <-]|].
  destruct (removeCategory state id) as [[[c loc]|e'] st] eqn:Hrm.
  2:{ apply removeCategory_Err in Hrm as (_ & -> & _). by intros [= _ <-]. }
  apply removeCategory_Ok in Hrm.
  match goal with
  | |- context [placeCategory c ?d st] =>
    destruct (placeCategory c d st) as [[[e'|] c'] st'] eqn:Hpl
  end; [|done].
  apply placeCategory_error in Hpl as [-> ->]. intros [= _ <-].
  by eapply restoreCategory_detached.
Qed.

Lemma length_Categories_detached state id c loc state' :
  detached state id c loc state' ->
  (length (Categories state') <= length (Categories state))%nat.
Proof.
  intros [i H|i _ H|i _ _ H]; simpl; [|done..].
  apply list_find_Some in H as (Hc & _). rewrite length_delete by eauto. lia.
Qed.

Lemma length_Categories_MoveCategory id dest state :
  (length (Categories state) <= CategoryLimit)%nat ->
  (length (Categories (snd (MoveCategory id dest state))) <= CategoryLimit)%nat.
Proof.
  intros Hle.
  destruct (MoveCategory id dest state) as [[c|e] st] eqn:Hmove.
  2:{ by apply MoveCategory_error_state in Hmove as ->. }
  unfold MoveCategory in Hmove. case_match; [done|].
  destruct (removeCategory state id) as [[[c0 loc]|e'] st0] eqn:Hrm; [|done].
  apply removeCategory_Ok, length_Categories_detached in Hrm.
  unfold placeCategory in Hmove.
  repeat case_match; simplify_eq; simpl; try lia.
  rewrite length_insertAt.
  match goal with H : (CategoryLimit <=? _)%nat = false |- _ => apply Nat.leb_gt in H end.
  lia.
Qed.

Section ceiling.
Variable TrimSpace : string -> string.

Lemma CreateCategory_duplicate_check name state :
  (bool_decide (Exists (fun c => CatName c = name) (Categories state))
   || bool_decide (Exists (fun c => CatName c = name) (CategoryBackburner state))
   || bool_decide (Exists (fun c => CatName c = name) (CategoryArchives state))) = true
  <-> nameTaken name state.
Proof.
  unfold nameTaken. rewrite !Exists_app, !orb_true_iff, !bool_decide_eq_true. tauto.
Qed.

(** A failing [CreateCategory] leaves the board as it was. *)
Lemma CreateCategory_error_state newID name state e state' :
  CreateCategory TrimSpace newID name state = (Err e, state') -> state' = state.
Proof. unfold CreateCategory. repeat case_match; intros; by simplify_eq. Qed.

Lemma CreateCategory_full_board newID name state :
  (CategoryLimit <= length (Categories state))%nat ->
  TrimSpace name <> "" ->
  ~ nameTaken (TrimSpace name) state ->
  CreateCategory TrimSpace newID name state = (Err (Sentinel ErrCategoryLimit), state).
Proof.
  intros Hfull Hname Hfree. unfold CreateCategory.
  apply String.eqb_neq in Hname. rewrite Hname.
  rewrite <- CreateCategory_duplicate_check in Hfree. apply not_true_iff_false in Hfree.
  rewrite !orb_false_iff in Hfree. destruct Hfree as [[-> ->] ->].
  apply Nat.leb_le in Hfull. by rewrite Hfull.
Qed.

Lemma length_Categories_CreateCategory newID name state :
  (length (Categories state) <= CategoryLimit)%nat ->
  (length (Categories (snd (CreateCategory TrimSpace newID name state))) <= CategoryLimit)%nat.
Proof.
  intros Hle. unfold CreateCategory. repeat case_match; simpl; try done.
  rewrite length_app; simpl.
  match goal with H : (CategoryLimit <=? _)%nat = false |- _ => apply Nat.leb_gt in H end.
  lia.
Qed.

Lemma length_Categories_RenameCategory id name state :
  length (Categories (snd (RenameCategory TrimSpace id name state)))
  = length (Categories state).
Proof. unfold RenameCategory. repeat case_match; simpl; by rewrite ?length_insert. Qed.

Lemma MoveCategory_full_board id dest state :
  (CategoryLimit <= length (Categories state))%nat ->
  MoveCategoryRequest.Location (MoveCategoryRequest.Normalize dest) = LocationCategoryBoard ->
  categoryParkedOnly id state ->
  MoveCategory id dest state = (Err (Sentinel ErrCategoryLimit), state).
Proof.
  intros Hfull Hboard [Hoff Hparked]. unfold MoveCategory.
  assert (MoveCategoryRequest.Validate (MoveCategoryRequest.Normalize dest) = None) as ->.
  { unfold MoveCategoryRequest.Validate. by rewrite Hboard. }
  destruct (removeCategory state id) as [[[c loc]|e'] st] eqn:Hrm.
  2:{ apply removeCategory_Err in Hrm as (_ & _ & Hnone).
      rewrite Forall_app in Hnone. destruct Hnone as [_ Hnone].
      apply Exists_exists in Hparked as (c & Hin & Hid).
      rewrite Forall_forall in Hnone. by destruct (Hnone c Hin). }
  apply removeCategory_Ok in Hrm.
  assert (Categories st = Categories state) as Hsame.
  { destruct Hrm as [i H|i _ H|i _ _ H]; [|done..].
    apply list_find_Some in H as (Hc & Hid & _).
    rewrite Forall_forall in Hoff. destruct (Hoff c); [|done].
    by eapply list_elem_of_lookup_2. }
  unfold placeCategory. rewrite Hboard, Hsame, String.eqb_refl.
  apply Nat.leb_le in Hfull. rewrite Hfull.
  f_equal. by eapply restoreCategory_detached.
Qed.

End ceiling.

(** A [MoveCategory] to the board of a category that is on the board:
    the category is detached first, so the ceiling check sees one column
    less and only the capacity check can refuse the move. *)
Lemma MoveCategory_reposition id dest state i :
  MoveCategoryRequest.Location (MoveCategoryRequest.Normalize dest) = LocationCategoryBoard ->
  findCategoryIndex (Categories state) id = Some i ->
  (length (Categories state) <= CategoryLimit)%nat ->
  let c := Categories state !!! i in
  let rest := delete i (Categories state) in
  MoveCategory id dest state
  = match ensureCapacity c with
    | Some _ => (Err (Sentinel ErrCapacityExceeded), state)
    | None =>
      (Ok c,
       set_Categories
         (insertAt (insertIndex (MoveCategoryRequest.Position dest) (length rest)) c rest)
         state)
    end.
Proof.
  intros Hboard Hi Hle c rest.
  assert (list_find (fun c => CatID c = id) (Categories state) = Some (i, c)) as Hfind.
  { unfold findCategoryIndex in Hi.
    destruct (list_find _ (Categories state)) as [[j c']|] eqn:E; [|done].
    simpl in Hi. injection Hi as ->.
    pose proof E as (Hc & _)%list_find_Some.
    unfold c. by rewrite (list_lookup_total_correct _ _ _ Hc). }
  pose proof (detached_board state id c i Hfind) as Hd.
  pose proof Hfind as (Hc & _)%list_find_Some.
  pose proof (lookup_lt_Some _ _ _ Hc) as Hlt.
  assert (MoveCategoryRequest.Position (MoveCategoryRequest.Normalize dest)
          = MoveCategoryRequest.Position dest) as Hpos.
  { unfold MoveCategoryRequest.Normalize. by destruct (String.eqb _ ""). }
  unfold MoveCategory.
  assert (MoveCategoryRequest.Validate (MoveCategoryRequest.Normalize dest) = None) as ->.
  { unfold MoveCategoryRequest.Validate. by rewrite Hboard. }
  rewrite (proj2 (removeCategory_Ok _ _ _ _ _) Hd).
  unfold placeCategory. rewrite Hboard, String.eqb_refl, Hpos. subst rest.
  assert ((CategoryLimit
           <=? length (Categories (set_Categories (delete i (Categories state)) state)))%nat
          = false) as ->.
  { apply Nat.leb_gt. simpl. rewrite length_delete by eauto. lia. }
  destruct (ensureCapacity c) as [e|] eqn:Ecap.
  - rewrite (ensureCapacity_error _ _ Ecap). f_equal.
    by eapply restoreCategory_detached.
  - rewrite Category_Clone_id. by destruct state.
Qed.





(** ** Reorder *)

(** [index[id]] after the loop over [order]: the last position of [id]
    in [order] when it occurs there. *)
Lemma orderIndex_lookup_Some order k (m : gmap string nat) id p :
  orderIndex order k m !! id = Some p ->
  (m !! id = Some p /\ id ∉ order) \/
  (exists i, p = (k + i)%nat /\ order !! i = Some id).
Proof.
  revert k m. induction order as [|x order IH]; intros k m; simpl.
  - intros H. left. split; [done|]. apply not_elem_of_nil.
  - intros [[Hm Hnot]|(i & -> & Hi)]%IH.
    + rewrite lookup_insert in Hm. case_decide as Hx.
      * simplify_eq. right. exists 0%nat. split; [lia|done].
      * left. split; [done|]. rewrite not_elem_of_cons. done.
    + right. exists (S i). split; [lia|done].
Qed.

Lemma orderIndex_lookup_None order k (m : gmap string nat) id :
  orderIndex order k m !! id = None <-> m !! id = None /\ id ∉ order.
Proof.
  revert k m. induction order as [|x order IH]; intros k m; simpl.
  - split; [intros H; split; [done|apply not_elem_of_nil]|by intros [? _]].
  - rewrite IH, lookup_insert, not_elem_of_cons. case_decide as Hx.
    + subst. split; [by intros [? _]|by intros (_ & ? & _)].
    + split; [intros [? ?]; repeat split; (done || congruence)|by intros (? & _ & ?)].
Qed.

Lemma orderIndex_lookup_NoDup order k (m : gmap string nat) id i :
  NoDup order -> order !! i = Some id -> orderIndex order k m !! id = Some (k + i)%nat.
Proof.
  intros Hnd Hi.
  destruct (orderIndex order k m !! id) as [p|] eqn:E.
  - apply orderIndex_lookup_Some in E as [[_ Hnot]|(j & -> & Hj)].
    + destruct Hnot. by eapply list_elem_of_lookup_2.
    + by rewrite (NoDup_lookup _ _ _ _ Hnd Hi Hj).
  - apply orderIndex_lookup_None in E as [_ Hnot].
    destruct Hnot. by eapply list_elem_of_lookup_2.
Qed.

Lemma length_placeByIndex index ts r r' :
  placeByIndex index ts r = Ok r' -> length r' = length r.
Proof.
  revert r. induction ts as [|t ts IH]; intros r; simpl; [by intros [= <-]|].
  destruct (index !! ID t) as [p|]; [|done].
  intros ->%IH. apply length_insert.
Qed.

Lemma placeByIndex_Ok index ts r :
  (exists r', placeByIndex index ts r = Ok r') <->
  Forall (fun t => is_Some (index !! ID t)) ts.
Proof.
  revert r. induction ts as [|t ts IH]; intros r; simpl.
  - split; [constructor|eauto].
  - rewrite Forall_cons. destruct (index !! ID t) as [p|].
    + rewrite IH. split; [eauto|tauto].
    + split; [by intros [? ?]|by intros [[? ?] _]].
Qed.

Lemma placeByIndex_Err index ts r e :
  placeByIndex index ts r = Err e -> errors_Is e ErrInvalidRequest = true.
Proof.
  revert r. induction ts as [|t ts IH]; intros r; simpl; [done|].
  destruct (index !! ID t) as [p|]; [apply IH|by intros [= <-]].
Qed.

(** Positions no task is sent to keep what they held. *)
Lemma placeByIndex_lookup_frame index ts r r' p :
  placeByIndex index ts r = Ok r' ->
  Forall (fun t => index !! ID t <> Some p) ts ->
  r' !! p = r !! p.
Proof.
  revert r. induction ts as [|t ts IH]; intros r; simpl; [by intros [= <-]|].
  destruct (index !! ID t) as [q|] eqn:Hq; [|done].
  intros Hplace [Hne Hrest]%Forall_cons.
  rewrite (IH _ Hplace Hrest). apply list_lookup_insert_ne. congruence.
Qed.

(** A position exactly one task is sent to ends up holding that task. *)
Lemma placeByIndex_lookup index ts r r' p t :
  placeByIndex index ts r = Ok r' ->
  t ∈ ts -> index !! ID t = Some p -> (p < length r)%nat ->
  (forall t', t' ∈ ts -> index !! ID t' = Some p -> t' = t) ->
  r' !! p = Some t.
Proof.
  revert r. induction ts as [|t0 ts IH]; intros r; simpl.
  { intros _ Hin. by apply elem_of_nil in Hin. }
  destruct (index !! ID t0) as [q|] eqn:Hq; [|done].
  intros Hplace Hin Hp Hlt Huniq.
  destruct (decide (Exists (fun t' => index !! ID t' = Some p) ts)) as [Hex|Hnex].
  - apply Exists_exists in Hex as (t' & Hin' & Hp').
    assert (t' = t) as -> by (apply Huniq; [by right|done]).
    eapply IH; eauto.
    + by rewrite length_insert.
    + intros t' ? ?. apply Huniq; [by right|done].
  - apply not_Exists_Forall in Hnex; [|apply _].
    rewrite (placeByIndex_lookup_frame _ _ _ _ _ Hplace Hnex).
    apply elem_of_cons in Hin as [->|Hin].
    + rewrite Hp in Hq. simplify_eq. by apply list_lookup_insert_eq.
    + rewrite Forall_forall in Hnex. by destruct (Hnex t Hin).
Qed.

Lemma NoDup_ID_inj (ts : list Task) t t' :
  NoDup (ID <$> ts) -> t ∈ ts -> t' ∈ ts -> ID t = ID t' -> t = t'.
Proof.
  intros Hnd [j Hj]%list_elem_of_lookup_1 [j' Hj']%list_elem_of_lookup_1 Hid.
  assert ((ID <$> ts) !! j = Some (ID t)) as H1 by (by rewrite list_lookup_fmap, Hj).
  assert ((ID <$> ts) !! j' = Some (ID t)) as H2 by (by rewrite list_lookup_fmap, Hj', Hid).
  rewrite (NoDup_lookup _ _ _ _ Hnd H1 H2) in Hj. congruence.
Qed.

(** With pairwise distinct identifiers, the check of [reorderTasks]
    (equal lengths, every task identifier listed) is that [order] is a
    permutation of the identifiers. *)
Lemma reorder_check_iff_Permutation (ts : list Task) (order : list string) :
  NoDup (ID <$> ts) ->
  (length order = length ts /\ Forall (fun t => ID t ∈ order) ts) <->
  order ≡ₚ ID <$> ts.
Proof.
  intros Hnd. split.
  - intros [Hlen Hall]. symmetry. apply submseteq_length_Permutation.
    + apply NoDup_submseteq; [done|].
      intros id (t & -> & Hin)%list_elem_of_fmap.
      rewrite Forall_forall in Hall. by apply Hall.
    + rewrite length_fmap. lia.
  - intros Hperm. split.
    + by rewrite Hperm, length_fmap.
    + apply Forall_forall. intros t Hin. rewrite Hperm. by apply list_elem_of_fmap_2.
Qed.

Lemma reorderTasks_Permutation cat order :
  NoDup (ID <$> Tasks cat) ->
  order ≡ₚ ID <$> Tasks cat ->
  exists ts', reorderTasks cat order = (None, set_Tasks ts' cat) /\
              ID <$> ts' = order /\ ts' ≡ₚ Tasks cat.
Proof.
  intros Hnd Hperm.
  assert (NoDup order) as Hndo by (by rewrite Hperm).
  pose proof Hperm as [Hlen Hall]%reorder_check_iff_Permutation; [|done].
  unfold reorderTasks. rewrite Hlen, Nat.eqb_refl. simpl.
  set (index := orderIndex order 0 ∅).
  set (ts := Tasks cat) in *.
  assert (Forall (fun t => is_Some (index !! ID t)) ts) as Hsome.
  { eapply Forall_impl; [exact Hall|]. intros t [i Hi]%list_elem_of_lookup_1. simpl.
    unfold index. by rewrite (orderIndex_lookup_NoDup _ _ _ _ _ Hndo Hi). }
  apply (placeByIndex_Ok _ _ (replicate (length ts) zeroTask)) in Hsome as [r' Hr'].
  rewrite Hr'. exists r'. split; [done|].
  pose proof (length_placeByIndex _ _ _ _ Hr') as Hlen'. rewrite length_replicate in Hlen'.
  assert (forall i id, order !! i = Some id ->
            exists t, t ∈ ts /\ ID t = id /\ r' !! i = Some t) as Hpos.
  { intros i id Hi.
    assert (id ∈ ID <$> ts) as (t & -> & Hin)%list_elem_of_fmap.
    { rewrite <- Hperm. by eapply list_elem_of_lookup_2. }
    exists t. split; [done|]. split; [done|].
    eapply placeByIndex_lookup; eauto.
    - unfold index. by rewrite (orderIndex_lookup_NoDup _ _ _ _ _ Hndo Hi).
    - rewrite length_replicate, <- Hlen. by eapply lookup_lt_Some.
    - intros t' Hin' Ht'. unfold index in Ht'.
      apply orderIndex_lookup_Some in Ht' as [[Hempty _]|(j & Hj & Hoj)]; [done|].
      simpl in Hj. subst j. rewrite Hi in Hoj. simplify_eq.
      by eapply NoDup_ID_inj. }
  assert (ID <$> r' = order) as Hids.
  { apply list_eq. intros i. rewrite list_lookup_fmap.
    destruct (order !! i) as [id|] eqn:Hi.
    - destruct (Hpos i id Hi) as (t & _ & <- & ->). done.
    - apply lookup_ge_None in Hi. rewrite (lookup_ge_None_2 r' i); [done|lia]. }
  split; [done|].
  apply submseteq_length_Permutation; [|lia].
  apply NoDup_submseteq.
  - apply (NoDup_fmap_1 ID). by rewrite Hids.
  - intros t [i Hi]%list_elem_of_lookup_1.
    assert (order !! i = Some (ID t)) as Ho by (by rewrite <- Hids, list_lookup_fmap, Hi).
    destruct (Hpos i _ Ho) as (t' & Hin & _ & Ht'). congruence.
Qed.

Lemma reorderTasks_mismatch cat order :
  NoDup (ID <$> Tasks cat) ->
  ~ order ≡ₚ ID <$> Tasks cat ->
  exists e, reorderTasks cat order = (Some e, cat) /\ errors_Is e ErrInvalidRequest = true.
Proof.
  intros Hnd Hnperm. unfold reorderTasks.
  destruct (length order =? length (Tasks cat))%nat eqn:Hlen; simpl; [|eauto].
  apply Nat.eqb_eq in Hlen.
  destruct (placeByIndex _ (Tasks cat) _) as [r'|e] eqn:Hplace.
  - destruct Hnperm. apply reorder_check_iff_Permutation; [done|]. split; [done|].
    assert (exists r', placeByIndex (orderIndex order 0 ∅) (Tasks cat)
                         (replicate (length (Tasks cat)) zeroTask) = Ok r') as Hok by eauto.
    apply placeByIndex_Ok in Hok. eapply Forall_impl; [exact Hok|].
    intros t [p Hp]. simpl in Hp.
    apply orderIndex_lookup_Some in Hp as [[? _]|(i & _ & Hi)]; [done|].
    by eapply list_elem_of_lookup_2.
  - exists e. split; [done|]. by eapply placeByIndex_Err.
Qed.




(** ** Column capacity across the operations *)

Lemma sizesValid_columns state :
  sizesValid state ->
  columnsValid (Categories state) /\ columnsValid (CategoryBackburner state) /\
  columnsValid (CategoryArchives state) /\
  Forall validSize (Backburner state) /\ Forall validSize (Archives state).
Proof.
  unfold sizesValid, columnsValid. rewrite !Forall_app. tauto.
Qed.

Lemma lookup_total_Forall {A : Type} `{!Inhabited A} (P : A -> Prop) (l : list A) i :
  Forall P l -> (i < length l)%nat -> P (l !!! i).
Proof.
  intros H Hi. eapply Forall_lookup_1; [exact H|]. by apply list_lookup_lookup_total_lt.
Qed.

Lemma findCategoryIndex_lt cats id i :
  findCategoryIndex cats id = Some i -> (i < length cats)%nat.
Proof. intros (c & Hc & _)%findCategoryIndex_Some. by eapply lookup_lt_Some. Qed.

Lemma withinCapacity_fmap (f : Task -> Task) c :
  (forall t, Size (f t) = Size t) ->
  withinCapacity c -> withinCapacity (set_Tasks (f <$> Tasks c) c).
Proof. intros Hf. unfold withinCapacity; simpl. by rewrite sumSizes_fmap. Qed.

Lemma columnsValid_fmap_tasks (f : Task -> Task) c :
  (forall t, Size (f t) = Size t) ->
  Forall validSize (Tasks c) -> Forall validSize (Tasks (set_Tasks (f <$> Tasks c) c)).
Proof. intros Hf. simpl. by apply Forall_validSize_fmap. Qed.

Lemma capacityKept_normalizeUrgent state idx u :
  capacityKept state -> capacityKept (normalizeUrgent state idx u).
Proof.
  unfold capacityKept, normalizeUrgent; simpl. intros H.
  apply Forall_alter; [done|]. intros c _. by apply withinCapacity_fmap.
Qed.

Lemma columnsValid_normalizeUrgent state idx u :
  columnsValid (Categories state) -> columnsValid (Categories (normalizeUrgent state idx u)).
Proof.
  unfold columnsValid, normalizeUrgent; simpl. intros H.
  apply Forall_alter; [done|]. intros c _. by apply columnsValid_fmap_tasks.
Qed.

Lemma capacityKept_normalizeFocus state id :
  capacityKept state -> capacityKept (normalizeFocus state id).
Proof.
  unfold capacityKept, normalizeFocus; simpl. intros H.
  apply Forall_fmap. eapply Forall_impl; [exact H|].
  intros c. by apply withinCapacity_fmap.
Qed.

Lemma capacityKept_clearFocus state :
  capacityKept state -> capacityKept (clearFocus state).
Proof.
  unfold capacityKept, clearFocus; simpl. intros H.
  apply Forall_fmap. eapply Forall_impl; [exact H|].
  intros c. by apply withinCapacity_fmap.
Qed.

(** Writing a task of the same size over the task at an address. *)
Lemma capacityKept_setTaskAt loc task state :
  (forall t0, taskAt state loc = Some t0 -> Size task = Size t0) ->
  capacityKept state -> capacityKept (setTaskAt loc task state).
Proof.
  unfold capacityKept, setTaskAt, taskAt. intros Hsize H.
  destruct (String.eqb (Kind loc) LocationCategory); [|by repeat case_match].
  simpl. apply Forall_alter; [done|]. intros c Hc.
  rewrite Hc in Hsize. simpl in Hsize.
  unfold withinCapacity; simpl. rewrite sumSizes_insert.
  destruct (Tasks c !! TaskIndex loc) as [t0|]; [|done].
  rewrite (Hsize t0 eq_refl). lia.
Qed.

(** A column that passes the capacity check after an insertion. *)
Lemma capacityKept_insert_checked state idx (cat : Category) :
  capacityKept state ->
  Forall validSize (Tasks cat) ->
  ensureCapacity cat = None ->
  capacityKept (set_Categories (<[idx := cat]> (Categories state)) state).
Proof.
  unfold capacityKept; simpl. intros H Hvalid Hcheck.
  apply Forall_insert; [done|]. by apply ensureCapacity_None.
Qed.

Lemma insertTask_capacityKept newID req state task state' :
  columnsValid (Categories state) -> capacityKept state ->
  insertTask newID req state = (Ok task, state') -> capacityKept state'.
Proof.
  intros Hvalid Hcap. unfold insertTask.
  set (t1 := if String.eqb _ "" then _ else _).
  set (t2 := if Size t1 =? 0 then _ else _).
  destruct (NormalizeSize (Size t2)) as [size|] eqn:Esize; [|done].
  apply NormalizeSize_Ok in Esize as [-> Hsize].
  destruct (ValidateTaskState _); [done|].
  destruct (String.eqb _ LocationCategory).
  - destruct (findCategoryIndex _ _) as [idx|] eqn:Eidx; [|done].
    apply findCategoryIndex_lt in Eidx.
    destruct (ensureCapacity _) eqn:Echeck; [done|].
    intros [= _ <-].
    assert (capacityKept
              (set_Categories
                 (<[idx := set_Tasks
                             (insertAt (insertIndex (CreateTaskRequest.Position req)
                                          (length (Tasks (Categories state !!! idx))))
                                       (set_Size (Size t2) t2)
                                       (Tasks (Categories state !!! idx)))
                             (Categories state !!! idx)]> (Categories state)) state)) as H.
    { apply capacityKept_insert_checked; [done| |done]. simpl.
      apply Forall_insertAt; [done|]. by apply (lookup_total_Forall _ _ _ Hvalid). }
    repeat case_match;
      auto using capacityKept_normalizeFocus, capacityKept_normalizeUrgent.
  - repeat case_match; intros; simplify_eq; done.
Qed.

Lemma CreateTask_capacityKept newID req state task state' :
  columnsValid (Categories state) -> capacityKept state ->
  CreateTask newID req state = (Ok task, state') -> capacityKept state'.
Proof.
  intros Hvalid Hcap. unfold CreateTask. case_match; [done|].
  by apply insertTask_capacityKept.
Qed.

Lemma located_validSize state id t loc :
  sizesValid state -> located state id t loc -> validSize t.
Proof.
  intros (Hcols & _ & _ & Hbb & Har)%sizesValid_columns Hloc.
  destruct Hloc as [ci ti c Hc Ht _ _|i _ Ht _|i _ _ Ht _].
  - eapply Forall_lookup_1; [|exact Ht].
    exact (Forall_lookup_1 _ _ _ _ Hcols Hc).
  - exact (Forall_lookup_1 _ _ _ _ Hbb Ht).
  - exact (Forall_lookup_1 _ _ _ _ Har Ht).
Qed.

Lemma columnsValid_setTaskAt loc task state :
  validSize task ->
  columnsValid (Categories state) -> columnsValid (Categories (setTaskAt loc task state)).
Proof.
  unfold columnsValid, setTaskAt. intros Htask H.
  repeat case_match; simpl; try done.
  apply Forall_alter; [done|]. intros c _ Hc. simpl. by apply Forall_insert.
Qed.

Lemma UpdateTask_capacityKept id patch state task state' :
  sizesValid state -> capacityKept state ->
  UpdateTask id patch state = (Ok task, state') -> capacityKept state'.
Proof.
  intros Hvalid Hcap. unfold UpdateTask.
  destruct (findTask state id) as [[t loc]|e] eqn:Hfind; [|done].
  apply findTask_Ok in Hfind as [_ Hloc].
  pose proof (located_validSize _ _ _ _ Hvalid Hloc) as Ht.
  apply sizesValid_columns in Hvalid as (Hcols & _).
  destruct (TaskPatch.Apply patch t) as [[e|] t'] eqn:Happly; [done|].
  apply TaskPatch_Apply_None in Happly as (_ & _ & Ht'). specialize (Ht' Ht).
  pose proof (columnsValid_setTaskAt loc t' state Ht' Hcols) as Hcols'.
  destruct (String.eqb (Kind loc) LocationCategory) eqn:Hkind.
  - set (st := if Urgent t' then _ else _).
    assert (columnsValid (Categories st)) as Hst.
    { unfold st. destruct (Urgent t'); by apply columnsValid_normalizeUrgent. }
    assert (length (Categories st) = length (Categories state)) as Hlen.
    { unfold st. destruct (Urgent t'); by autorewrite with board_len. }
    assert (forall c, c ∈ Categories st -> c = Categories st !!! CategoryIndex loc \/
                                          withinCapacity c) as Hother.
    { intros c [j Hj]%list_elem_of_lookup_1.
      destruct (decide (j = CategoryIndex loc)) as [->|Hne].
      - left. by rewrite (list_lookup_total_correct _ _ _ Hj).
      - right. revert Hj. unfold st, normalizeUrgent, setTaskAt. rewrite Hkind.
        destruct (Urgent t'); simpl; rewrite !list_lookup_alter_ne by done;
          intros Hj; by eapply (Forall_lookup_1 _ _ _ _ Hcap). }
    clearbody st.
    destruct (ensureCapacity _) eqn:Echeck; [done|]. intros [= _ <-].
    apply Forall_forall. intros c Hc. destruct (Hother c Hc) as [->|?]; [|done].
    apply ensureCapacity_None; [|done].
    apply (lookup_total_Forall _ _ _ Hst).
    destruct Hloc as [ci ti c' Hc' _ _ _| |]; simpl in *; try done.
    rewrite Hlen. by eapply lookup_lt_Some.
  - intros [= _ <-]. unfold capacityKept, setTaskAt. rewrite Hkind.
    by repeat case_match.
Qed.

Lemma removeTask_capacityKept state id :
  sizesValid state -> capacityKept state ->
  capacityKept (snd (removeTask state id)) /\
  columnsValid (Categories (snd (removeTask state id))).
Proof.
  intros (Hcols & _)%sizesValid_columns Hcap. unfold removeTask.
  destruct (findTask state id) as [[t loc]|e]; [|done].
  unfold capacityKept, columnsValid in *.
  repeat case_match; simpl; try done. split.
  - apply Forall_lookup. intros j c Hj.
    rewrite list_lookup_alter in Hj. case_decide; [|by eapply (Forall_lookup_1 _ _ _ _ Hcap)].
    apply fmap_Some in Hj as (c0 & Hc0 & ->).
    pose proof (Forall_lookup_1 _ _ _ _ Hcap Hc0) as Hsum.
    pose proof (Forall_lookup_1 _ _ _ _ Hcols Hc0) as Hv.
    unfold withinCapacity in *; simpl.
    destruct (Tasks c0 !! TaskIndex loc) as [t0|] eqn:Ht0.
    + rewrite (sumSizes_delete _ _ _ Ht0).
      pose proof (Forall_lookup_1 _ _ _ _ Hv Ht0) as Hv0. unfold validSize in Hv0. lia.
    + rewrite delete_take_drop, (drop_ge _ (S _)), app_nil_r, take_ge; [done|..];
        apply lookup_ge_None in Ht0; lia.
  - apply Forall_alter; [done|]. intros c _ Hc. simpl. by apply Forall_delete.
Qed.

Lemma placeTask_capacityKept task dest state state' :
  validSize task -> columnsValid (Categories state) -> capacityKept state ->
  placeTask task dest state = (None, state') -> capacityKept state'.
Proof.
  intros Htask Hcols Hcap. unfold placeTask.
  destruct (MoveTaskRequest.Validate _); [done|].
  destruct (String.eqb _ LocationCategory).
  - destruct (findCategoryIndex _ _) as [idx|] eqn:Eidx; [|done].
    apply findCategoryIndex_lt in Eidx.
    set (st := if Urgent _ then _ else _).
    assert (columnsValid (Categories st) /\ capacityKept st /\
            length (Categories st) = length (Categories state)) as (Hst & Hcapst & Hlen).
    { unfold st. destruct (Urgent _);
        auto using columnsValid_normalizeUrgent, capacityKept_normalizeUrgent,
          length_Categories_normalizeUrgent. }
    clearbody st.
    destruct (ensureCapacity _) eqn:Echeck; [done|]. intros [= <-].
    apply capacityKept_insert_checked; [done| |done]. simpl.
    apply Forall_insertAt; [done|].
    apply (lookup_total_Forall _ _ _ Hst). lia.
  - repeat case_match; intros; simplify_eq; done.
Qed.

Lemma MoveTask_capacityKept id dest state task state' :
  sizesValid state -> capacityKept state ->
  MoveTask id dest state = (Ok task, state') -> capacityKept state'.
Proof.
  intros Hvalid Hcap. unfold MoveTask.
  destruct (removeTask_capacityKept state id Hvalid Hcap) as [Hcap1 Hcols1].
  destruct (findTask state id) as [[t loc]|e] eqn:Hfind.
  2:{ rewrite removeTask_Err by eauto. done. }
  destruct (removeTask_Ok _ _ _ _ Hfind) as [st Hst]. rewrite Hst in *. simpl in *.
  apply findTask_Ok in Hfind as [_ Hloc].
  pose proof (located_validSize _ _ _ _ Hvalid Hloc) as Ht.
  match goal with
  | |- context [placeTask t ?d st] => destruct (placeTask t d st) as [[e|] st'] eqn:Hplace
  end; [done|].
  intros [= _ <-]. by eapply placeTask_capacityKept.
Qed.

Lemma DeleteTask_Categories id state state' :
  DeleteTask id state = (Ok (), state') -> Categories state' = Categories state.
Proof.
  intros H.
  assert (exists st, DeleteTask id state = (Ok (), st)) as (t & i & Hfind)%DeleteTask_succeeds_iff
    by eauto.
  rewrite (DeleteTask_archived _ _ _ _ Hfind) in H. by simplify_eq.
Qed.

Lemma detached_capacityKept state id c loc state' :
  sizesValid state -> capacityKept state -> detached state id c loc state' ->
  capacityKept state' /\ Forall validSize (Tasks c).
Proof.
  intros (Hcols & Hcb & Hca & _)%sizesValid_columns Hcap Hd.
  unfold capacityKept, columnsValid in *.
  destruct Hd as [i H|i _ H|i _ _ H]; apply list_find_Some in H as (Hc & _); simpl.
  - split; [by apply Forall_delete|exact (Forall_lookup_1 _ _ _ _ Hcols Hc)].
  - split; [done|exact (Forall_lookup_1 _ _ _ _ Hcb Hc)].
  - split; [done|exact (Forall_lookup_1 _ _ _ _ Hca Hc)].
Qed.

Lemma MoveCategory_capacityKept id dest state cat state' :
  sizesValid state -> capacityKept state ->
  MoveCategory id dest state = (Ok cat, state') -> capacityKept state'.
Proof.
  intros Hvalid Hcap. unfold MoveCategory. case_match; [done|].
  destruct (removeCategory state id) as [[[c loc]|e'] st] eqn:Hrm; [|done].
  apply removeCategory_Ok in Hrm.
  destruct (detached_capacityKept _ _ _ _ _ Hvalid Hcap Hrm) as [Hcap1 Hc].
  unfold placeCategory.
  repeat case_match; intros; simplify_eq; try done.
  unfold capacityKept; simpl. apply Forall_insertAt; [|done].
  by apply ensureCapacity_None.
Qed.

(** The loop of [reorderTasks] never adds points: every position holds
    the zero task or one of the column's tasks, each at most once. *)
Lemma placeByIndex_sumSizes index ts r r' :
  Forall (fun t => 0 <= Size t) ts -> Forall (fun t => 0 <= Size t) r ->
  placeByIndex index ts r = Ok r' ->
  sumSizes r' <= sumSizes r + sumSizes ts.
Proof.
  intros Hts. revert r. induction Hts as [|t ts Ht Hts IH]; intros r Hr; simpl.
  - intros [= <-]. lia.
  - destruct (index !! ID t) as [p|]; [|done]. intros Hplace.
    apply IH in Hplace; [|by apply Forall_insert].
    rewrite sumSizes_insert in Hplace.
    destruct (r !! p) as [t0|] eqn:Ht0; [|lia].
    pose proof (Forall_lookup_1 _ _ _ _ Hr Ht0) as Hnn. simpl in Hnn. lia.
Qed.

Lemma sumSizes_replicate_zeroTask n : sumSizes (replicate n zeroTask) = 0.
Proof. induction n as [|n IH]; simpl; [done|]. by rewrite IH. Qed.

Lemma reorderTasks_withinCapacity cat order cat' :
  Forall validSize (Tasks cat) -> withinCapacity cat ->
  reorderTasks cat order = (None, cat') -> withinCapacity cat'.
Proof.
  intros Hvalid Hcap. unfold reorderTasks. case_match; [done|].
  destruct (placeByIndex _ _ _) as [r'|] eqn:Hplace; [|done]. intros [= <-].
  apply placeByIndex_sumSizes in Hplace.
  - unfold withinCapacity in *; simpl. rewrite sumSizes_replicate_zeroTask in Hplace. lia.
  - by apply validSize_nonneg.
  - apply Forall_replicate. done.
Qed.

Lemma ReorderCategoryTasks_capacityKept id order state cat state' :
  sizesValid state -> capacityKept state ->
  ReorderCategoryTasks id order state = (Ok cat, state') -> capacityKept state'.
Proof.
  intros (Hcols & _)%sizesValid_columns Hcap. unfold ReorderCategoryTasks.
  destruct (findCategoryIndex _ _) as [i|] eqn:Ei; [|done].
  apply findCategoryIndex_lt in Ei.
  destruct (reorderTasks _ order) as [[e|] c'] eqn:Hre; [done|]. intros [= _ <-].
  unfold capacityKept; simpl. apply Forall_insert; [done|].
  eapply reorderTasks_withinCapacity; [| |exact Hre].
  - by apply (lookup_total_Forall _ _ _ Hcols).
  - by apply (lookup_total_Forall _ _ _ Hcap).
Qed.

Lemma SetFocused_capacityKept id state task state' :
  capacityKept state -> SetFocused id state = (Ok task, state') -> capacityKept state'.
Proof.
  intros Hcap. unfold SetFocused.
  destruct (String.eqb id ""); [intros [= _ <-]; by apply capacityKept_clearFocus|].
  destruct (findTask state id) as [[t loc]|e]; [|done]. intros [= _ <-].
  apply capacityKept_setTaskAt; [|by apply capacityKept_clearFocus].
  by intros t0 ->.
Qed.

Section capacity.
Variable TrimSpace : string -> string.

Lemma CreateCategory_capacityKept newID name state cat state' :
  capacityKept state ->
  CreateCategory TrimSpace newID name state = (Ok cat, state') -> capacityKept state'.
Proof.
  intros Hcap. unfold CreateCategory. repeat case_match; intros; simplify_eq.
  unfold capacityKept; simpl. apply Forall_app. split; [done|].
  repeat constructor. unfold withinCapacity, ColumnCapacity; simpl. lia.
Qed.

Lemma RenameCategory_capacityKept id name state cat state' :
  capacityKept state ->
  RenameCategory TrimSpace id name state = (Ok cat, state') -> capacityKept state'.
Proof.
  intros Hcap. unfold RenameCategory. repeat case_match; intros; simplify_eq.
  unfold capacityKept; simpl. apply Forall_insert; [done|].
  match goal with H : findCategoryIndex _ _ = Some _ |- _ => apply findCategoryIndex_lt in H end.
  by apply (lookup_total_Forall withinCapacity).
Qed.

(** Every successful operation keeps the columns within capacity. *)
Lemma step_capacityKept op state state' :
  sizesValid state -> capacityKept state ->
  step TrimSpace op state = (None, state') -> capacityKept state'.
Proof.
  intros Hvalid Hcap.
  pose proof (sizesValid_columns _ Hvalid) as (Hcols & _).
  destruct op; simpl; unfold outcome;
    match goal with |- context [result_error (fst ?r)] => destruct r as [[x|e] st] eqn:Hop end;
    simpl; intros [= <-]; try done.
  - by eapply CreateTask_capacityKept.
  - by eapply UpdateTask_capacityKept.
  - by eapply MoveTask_capacityKept.
  - destruct x. unfold capacityKept. by rewrite (DeleteTask_Categories _ _ _ Hop).
  - by eapply CreateCategory_capacityKept.
  - by eapply RenameCategory_capacityKept.
  - by eapply MoveCategory_capacityKept.
  - by eapply ReorderCategoryTasks_capacityKept.
  - by eapply SetFocused_capacityKept.
Qed.

End capacity.

(** ** Rejections by the capacity check *)

Lemma findCategoryIndex_CatID cats cats' id :
  CatID <$> cats = CatID <$> cats' ->
  findCategoryIndex cats id = findCategoryIndex cats' id.
Proof.
  intros H. unfold findCategoryIndex.
  assert (forall l : list Category,
            fst <$> list_find (fun c => CatID c = id) l
            = fst <$> list_find (fun x => x = id) (CatID <$> l)) as Hfmap.
  { intros l. rewrite list_find_fmap.
    change ((fun x => x = id) ∘ CatID) with (fun c => CatID c = id).
    by destruct (list_find (fun c => CatID c = id) l) as [[? ?]|]. }
  by rewrite !Hfmap, H.
Qed.

Lemma CatID_removeTask state id :
  CatID <$> Categories (snd (removeTask state id)) = CatID <$> Categories state.
Proof.
  unfold removeTask. destruct (findTask state id) as [[t loc]|e]; [|done].
  repeat case_match; simpl; try done.
  rewrite (list_fmap_alter _ _ (fun x => x)); [by rewrite list_alter_id|].
  by apply Forall_true.
Qed.

Lemma CreateTaskRequest_Validate_None req :
  CreateTaskRequest.Validate req = None ->
  ValidateTaskState (State (CreateTaskRequest.Task req)) = None /\
  validSize (CreateTaskRequest.Task req).
Proof.
  unfold CreateTaskRequest.Validate.
  destruct (ValidateTaskState _); [done|].
  destruct (NormalizeSize _) as [sz|] eqn:E; [|done].
  apply NormalizeSize_Ok in E as [_ ?]. done.
Qed.

Lemma NormalizeSize_valid size : 1 <= size <= 5 -> NormalizeSize size = Ok size.
Proof.
  intros H. unfold NormalizeSize.
  destruct (size <? 1) eqn:E1; [apply Z.ltb_lt in E1; lia|].
  destruct (5 <? size) eqn:E2; [apply Z.ltb_lt in E2; lia|]. done.
Qed.

Lemma CreateTask_exceeds newID req state idx :
  columnsValid (Categories state) ->
  let req' := CreateTaskRequest.Normalize req in
  CreateTaskRequest.Validate req' = None ->
  CreateTaskRequest.Location req' = LocationCategory ->
  findCategoryIndex (Categories state) (CreateTaskRequest.CategoryID req') = Some idx ->
  ColumnCapacity < sumSizes (Tasks (Categories state !!! idx)) + Size (CreateTaskRequest.Task req') ->
  CreateTask newID req state = (Err (Sentinel ErrCapacityExceeded), state).
Proof.
  intros Hcols req' Hval Hloc Hidx Hover. unfold CreateTask. fold req'. rewrite Hval.
  apply CreateTaskRequest_Validate_None in Hval as [Hstate Hsize].
  unfold insertTask. rewrite Hloc, String.eqb_refl, Hidx.
  set (t0 := CreateTaskRequest.Task req') in *.
  set (t1 := if String.eqb (ID t0) "" then set_ID newID t0 else t0).
  assert (Size t1 = Size t0 /\ State t1 = State t0) as [Hs1 Hst1]
    by (unfold t1; by destruct (String.eqb (ID t0) "")).
  unfold validSize in Hsize.
  assert ((Size t1 =? 0) = false) as -> by (apply Z.eqb_neq; lia).
  rewrite NormalizeSize_valid by lia. simpl State. rewrite Hst1, Hstate.
  pose proof (findCategoryIndex_lt _ _ _ Hidx) as Hlt.
  pose proof (lookup_total_Forall _ _ _ Hcols Hlt) as Hcat. simpl in Hcat.
  rewrite ensureCapacity_exceeded.
  - rewrite set_Tasks_set_Tasks, Tasks_set_Tasks.
    rewrite delete_insertAt by apply insertIndex_le.
    rewrite set_Tasks_Tasks, list_insert_id, set_Categories_Categories; [done|].
    by apply list_lookup_lookup_total_lt.
  - simpl. apply Forall_insertAt; [|done]. unfold validSize; simpl. lia.
  - unfold withinCapacity. simpl. rewrite sumSizes_insertAt. simpl. lia.
Qed.

Lemma MoveTaskRequest_category_destCopy dest :
  MoveTaskRequest.Location (MoveTaskRequest.Normalize dest) = LocationCategory ->
  (String.eqb (MoveTaskRequest.Location dest) LocationBackburner
   || String.eqb (MoveTaskRequest.Location dest) LocationArchive) = false.
Proof.
  unfold MoveTaskRequest.Normalize.
  destruct (String.eqb (MoveTaskRequest.Location dest) "") eqn:E.
  - apply String.eqb_eq in E. by rewrite E.
  - by intros ->.
Qed.

Lemma MoveTask_exceeds id dest state task loc idx :
  sizesValid state ->
  let dest' := MoveTaskRequest.Normalize dest in
  MoveTaskRequest.Validate dest' = None ->
  MoveTaskRequest.Location dest' = LocationCategory ->
  findTask state id = Ok (task, loc) ->
  findCategoryIndex (Categories state) (MoveTaskRequest.CategoryID dest') = Some idx ->
  ColumnCapacity
  < sumSizes (Tasks (Categories (snd (removeTask state id)) !!! idx)) + Size task ->
  fst (MoveTask id dest state) = Err (Sentinel ErrCapacityExceeded).
Proof.
  intros Hvalid dest' Hval Hloc Hfind Hidx Hover. unfold MoveTask.
  rewrite (MoveTaskRequest_category_destCopy _ Hloc). simpl andb. cbv iota.
  pose proof (CatID_removeTask state id) as Hids.
  destruct (removeTask_Ok _ _ _ _ Hfind) as [st Hst]. rewrite Hst in *. simpl in *.
  assert (columnsValid (Categories st)) as Hcols.
  { pose proof (sizesValid_columns _ Hvalid) as (Hc & _).
    replace st with (snd (removeTask state id)) by (by rewrite Hst).
    unfold removeTask. rewrite Hfind. unfold columnsValid in *.
    repeat case_match; simpl; try done.
    apply Forall_alter; [done|]. intros c _ Hcv. simpl. by apply Forall_delete. }
  apply findTask_Ok in Hfind as [_ Hlocd].
  pose proof (located_validSize _ _ _ _ Hvalid Hlocd) as Ht.
  rewrite (findCategoryIndex_CatID _ _ _ (eq_sym Hids)) in Hidx.
  pose proof (findCategoryIndex_lt _ _ _ Hidx) as Hlt.
  unfold placeTask. fold dest'. rewrite Hval, Hloc, String.eqb_refl, Hidx.
  set (u := if Urgent _ then _ else _).
  assert (exists v, u = normalizeUrgent st idx v) as [v Hu]
    by (unfold u; destruct (Urgent _); eauto).
  rewrite Hu. clear u Hu.
  assert (Tasks (Categories (normalizeUrgent st idx v) !!! idx)
          = (fun t => set_Urgent (String.eqb (ID t) v) t) <$> Tasks (Categories st !!! idx))
    as Htasks.
  { unfold normalizeUrgent; simpl.
    rewrite list_lookup_total_alter_eq by done. done. }
  rewrite ensureCapacity_exceeded; [done| |].
  - rewrite Tasks_set_Tasks, Htasks. apply Forall_insertAt; [done|].
    apply Forall_validSize_fmap; [done|]. by apply (lookup_total_Forall _ _ _ Hcols).
  - unfold withinCapacity.
    rewrite Tasks_set_Tasks, Htasks, sumSizes_insertAt, sumSizes_fmap by done.
    simpl. lia.
Qed.

Lemma MoveCategory_exceeds id dest state cat loc state' :
  sizesValid state ->
  MoveCategoryRequest.Location (MoveCategoryRequest.Normalize dest) = LocationCategoryBoard ->
  removeCategory state id = (Ok (cat, loc), state') ->
  (length (Categories state') < CategoryLimit)%nat ->
  ColumnCapacity < sumSizes (Tasks cat) ->
  MoveCategory id dest state = (Err (Sentinel ErrCapacityExceeded), state).
Proof.
  intros Hvalid Hboard Hrm Hroom Hover. unfold MoveCategory.
  assert (MoveCategoryRequest.Validate (MoveCategoryRequest.Normalize dest) = None) as ->.
  { unfold MoveCategoryRequest.Validate. by rewrite Hboard. }
  rewrite Hrm. apply removeCategory_Ok in Hrm.
  assert (Forall validSize (Tasks cat)) as Hcat.
  { apply sizesValid_columns in Hvalid as (Hc & Hcb & Hca & _).
    unfold columnsValid in *.
    destruct Hrm as [i H|i _ H|i _ _ H]; apply list_find_Some in H as (Hl & _).
    - exact (Forall_lookup_1 _ _ _ _ Hc Hl).
    - exact (Forall_lookup_1 _ _ _ _ Hcb Hl).
    - exact (Forall_lookup_1 _ _ _ _ Hca Hl). }
  unfold placeCategory. rewrite Hboard, String.eqb_refl.
  assert ((CategoryLimit <=? length (Categories state'))%nat = false) as ->
    by (apply Nat.leb_gt; lia).
  rewrite ensureCapacity_exceeded; [|done|unfold withinCapacity; lia].
  f_equal. by eapply restoreCategory_detached.
Qed.

(** The ceiling check comes first: with no place free on the board, the
    category is refused before its points are counted. *)
Lemma MoveCategory_no_place id dest state cat loc state' :
  MoveCategoryRequest.Location (MoveCategoryRequest.Normalize dest) = LocationCategoryBoard ->
  removeCategory state id = (Ok (cat, loc), state') ->
  (CategoryLimit <= length (Categories state'))%nat ->
  MoveCategory id dest state = (Err (Sentinel ErrCategoryLimit), state).
Proof.
  intros Hboard Hrm Hfull. unfold MoveCategory.
  assert (MoveCategoryRequest.Validate (MoveCategoryRequest.Normalize dest) = None) as ->.
  { unfold MoveCategoryRequest.Validate. by rewrite Hboard. }
  rewrite Hrm. apply removeCategory_Ok in Hrm.
  unfold placeCategory. rewrite Hboard, String.eqb_refl.
  apply Nat.leb_le in Hfull. rewrite Hfull.
  f_equal. by eapply restoreCategory_detached.
Qed.

(** C3 (as stated).  On a full board, a [MoveCategory] to the board of a
    parked category that carries six points is rejected by the ceiling
    check, which [placeCategory] runs before the capacity check: the
    error is [ErrCategoryLimit], not [ErrCapacityExceeded]. *)
Lemma overloaded_category_onto_full_board :
  sumSizes (Tasks (CategoryBackburner fullBoardOverloaded !!! 0%nat)) = 6 /\
  MoveCategory "cat6" ontoBoard fullBoardOverloaded
  = (Err (Sentinel ErrCategoryLimit), fullBoardOverloaded) /\
  Sentinel ErrCategoryLimit <> Sentinel ErrCapacityExceeded.
Proof. vm_compute. repeat split; discriminate. Qed.

(** C3 (amended).  From a board whose tasks all have a size in 1..5 and
    whose active columns each carry at most five points, every successful
    operation leads to a board whose active columns each carry at most
    five points.  An operation that would push a column above five
    points with nothing else in its way (a well-formed [CreateTask] or
    [MoveTask] into an existing active category, a [MoveCategory] onto a
    board that, without the category, holds fewer than five columns) is
    rejected with [ErrCapacityExceeded]; a [MoveCategory] to the board of
    a category above five points when the board, without the category,
    holds five columns or more is rejected with [ErrCategoryLimit], and
    the board is left as it was. *)
Theorem column_capacity_is_kept TrimSpace op state :
  sizesValid state -> capacityKept state ->
  (forall state', step TrimSpace op state = (None, state') -> capacityKept state') /\
  (exceedsCapacity op state ->
   fst (step TrimSpace op state) = Some (Sentinel ErrCapacityExceeded)) /\
  (overloadedOntoFullBoard op state ->
   step TrimSpace op state = (Some (Sentinel ErrCategoryLimit), state)).
Proof.
  intros Hvalid Hcap. split; [|split].
  - intros state'. by apply step_capacityKept.
  - pose proof (sizesValid_columns _ Hvalid) as (Hcols & _).
    destruct op; simpl; try done.
    + intros (Hval & Hloc & idx & Hidx & Hover).
      by rewrite (CreateTask_exceeds _ _ _ _ Hcols Hval Hloc Hidx Hover).
    + intros (Hval & Hloc & task & loc & idx & Hfind & Hidx & Hover).
      by rewrite (MoveTask_exceeds _ _ _ _ _ _ Hvalid Hval Hloc Hfind Hidx Hover).
    + intros (Hboard & cat & loc & st & Hrm & Hroom & Hover).
      by rewrite (MoveCategory_exceeds _ _ _ _ _ _ Hvalid Hboard Hrm Hroom Hover).
  - destruct op; simpl; try done.
    intros (Hboard & cat & loc & st & Hrm & Hfull & _).
    unfold outcome. by rewrite (MoveCategory_no_place _ _ _ _ _ _ Hboard Hrm Hfull).
Qed.

Lemma sampleBoard_sizesValid : sizesValid sampleBoard.
Proof. split; simpl; repeat constructor; unfold validSize; simpl; lia. Qed.

Lemma sampleBoard_capacityKept : capacityKept sampleBoard.
Proof. repeat constructor; unfold withinCapacity, ColumnCapacity; simpl; lia. Qed.

Lemma column_capacity_is_kept_witness :
  fst (step trimSpaceASCII (OpCreateTask "n1" onePointIntoFullColumn) sampleBoard)
  = Some (Sentinel ErrCapacityExceeded) /\
  capacityKept (snd (step trimSpaceASCII (OpMoveTask "t2" intoBackburner) sampleBoard)) /\
  step trimSpaceASCII (OpMoveCategory "cat6" ontoBoard) fullBoardOverloaded
  = (Some (Sentinel ErrCategoryLimit), fullBoardOverloaded).
Proof.
  split; [|split].
  - apply (column_capacity_is_kept trimSpaceASCII (OpCreateTask "n1" onePointIntoFullColumn)
             sampleBoard
             sampleBoard_sizesValid sampleBoard_capacityKept).
    simpl. split; [reflexivity|]. split; [reflexivity|].
    exists 1%nat. split; [reflexivity|]. vm_compute. reflexivity.
  - apply (column_capacity_is_kept trimSpaceASCII (OpMoveTask "t2" intoBackburner) sampleBoard
             sampleBoard_sizesValid sampleBoard_capacityKept).
    vm_compute. reflexivity.
  - apply (column_capacity_is_kept trimSpaceASCII (OpMoveCategory "cat6" ontoBoard)
             fullBoardOverloaded).
    + split; simpl; repeat constructor; unfold validSize; simpl; lia.
    + repeat constructor; unfold withinCapacity, ColumnCapacity; simpl; lia.
    + simpl. split; [reflexivity|].
      eexists _, _, _. split; [reflexivity|]. split; [vm_compute; lia|].
      vm_compute. reflexivity.
Defined.

(** ** What a failed operation leaves in memory *)

Lemma insertTask_error_state newID req state e state' :
  insertTask newID req state = (Err e, state') -> state' = state.
Proof.
  unfold insertTask.
  destruct (NormalizeSize _); [|by intros [= _ <-]].
  destruct (ValidateTaskState _); [by intros [= _ <-]|].
  destruct (String.eqb _ LocationCategory).
  - destruct (findCategoryIndex _ _) as [idx|] eqn:Eidx; [|by intros [= _ <-]].
    destruct (ensureCapacity _); [|by repeat case_match].
    intros [= _ <-].
    rewrite ?set_Tasks_set_Tasks, ?Tasks_set_Tasks.
    rewrite delete_insertAt by apply insertIndex_le.
    rewrite set_Tasks_Tasks, list_insert_id, set_Categories_Categories; [done|].
    by eapply findCategoryIndex_lookup_total.
  - repeat case_match; intros; by simplify_eq.
Qed.

Lemma CreateTask_error_state newID req state e state' :
  CreateTask newID req state = (Err e, state') -> state' = state.
Proof.
  unfold CreateTask. case_match; [by intros [= _ <-]|]. apply insertTask_error_state.
Qed.

Lemma DeleteTask_error_state id state e state' :
  DeleteTask id state = (Err e, state') -> state' = state.
Proof.
  unfold DeleteTask.
  destruct (findTask state id) as [[t loc]|e'] eqn:Hfind; [|by intros [= _ <-]].
  case_match; [by intros [= _ <-]|].
  destruct (removeTask_Ok _ _ _ _ Hfind) as [st ->]. done.
Qed.

Lemma ReorderCategoryTasks_error_state id order state e state' :
  ReorderCategoryTasks id order state = (Err e, state') -> state' = state.
Proof. unfold ReorderCategoryTasks. repeat case_match; intros; by simplify_eq. Qed.

Lemma SetFocused_error_state id state e state' :
  SetFocused id state = (Err e, state') -> state' = state.
Proof. unfold SetFocused. repeat case_match; intros; by simplify_eq. Qed.

Lemma RenameCategory_error_state TrimSpace id name state e state' :
  RenameCategory TrimSpace id name state = (Err e, state') -> state' = state.
Proof. unfold RenameCategory. repeat case_match; intros; by simplify_eq. Qed.

Lemma alter_out_of_range {A : Type} (f : A -> A) (l : list A) i :
  (length l <= i)%nat -> alter f i l = l.
Proof.
  intros Hi. rewrite <- (firstn_all (alter f i l)), length_alter.
  rewrite take_alter_ge by done. apply firstn_all.
Qed.

Lemma restoreTask_removeTask state id t loc :
  findTask state id = Ok (t, loc) ->
  restoreTask (snd (removeTask state id)) t loc = state.
Proof.
  intros Hfind.
  pose proof (restoreTask_normalizeUrgent_removeTask
                state id t loc (length (Categories state)) "" Hfind) as H.
  assert (forall st, length (Categories st) = length (Categories state) ->
                     normalizeUrgent st (length (Categories state)) "" = st) as Hid.
  { intros st Hlen. unfold normalizeUrgent.
    rewrite alter_out_of_range by lia. apply set_Categories_Categories. }
  rewrite !Hid in H by (by rewrite ?length_Categories_removeTask). rewrite H.
  apply findTask_Ok in Hfind as [_ Hloc].
  destruct Hloc as [ci ti c Hc Ht _ _|i _ Ht _|i _ _ Ht _];
    unfold setTaskAt; simpl; destruct state as [cats bb ar cb ca]; simpl in *.
  - unfold set_Categories; simpl. f_equal.
    apply list_eq. intros j. rewrite list_lookup_alter. case_decide; [subst|done].
    rewrite Hc. simpl. f_equal. rewrite list_insert_id by done. by destruct c.
  - unfold set_Backburner; simpl. by rewrite list_insert_id.
  - unfold set_Archives; simpl. by rewrite list_insert_id.
Qed.

(** A [MoveTask] that fails for another reason than capacity leaves the
    board as it was. *)
Lemma MoveTask_error_state id dest state e state' :
  MoveTask id dest state = (Err e, state') ->
  e <> Sentinel ErrCapacityExceeded -> state' = state.
Proof.
  unfold MoveTask. intros H Hne.
  destruct (findTask state id) as [[t loc]|e'] eqn:Hfind.
  2:{ rewrite removeTask_Err in H by eauto. by simplify_eq. }
  pose proof (restoreTask_removeTask _ _ _ _ Hfind) as Hrestore.
  destruct (removeTask_Ok _ _ _ _ Hfind) as [st Hst]. rewrite Hst in *. simpl in *.
  match type of H with
  | context [placeTask t ?d st] => destruct (placeTask t d st) as [[e1|] st'] eqn:Hplace
  end; [|done].
  injection H as -> <-.
  by apply placeTask_error in Hplace as [[_ ->]|[? _]].
Qed.

(** Seven of the nine operations, and [MoveTask] for every error but
    [ErrCapacityExceeded], are all-or-nothing. *)
Lemma failed_step_leaves_board TrimSpace op state e state' :
  step TrimSpace op state = (Some e, state') ->
  match op with
  | OpUpdateTask _ _ => True
  | OpMoveTask _ _ => e <> Sentinel ErrCapacityExceeded -> state' = state
  | _ => state' = state
  end.
Proof.
  destruct op; simpl; unfold outcome;
    match goal with |- context [result_error (fst ?r)] => destruct r as [[x|e0] st] eqn:Hop end;
    simpl; intros [= <- <-]; try done.
  - by eapply CreateTask_error_state.
  - by eapply MoveTask_error_state.
  - by eapply DeleteTask_error_state.
  - by eapply CreateCategory_error_state.
  - by eapply RenameCategory_error_state.
  - by eapply MoveCategory_error_state.
  - by eapply ReorderCategoryTasks_error_state.
  - by eapply SetFocused_error_state.
Qed.

(** C1. Two failing calls that leave their writes in memory.
    [UpdateTask] writes the patch through the task pointer before it
    checks the capacity and never undoes it: a size patch refused with
    [ErrCapacityExceeded] stays applied (the column of five points now
    carries seven).  [MoveTask] normalizes the urgent flags of the
    destination before the capacity check and restores only the moved
    task: the urgent task of the destination has lost its flag. *)
Theorem failed_UpdateTask_and_MoveTask_change_the_board :
  (fst (UpdateTask "t1" sizeFivePatch sampleBoard) = Err (Sentinel ErrCapacityExceeded) /\
   snd (UpdateTask "t1" sizeFivePatch sampleBoard) <> sampleBoard /\
   (Size <$> Tasks (Categories sampleBoard !!! 0%nat) = [3; 2]) /\
   Size <$> Tasks (Categories (snd (UpdateTask "t1" sizeFivePatch sampleBoard)) !!! 0%nat)
   = [5; 2]) /\
  (fst (MoveTask "t2" intoFullColumn sampleBoard) = Err (Sentinel ErrCapacityExceeded) /\
   snd (MoveTask "t2" intoFullColumn sampleBoard) <> sampleBoard /\
   (Urgent <$> Tasks (Categories sampleBoard !!! 1%nat) = [true]) /\
   Urgent <$> Tasks (Categories (snd (MoveTask "t2" intoFullColumn sampleBoard)) !!! 1%nat)
   = [false]).
Proof. vm_compute. repeat split; discriminate. Qed.

(** ** Focus after SetFocused *)

Lemma focusedTasks_cleared ts : focusedTasks (set_Focused false <$> ts) = [].
Proof.
  unfold focusedTasks. induction ts as [|t ts IH]; [done|].
  rewrite fmap_cons, filter_cons_False; [done|]. simpl. discriminate.
Qed.

Lemma focusedTasks_cleared_columns cats :
  focusedTasks (concat (Tasks <$> (clearCategoryFocus <$> cats))) = [].
Proof.
  unfold focusedTasks. induction cats as [|c cats IH]; [done|].
  rewrite !fmap_cons. simpl. rewrite filter_app, IH, app_nil_r.
  apply focusedTasks_cleared.
Qed.

Lemma focusedTasks_insert ts i t :
  focusedTasks ts = [] -> (i < length ts)%nat -> Focused t = true ->
  focusedTasks (<[i := t]> ts) = [t].
Proof.
  unfold focusedTasks. intros Hnone Hi Ht.
  rewrite insert_take_drop by done.
  rewrite <- (take_drop i ts), filter_app in Hnone.
  apply app_eq_nil in Hnone as [Htake Hdrop].
  rewrite filter_app, Htake, filter_cons_True by done. simpl. f_equal.
  destruct (drop i ts) as [|x rest] eqn:E.
  { apply (f_equal length) in E. rewrite length_drop in E. simpl in E. lia. }
  assert (drop 1 (drop i ts) = drop (S i) ts) as Hd
    by (rewrite drop_drop; f_equal; lia).
  rewrite E in Hd. simpl in Hd. rewrite <- Hd.
  rewrite filter_cons in Hdrop. by case_decide.
Qed.

Lemma focusedTasks_alter_column (f : Category -> Category) cats ci c :
  cats !! ci = Some c ->
  focusedTasks (concat (Tasks <$> cats)) = [] ->
  focusedTasks (concat (Tasks <$> alter f ci cats)) = focusedTasks (Tasks (f c)).
Proof.
  unfold focusedTasks. revert ci. induction cats as [|c0 cats IH]; intros ci Hc Hnone; [done|].
  rewrite fmap_cons in Hnone. simpl in Hnone. rewrite filter_app in Hnone.
  apply app_eq_nil in Hnone as [H0 Hrest].
  destruct ci as [|ci].
  - simpl in Hc. simplify_eq. change (alter f 0%nat (c :: cats)) with (f c :: cats).
    rewrite fmap_cons. simpl. by rewrite filter_app, Hrest, app_nil_r.
  - change (alter f (S ci) (c0 :: cats)) with (c0 :: alter f ci cats).
    rewrite fmap_cons. simpl. rewrite filter_app, H0. simpl. by apply IH.
Qed.

(** [SetFocused] on a task found in an active column: afterwards that
    task, with its flag set, is the only focused task of the board, and
    it sits at its address in the column. *)
Lemma SetFocused_category_task id state t ci ti :
  id <> "" ->
  findTask state id = Ok (t, mkTaskLocation LocationCategory ci ti) ->
  exists state',
    SetFocused id state = (Ok (set_Focused true t), state') /\
    taskAt state' (mkTaskLocation LocationCategory ci ti) = Some (set_Focused true t) /\
    focusedTasks (boardTasks state') = [set_Focused true t] /\
    focusedTasks (offBoardTasks state') = [].
Proof.
  intros Hne Hfind. unfold SetFocused.
  apply String.eqb_neq in Hne. rewrite Hne, Hfind.
  apply findTask_Ok in Hfind as [_ Hloc]. inversion Hloc as [? ? c Hc Ht _ _| |]; subst.
  assert (taskAt (clearFocus state) (mkTaskLocation LocationCategory ci ti)
          = Some (set_Focused false t)) as Hat.
  { unfold taskAt, clearFocus; simpl.
    rewrite list_lookup_fmap, Hc. simpl. by rewrite list_lookup_fmap, Ht. }
  rewrite Hat. simpl default.
  assert (set_Focused true (set_Focused false t) = set_Focused true t) as -> by done.
  rewrite Task_Clone_id. eexists. split; [reflexivity|].
  unfold taskAt, setTaskAt, boardTasks, offBoardTasks, clearFocus; simpl.
  assert ((clearCategoryFocus <$> Categories state) !! ci = Some (clearCategoryFocus c)) as Hc'
    by (by rewrite list_lookup_fmap, Hc).
  assert (ti < length (set_Focused false <$> Tasks c))%nat as Hti
    by (rewrite length_fmap; by eapply lookup_lt_Some).
  split; [|split].
  - rewrite list_lookup_alter_eq, Hc'. simpl. by apply list_lookup_insert_eq.
  - rewrite (focusedTasks_alter_column _ _ _ _ Hc' (focusedTasks_cleared_columns _)).
    simpl. apply focusedTasks_insert; [apply focusedTasks_cleared|done|done].
  - unfold focusedTasks. rewrite !filter_app.
    fold (focusedTasks (set_Focused false <$> Backburner state)).
    fold (focusedTasks (set_Focused false <$> Archives state)).
    fold (focusedTasks (concat (Tasks <$> (clearCategoryFocus <$> CategoryBackburner state)))).
    fold (focusedTasks (concat (Tasks <$> (clearCategoryFocus <$> CategoryArchives state)))).
    by rewrite !focusedTasks_cleared, !focusedTasks_cleared_columns.
Qed.

(** C2. [SetFocused] takes the task pointer from [findTask], which also
    scans [Backburner] and [Archives], and sets its flag without looking
    at the address: called with the identifier of a backburner task, it
    succeeds and leaves the focused task in [Backburner]. *)
Theorem SetFocused_focuses_a_backburner_task :
  result_error (fst (SetFocused "b1" sampleBoard)) = None /\
  Focused <$> Backburner (snd (SetFocused "b1" sampleBoard)) = [true] /\
  Categories (snd (SetFocused "b1" sampleBoard)) = Categories sampleBoard /\
  Forall (fun c => Forall (fun t => Focused t = false) (Tasks c))
         (Categories (snd (SetFocused "b1" sampleBoard))).
Proof. vm_compute. repeat split; repeat constructor. Qed.

(** ** Urgent flags after UpdateTask *)

(** The column of a patched task after [UpdateTask], whether the capacity
    check then passes or not: the patched task is written at its address
    and every task of the column gets [Urgent = (ID == u)], where [u] is
    the patched task's identifier when it is urgent and the empty string
    otherwise. *)
Lemma UpdateTask_column id patch state t ci ti t' :
  findTask state id = Ok (t, mkTaskLocation LocationCategory ci ti) ->
  TaskPatch.Apply patch t = (None, t') ->
  Tasks (Categories (snd (UpdateTask id patch state)) !!! ci)
  = (fun x => set_Urgent (String.eqb (ID x) (urgentIDOf t')) x)
      <$> <[ti := t']> (Tasks (Categories state !!! ci)).
Proof.
  intros Hfind Happly. unfold UpdateTask. rewrite Hfind, Happly. simpl.
  apply findTask_Ok in Hfind as [_ Hloc]. inversion Hloc as [? ? c Hc Ht _ _| |]; subst.
  assert (exists st,
            (if Urgent t'
             then normalizeUrgent (setTaskAt (mkTaskLocation LocationCategory ci ti) t' state)
                                  ci (ID t')
             else normalizeUrgent (setTaskAt (mkTaskLocation LocationCategory ci ti) t' state)
                                  ci "") = st /\
            Tasks (Categories st !!! ci)
            = (fun x => set_Urgent (String.eqb (ID x) (urgentIDOf t')) x)
                <$> <[ti := t']> (Tasks (Categories state !!! ci))) as (st & -> & Hst).
  { eexists. split; [reflexivity|].
    unfold urgentIDOf, normalizeUrgent, setTaskAt. simpl.
    rewrite (list_lookup_total_correct _ _ _ Hc).
    destruct (Urgent t'); simpl;
      erewrite list_lookup_total_correct;
      try (rewrite !list_lookup_alter_eq, Hc; reflexivity); done. }
  by destruct (ensureCapacity _).
Qed.

(** In particular, when the patched task is not urgent, no task of the
    column with a non-empty identifier is urgent afterwards. *)
Lemma UpdateTask_non_urgent_clears_column id patch state t ci ti t' :
  findTask state id = Ok (t, mkTaskLocation LocationCategory ci ti) ->
  TaskPatch.Apply patch t = (None, t') ->
  Urgent t' = false ->
  Forall (fun x => ID x <> "" -> Urgent x = false)
         (Tasks (Categories (snd (UpdateTask id patch state)) !!! ci)).
Proof.
  intros Hfind Happly Hurgent.
  rewrite (UpdateTask_column _ _ _ _ _ _ _ Hfind Happly).
  unfold urgentIDOf. rewrite Hurgent.
  apply Forall_fmap, Forall_forall. intros x _ Hne. simpl.
  by apply String.eqb_neq.
Qed.

(** C4. [UpdateTask] calls [normalizeUrgent] with the empty identifier
    when the patched task is not urgent, which clears the urgent flag of
    every task of the column: renaming the non-urgent task [t2] clears
    the urgent flag of its neighbour [t1]. *)
Theorem UpdateTask_of_a_non_urgent_task_clears_other_urgent_flags :
  result_error (fst (UpdateTask "t2" renamePatch sampleBoard)) = None /\
  (ID <$> Tasks (Categories sampleBoard !!! 0%nat) = ["t1"; "t2"]) /\
  (Urgent <$> Tasks (Categories sampleBoard !!! 0%nat) = [true; false]) /\
  Urgent <$> Tasks (Categories (snd (UpdateTask "t2" renamePatch sampleBoard)) !!! 0%nat)
  = [false; false].
Proof. vm_compute. repeat split. Qed.

(** * The address of a task depends on the identifiers only *)

Lemma Forall_ID_fmap id (ts : list Task) :
  Forall (fun t => ID t <> id) ts <-> id ∉ ID <$> ts.
Proof.
  rewrite Forall_forall. split.
  - intros H (t & Hid & Hin)%list_elem_of_fmap. by apply (H t Hin).
  - intros H t Hin Hid. apply H. apply list_elem_of_fmap. by exists t.
Qed.

Lemma absentFrom_skeleton id cats :
  absentFrom id cats <-> Forall (fun ids => id ∉ ids) ((fun c => ID <$> Tasks c) <$> cats).
Proof.
  unfold absentFrom. rewrite Forall_fmap. apply Forall_proper; [|done].
  intros c. simpl. apply Forall_ID_fmap.
Qed.

Lemma absentFrom_take_skeleton id n cats cats' :
  (fun c => ID <$> Tasks c) <$> cats = (fun c => ID <$> Tasks c) <$> cats' ->
  absentFrom id (take n cats) -> absentFrom id (take n cats').
Proof.
  intros Heq. rewrite !absentFrom_skeleton, !fmap_take, Heq. done.
Qed.

Lemma Forall_ID_take_skeleton id n (ts ts' : list Task) :
  ID <$> ts = ID <$> ts' ->
  Forall (fun t => ID t <> id) (take n ts) -> Forall (fun t => ID t <> id) (take n ts').
Proof.
  intros Heq. rewrite !Forall_ID_fmap, !fmap_take, Heq. done.
Qed.

Lemma lookup_ID_skeleton (ts ts' : list Task) i t :
  ID <$> ts = ID <$> ts' -> ts !! i = Some t ->
  exists t', ts' !! i = Some t' /\ ID t' = ID t.
Proof.
  intros Heq Ht.
  assert ((ID <$> ts') !! i = Some (ID t)) as H.
  { rewrite <- Heq, list_lookup_fmap, Ht. done. }
  rewrite list_lookup_fmap in H.
  destruct (ts' !! i) as [t'|]; [|done]. exists t'. by simplify_eq/=.
Qed.

Lemma located_skeleton s1 s2 id t loc :
  idSkeleton s1 = idSkeleton s2 ->
  located s1 id t loc ->
  exists t', located s2 id t' loc /\ ID t' = ID t.
Proof.
  unfold idSkeleton. intros [= Hc Hb Ha] Hloc.
  destruct Hloc as [ci ti c Hci Hti Habs Hpre|i Habs Hi Hpre|i Habs Hbb Hi Hpre].
  - assert (((fun c => ID <$> Tasks c) <$> Categories s2) !! ci = Some (ID <$> Tasks c)) as H.
    { rewrite <- Hc, list_lookup_fmap, Hci. done. }
    rewrite list_lookup_fmap in H.
    destruct (Categories s2 !! ci) as [c2|] eqn:Hc2; [|done]. simpl in H.
    injection H as H.
    destruct (lookup_ID_skeleton _ _ _ _ (eq_sym H) Hti) as (t' & Ht' & Hid).
    exists t'. split; [|done].
    eapply located_category; [exact Hc2|exact Ht'| |].
    + by eapply absentFrom_take_skeleton.
    + eapply Forall_ID_take_skeleton; [|exact Hpre]. done.
  - destruct (lookup_ID_skeleton _ _ _ _ Hb Hi) as (t' & Ht' & Hid).
    exists t'. split; [|done].
    apply located_backburner; [|done|].
    + rewrite absentFrom_skeleton, <- Hc, <- absentFrom_skeleton. done.
    + by eapply Forall_ID_take_skeleton.
  - destruct (lookup_ID_skeleton _ _ _ _ Ha Hi) as (t' & Ht' & Hid).
    exists t'. split; [|done].
    apply located_archive; [| |done|].
    + rewrite absentFrom_skeleton, <- Hc, <- absentFrom_skeleton. done.
    + rewrite Forall_ID_fmap, <- Hb, <- Forall_ID_fmap. done.
    + by eapply Forall_ID_take_skeleton.
Qed.

(** Two boards with the same identifiers at the same places resolve an
    identifier to the same address. *)
Lemma findTask_skeleton s1 s2 id t loc :
  idSkeleton s1 = idSkeleton s2 ->
  findTask s1 id = Ok (t, loc) ->
  exists t', findTask s2 id = Ok (t', loc) /\ taskAt s2 loc = Some t'.
Proof.
  intros Heq [Hid Hloc]%findTask_Ok.
  destruct (located_skeleton _ _ _ _ _ Heq Hloc) as (t' & Hloc' & Hid').
  exists t'. split; [|by eapply located_taskAt].
  apply findTask_Ok. split; [congruence|done].
Qed.

Lemma findTask_skeleton_Err s1 s2 id e :
  idSkeleton s1 = idSkeleton s2 ->
  findTask s1 id = Err e -> findTask s2 id = Err e.
Proof.
  unfold idSkeleton. intros [= Hc Hb Ha] (-> & H1 & H2 & H3)%findTask_Err.
  apply findTask_Err. split; [done|]. split; [|split].
  - rewrite absentFrom_skeleton, <- Hc, <- absentFrom_skeleton. done.
  - rewrite Forall_ID_fmap, <- Hb, <- Forall_ID_fmap. done.
  - rewrite Forall_ID_fmap, <- Ha, <- Forall_ID_fmap. done.
Qed.

Lemma ID_fmap_flags (f : Task -> Task) (ts : list Task) :
  (forall t, ID (f t) = ID t) -> ID <$> (f <$> ts) = ID <$> ts.
Proof.
  intros H. rewrite <- list_fmap_compose. apply list_fmap_ext. intros _ t _. apply H.
Qed.

Lemma skeleton_fmap_columns (f : Category -> Category) (cats : list Category) :
  (forall c, ID <$> Tasks (f c) = ID <$> Tasks c) ->
  (fun c => ID <$> Tasks c) <$> (f <$> cats) = (fun c => ID <$> Tasks c) <$> cats.
Proof.
  intros H. rewrite <- list_fmap_compose. apply list_fmap_ext. intros _ c _. apply H.
Qed.

Lemma skeleton_alter_columns (f : Category -> Category) i (cats : list Category) :
  (forall c, ID <$> Tasks (f c) = ID <$> Tasks c) ->
  (fun c => ID <$> Tasks c) <$> alter f i cats = (fun c => ID <$> Tasks c) <$> cats.
Proof.
  intros H. rewrite (list_fmap_alter _ f (fun x => x)).
  - by rewrite list_alter_id.
  - apply Forall_forall. intros c _. apply H.
Qed.

Lemma idSkeleton_normalizeUrgent state idx u :
  idSkeleton (normalizeUrgent state idx u) = idSkeleton state.
Proof.
  unfold idSkeleton, normalizeUrgent. simpl. f_equal. f_equal.
  apply skeleton_alter_columns. intros c. simpl. by apply ID_fmap_flags.
Qed.

Lemma idSkeleton_normalizeFocus state id :
  idSkeleton (normalizeFocus state id) = idSkeleton state.
Proof.
  unfold idSkeleton, normalizeFocus. simpl. f_equal; [f_equal|].
  - apply skeleton_fmap_columns. intros c. simpl. by apply ID_fmap_flags.
  - by apply ID_fmap_flags.
  - by apply ID_fmap_flags.
Qed.

Lemma idSkeleton_clearFocus state : idSkeleton (clearFocus state) = idSkeleton state.
Proof.
  unfold idSkeleton, clearFocus. simpl. f_equal; [f_equal|].
  - apply skeleton_fmap_columns. intros c. simpl. by apply ID_fmap_flags.
  - by apply ID_fmap_flags.
  - by apply ID_fmap_flags.
Qed.

(** * The save *)

Lemma withWrite_Ok {A : Type} saveLocked (lockFn : BoardState -> result A * BoardState)
      state a state' :
  lockFn state = (Ok a, state') ->
  withWrite saveLocked lockFn state = (afterSave saveLocked a state', state').
Proof.
  intros H. unfold withWrite, afterSave. rewrite H. by destruct (saveLocked state').
Qed.

Lemma withWrite_Err {A : Type} saveLocked (lockFn : BoardState -> result A * BoardState)
      state e state' :
  lockFn state = (Err e, state') ->
  withWrite saveLocked lockFn state = (Err e, state').
Proof. intros H. unfold withWrite. by rewrite H. Qed.

(** The board in memory does not depend on the save. *)
Lemma withWrite_state {A : Type} saveLocked (lockFn : BoardState -> result A * BoardState)
      state :
  snd (withWrite saveLocked lockFn state) = snd (lockFn state).
Proof.
  unfold withWrite. destruct (lockFn state) as [[a|e] state']; [|done].
  by destruct (saveLocked state').
Qed.

(** A method that succeeds: its closure succeeded and the board is
    saved. *)
Lemma withWrite_Ok_inv {A : Type} saveLocked (lockFn : BoardState -> result A * BoardState)
      state a state' :
  withWrite saveLocked lockFn state = (Ok a, state') ->
  lockFn state = (Ok a, state') /\ saveLocked state' = None.
Proof.
  unfold withWrite. destruct (lockFn state) as [[a0|e] st]; [|done].
  destruct (saveLocked st) eqn:E; [done|]. by intros [= <- <-].
Qed.

(** * Creating a task *)

Lemma ValidateTaskState_allowed st :
  ValidateTaskState st = None <-> st ∈ allowedStates.
Proof.
  unfold ValidateTaskState. case_bool_decide; split; try done.
Qed.

Lemma NormalizeSize_invalid size :
  ~ 1 <= size <= 5 -> NormalizeSize size = Err (Sentinel ErrInvalidTaskSize).
Proof.
  intros H. unfold NormalizeSize.
  destruct (size <? 1) eqn:E1; [done|].
  destruct (5 <? size) eqn:E2; [done|].
  apply Z.ltb_ge in E1, E2. lia.
Qed.

Lemma CreateTaskRequest_Normalize_Task req :
  CreateTaskRequest.Task (CreateTaskRequest.Normalize req) = CreateTaskRequest.Task req.
Proof. unfold CreateTaskRequest.Normalize. by case_match. Qed.

Lemma set_Size_Size t : set_Size (Size t) t = t.
Proof. by destruct t. Qed.

Lemma set_ID_ID t : set_ID (ID t) t = t.
Proof. by destruct t. Qed.

(** The task [insertTask] works on once the request has passed
    [Validate]: the identifier filled in, the size as requested. *)
Lemma insertTask_validated newID req state :
  CreateTaskRequest.Validate req = None ->
  let task := set_ID (createdID newID req) (CreateTaskRequest.Task req) in
  insertTask newID req state
  = if String.eqb (CreateTaskRequest.Location req) LocationCategory then
      match findCategoryIndex (Categories state) (CreateTaskRequest.CategoryID req) with
      | None => (Err (Sentinel ErrCategoryNotFound), state)
      | Some idx =>
        let cat := Categories state !!! idx in
        let i := insertIndex (CreateTaskRequest.Position req) (length (Tasks cat)) in
        let cat := set_Tasks (insertAt i task (Tasks cat)) cat in
        match ensureCapacity cat with
        | Some e => (Err e, set_Categories
                              (<[idx := set_Tasks (delete i (Tasks cat)) cat]>
                                 (Categories state)) state)
        | None =>
          let state := set_Categories (<[idx := cat]> (Categories state)) state in
          let state := if Urgent task then normalizeUrgent state idx (ID task) else state in
          let state := if Focused task then normalizeFocus state (ID task) else state in
          (Ok task, state)
        end
      end
    else if String.eqb (CreateTaskRequest.Location req) LocationBackburner then
      let task := set_Focused false (set_Urgent false task) in
      (Ok task, set_Backburner (Backburner state ++ [task]) state)
    else
      let task := set_Focused false (set_Urgent false task) in
      (Ok task, set_Archives (Archives state ++ [task]) state).
Proof.
  intros Hv. pose proof (CreateTaskRequest_Validate_None _ Hv) as [Hst Hsz].
  unfold validSize in Hsz.
  unfold insertTask, createdID.
  set (t0 := CreateTaskRequest.Task req) in *.
  assert ((if String.eqb (ID t0) "" then set_ID newID t0 else t0)
          = set_ID (if String.eqb (ID t0) "" then newID else ID t0) t0) as ->.
  { destruct (String.eqb (ID t0) ""); [done|by rewrite set_ID_ID]. }
  set (t1 := set_ID _ t0).
  assert (Size t1 = Size t0) as Hs1 by done.
  assert (State t1 = State t0) as Hst1 by done.
  destruct (Size t1 =? 0) eqn:E0; [apply Z.eqb_eq in E0; lia|].
  rewrite NormalizeSize_valid by lia.
  rewrite set_Size_Size, Hst1, Hst.
  rewrite !Task_Clone_id.
  unfold CreateTaskRequest.Validate in Hv. fold t0 in Hv. rewrite Hst in Hv.
  rewrite NormalizeSize_valid in Hv by lia.
  destruct (String.eqb (CreateTaskRequest.Location req) LocationCategory); [done|].
  destruct (String.eqb (CreateTaskRequest.Location req) LocationBackburner); [done|].
  destruct (String.eqb (CreateTaskRequest.Location req) LocationArchive); [done|].
  done.
Qed.

(** X1. [CreateTask] validates the request before [insertTask] runs, so
    the default [insertTask] has for an omitted size (0 becomes 1) is
    never applied: a size outside 1..5, 0 included, is refused with
    [ErrInvalidTaskSize] and the board is untouched, and a created task
    always carries the size and the state of the request. *)
Theorem CreateTask_never_defaults_the_size newID req state :
  (State (CreateTaskRequest.Task req) ∈ allowedStates ->
   ~ 1 <= Size (CreateTaskRequest.Task req) <= 5 ->
   CreateTask newID req state = (Err (Sentinel ErrInvalidTaskSize), state)) /\
  (forall t state',
     CreateTask newID req state = (Ok t, state') ->
     Size t = Size (CreateTaskRequest.Task req) /\ 1 <= Size t <= 5 /\
     State t = State (CreateTaskRequest.Task req) /\ State t ∈ allowedStates).
Proof.
  split.
  - intros Hst Hsz. unfold CreateTask, CreateTaskRequest.Validate.
    rewrite CreateTaskRequest_Normalize_Task.
    apply ValidateTaskState_allowed in Hst. rewrite Hst.
    by rewrite NormalizeSize_invalid.
  - intros t state'. unfold CreateTask.
    destruct (CreateTaskRequest.Validate _) eqn:Hv; [done|].
    pose proof (CreateTaskRequest_Validate_None _ Hv) as [Hst Hsz].
    rewrite CreateTaskRequest_Normalize_Task in Hst, Hsz.
    apply ValidateTaskState_allowed in Hst. unfold validSize in Hsz.
    rewrite (insertTask_validated _ _ _ Hv). cbv zeta.
    rewrite CreateTaskRequest_Normalize_Task.
    repeat case_match; intros [= <- _]; done.
Qed.

Lemma CreateTask_never_defaults_the_size_witness :
  CreateTask "n1" sizeZeroRequest sampleBoard
  = (Err (Sentinel ErrInvalidTaskSize), sampleBoard).
Proof.
  apply (proj1 (CreateTask_never_defaults_the_size "n1" sizeZeroRequest sampleBoard)).
  - vm_compute. set_solver.
  - simpl. lia.
Defined.

(** The closure of [CreateTask] on a valid request for [Backburner] or
    [Archives]. *)
Lemma CreateTask_parks newID req state :
  State (CreateTaskRequest.Task req) ∈ allowedStates ->
  1 <= Size (CreateTaskRequest.Task req) <= 5 ->
  let task := set_Focused false (set_Urgent false
                (set_ID (createdID newID req) (CreateTaskRequest.Task req))) in
  (CreateTaskRequest.Location req = LocationBackburner ->
   CreateTask newID req state
   = (Ok task, set_Backburner (Backburner state ++ [task]) state)) /\
  (CreateTaskRequest.Location req = LocationArchive ->
   CreateTask newID req state
   = (Ok task, set_Archives (Archives state ++ [task]) state)).
Proof.
  intros Hst Hsz task.
  apply ValidateTaskState_allowed in Hst.
  assert (forall loc, CreateTaskRequest.Location req = loc ->
                      loc = LocationBackburner \/ loc = LocationArchive ->
                      CreateTaskRequest.Normalize req = req /\
                      CreateTaskRequest.Validate req = None) as Hreq.
  { intros loc Hloc Hor. unfold CreateTaskRequest.Normalize, CreateTaskRequest.Validate.
    rewrite Hst, NormalizeSize_valid, Hloc by done.
    destruct Hor as [-> | ->]; done. }
  split; intros Hloc.
  - destruct (Hreq _ Hloc) as [Hn Hv]; [by left|].
    unfold CreateTask. rewrite Hn, Hv, (insertTask_validated _ _ _ Hv), Hloc. done.
  - destruct (Hreq _ Hloc) as [Hn Hv]; [by right|].
    unfold CreateTask. rewrite Hn, Hv, (insertTask_validated _ _ _ Hv), Hloc. done.
Qed.

(** X2. A valid [CreateTask] for [Backburner] or [Archives] is never
    refused by the engine: there is no capacity check, the position and
    the category of the request are ignored, and the task is appended in
    memory with its urgent and focused flags cleared.  The method
    returns the task stored, unless the save that follows fails: then it
    returns the error of the save, and the task stays in memory. *)
Theorem CreateTask_outside_the_board saveLocked newID req state :
  State (CreateTaskRequest.Task req) ∈ allowedStates ->
  1 <= Size (CreateTaskRequest.Task req) <= 5 ->
  let task := set_Focused false (set_Urgent false
                (set_ID (createdID newID req) (CreateTaskRequest.Task req))) in
  (CreateTaskRequest.Location req = LocationBackburner ->
   let board := set_Backburner (Backburner state ++ [task]) state in
   withWrite saveLocked (CreateTask newID req) state
   = (afterSave saveLocked task board, board)) /\
  (CreateTaskRequest.Location req = LocationArchive ->
   let board := set_Archives (Archives state ++ [task]) state in
   withWrite saveLocked (CreateTask newID req) state
   = (afterSave saveLocked task board, board)).
Proof.
  intros Hst Hsz task.
  destruct (CreateTask_parks newID req state Hst Hsz) as [Hb Ha].
  split; intros Hloc board; apply withWrite_Ok; auto.
Qed.

Lemma CreateTask_outside_the_board_witness :
  withWrite diskOK (CreateTask "n1" parkedRequest) sampleBoard
  = (Ok (mkTask "n1" "later" "" "" "todo" 5 [] [] false false "" ""),
     set_Backburner
       (Backburner sampleBoard ++ [mkTask "n1" "later" "" "" "todo" 5 [] [] false false "" ""])
       sampleBoard) /\
  withWrite diskFull (CreateTask "n1" parkedRequest) sampleBoard
  = (Err (Errorf "write temp file: no space left on device"),
     set_Backburner
       (Backburner sampleBoard ++ [mkTask "n1" "later" "" "" "todo" 5 [] [] false false "" ""])
       sampleBoard).
Proof.
  split.
  - apply (proj1 (CreateTask_outside_the_board diskOK "n1" parkedRequest sampleBoard
                    ltac:(vm_compute; set_solver) ltac:(simpl; lia))).
    reflexivity.
  - apply (proj1 (CreateTask_outside_the_board diskFull "n1" parkedRequest sampleBoard
                    ltac:(vm_compute; set_solver) ltac:(simpl; lia))).
    reflexivity.
Defined.

Lemma set_Urgent_Urgent t b : Urgent t = b -> set_Urgent b t = t.
Proof. intros <-. by destruct t. Qed.

Lemma set_Focused_Focused t b : Focused t = b -> set_Focused b t = t.
Proof. intros <-. by destruct t. Qed.

Lemma taskAt_category state ci ti :
  taskAt state (mkTaskLocation LocationCategory ci ti)
  = (c ← Categories state !! ci; Tasks c !! ti).
Proof. done. Qed.

Lemma taskAt_normalizeUrgent state idx u ti :
  taskAt (normalizeUrgent state idx u) (mkTaskLocation LocationCategory idx ti)
  = (fun t => set_Urgent (String.eqb (ID t) u) t)
      <$> taskAt state (mkTaskLocation LocationCategory idx ti).
Proof.
  rewrite !taskAt_category. unfold normalizeUrgent. simpl.
  rewrite list_lookup_alter_eq.
  destruct (Categories state !! idx) as [c|]; [|done]. simpl.
  by rewrite list_lookup_fmap.
Qed.

Lemma taskAt_normalizeFocus state id ci ti :
  taskAt (normalizeFocus state id) (mkTaskLocation LocationCategory ci ti)
  = (fun t => set_Focused (String.eqb (ID t) id && negb (String.eqb id "")) t)
      <$> taskAt state (mkTaskLocation LocationCategory ci ti).
Proof.
  rewrite !taskAt_category. unfold normalizeFocus. simpl.
  rewrite list_lookup_fmap.
  destruct (Categories state !! ci) as [c|]; [|done]. simpl.
  by rewrite list_lookup_fmap.
Qed.

(** The board right after the insertion of [insertTask] or [placeTask]
    into column [idx] at index [i]: a task whose identifier is new to the
    board is found where it was put. *)
Lemma findTask_inserted state idx i task :
  findTask state (ID task) = Err (Sentinel ErrTaskNotFound) ->
  (idx < length (Categories state))%nat ->
  (i <= length (Tasks (Categories state !!! idx)))%nat ->
  findTask
    (set_Categories
       (<[idx := set_Tasks (insertAt i task (Tasks (Categories state !!! idx)))
                           (Categories state !!! idx)]> (Categories state)) state)
    (ID task)
  = Ok (task, mkTaskLocation LocationCategory idx i).
Proof.
  intros (_ & Habs & _)%findTask_Err Hidx Hi.
  apply findTask_Ok. split; [done|].
  destruct (lookup_lt_is_Some_2 _ _ Hidx) as [c Hc].
  rewrite (list_lookup_total_correct _ _ _ Hc) in *.
  eapply located_category; simpl.
  - by apply list_lookup_insert_eq.
  - simpl. by apply lookup_insertAt.
  - rewrite take_insert_ge by lia. by apply Forall_take.
  - rewrite Tasks_set_Tasks. unfold insertAt.
    rewrite take_app_le by (rewrite length_take; lia).
    rewrite take_take, Nat.min_id. apply Forall_take.
    exact (Forall_lookup_1 _ _ _ _ Habs Hc).
Qed.

(** X3. A task created under an identifier that is non-empty and new to
    the board is found again under that identifier, as the very task
    [CreateTask] returned and at the address the request asked for: the
    requested position of the column when it is within bounds, the end
    of the column otherwise, the end of [Backburner] or of [Archives]. *)
Theorem CreateTask_then_findTask newID req state t state' :
  CreateTask newID req state = (Ok t, state') ->
  ID t <> "" ->
  findTask state (ID t) = Err (Sentinel ErrTaskNotFound) ->
  ID t = createdID newID req /\
  findTask state' (ID t) = Ok (t, createdAt req state).
Proof.
  unfold CreateTask, createdAt.
  destruct (CreateTaskRequest.Validate _) eqn:Hv; [done|].
  rewrite (insertTask_validated _ _ _ Hv). cbv zeta.
  assert (createdID newID (CreateTaskRequest.Normalize req) = createdID newID req) as ->.
  { unfold createdID. by rewrite CreateTaskRequest_Normalize_Task. }
  rewrite CreateTaskRequest_Normalize_Task.
  set (req' := CreateTaskRequest.Normalize req) in *.
  set (task := set_ID (createdID newID req) (CreateTaskRequest.Task req)).
  destruct (String.eqb (CreateTaskRequest.Location req') LocationCategory).
  - destruct (findCategoryIndex _ _) as [idx|] eqn:Eidx; [|done].
    destruct (ensureCapacity _); [done|].
    intros [= <- <-] Hid Hnew. split; [done|].
    set (i := insertIndex _ _).
    set (s0 := set_Categories _ state).
    assert (findTask s0 (ID task) = Ok (task, mkTaskLocation LocationCategory idx i)) as H0.
    { apply findTask_inserted; [done| |apply insertIndex_le].
      apply findCategoryIndex_Some in Eidx as (c & Hc & _).
      by eapply lookup_lt_Some. }
    assert (taskAt s0 (mkTaskLocation LocationCategory idx i) = Some task) as Hat0.
    { apply findTask_Ok in H0 as [_ H0]. by eapply located_taskAt. }
    set (s1 := if Urgent task then normalizeUrgent s0 idx (ID task) else s0).
    set (s2 := if Focused task then normalizeFocus s1 (ID task) else s1).
    assert (idSkeleton s0 = idSkeleton s2) as Hsk.
    { unfold s2, s1.
      destruct (Focused task), (Urgent task);
        by rewrite ?idSkeleton_normalizeFocus, ?idSkeleton_normalizeUrgent. }
    destruct (findTask_skeleton _ _ _ _ _ Hsk H0) as (t' & Hfind & Hat).
    change (findTask s2 (ID task)
            = Ok (task, mkTaskLocation LocationCategory idx i)).
    rewrite Hfind. do 2 f_equal.
    assert (taskAt s1 (mkTaskLocation LocationCategory idx i) = Some task) as Hat1.
    { unfold s1. destruct (Urgent task) eqn:Eu; [|done].
      rewrite taskAt_normalizeUrgent, Hat0. cbn [fmap option_fmap option_map].
      by rewrite String.eqb_refl, set_Urgent_Urgent. }
    assert (taskAt s2 (mkTaskLocation LocationCategory idx i) = Some task) as Hat2.
    { unfold s2. destruct (Focused task) eqn:Ef; [|done].
      assert (String.eqb (ID task) "" = false) as E by (by apply String.eqb_neq).
      rewrite taskAt_normalizeFocus, Hat1. cbn [fmap option_fmap option_map].
      rewrite String.eqb_refl, E. cbn [andb negb]. by rewrite set_Focused_Focused. }
    congruence.
  - destruct (String.eqb (CreateTaskRequest.Location req') LocationBackburner).
    + intros [= <- <-] Hid (_ & Habs & Hbb & _)%findTask_Err. split; [done|].
      apply findTask_Ok. split; [done|].
      apply located_backburner; simpl.
      * done.
      * by apply list_lookup_middle.
      * by rewrite take_app_length.
    + intros [= <- <-] Hid (_ & Habs & Hbb & Har)%findTask_Err. split; [done|].
      apply findTask_Ok. split; [done|].
      apply located_archive; simpl.
      * done.
      * done.
      * by apply list_lookup_middle.
      * by rewrite take_app_length.
Qed.

Lemma CreateTask_then_findTask_witness :
  ID (mkTask "t9" "first" "" "" "doing" 1 [] [] true true "" "")
  = createdID "n1" headRequest /\
  findTask (snd (CreateTask "n1" headRequest roomyBoard)) "t9"
  = Ok (mkTask "t9" "first" "" "" "doing" 1 [] [] true true "" "",
        mkTaskLocation LocationCategory 0 0).
Proof.
  apply (CreateTask_then_findTask "n1" headRequest roomyBoard
           (mkTask "t9" "first" "" "" "doing" 1 [] [] true true "" "")
           (snd (CreateTask "n1" headRequest roomyBoard))).
  - reflexivity.
  - done.
  - reflexivity.
Defined.

(** * Moving a task *)

Lemma alter_insert_lookup {A : Type} (f : A -> A) (l : list A) i x :
  l !! i = Some x -> alter f i l = <[i := f x]> l.
Proof.
  intros H. rewrite list_insert_alter. apply list_alter_ext; [|done].
  intros y Hy. congruence.
Qed.

(** What [removeTask] leaves of the board, by the address of the task. *)
Lemma removeTask_category state id t ci ti :
  findTask state id = Ok (t, mkTaskLocation LocationCategory ci ti) ->
  removeTask state id
  = (Ok (t, mkTaskLocation LocationCategory ci ti),
     set_Categories
       (<[ci := set_Tasks (delete ti (Tasks (Categories state !!! ci)))
                          (Categories state !!! ci)]> (Categories state)) state).
Proof.
  intros H. unfold removeTask. rewrite H, Task_Clone_id. simpl.
  apply findTask_Ok in H as [_ H]. inversion H as [? ? c Hc _ _ _| |]; subst.
  rewrite (list_lookup_total_correct _ _ _ Hc).
  by rewrite (alter_insert_lookup _ _ _ _ Hc).
Qed.

Lemma removeTask_backburner state id t i :
  findTask state id = Ok (t, mkTaskLocation LocationBackburner 0 i) ->
  removeTask state id
  = (Ok (t, mkTaskLocation LocationBackburner 0 i),
     set_Backburner (delete i (Backburner state)) state).
Proof. intros H. unfold removeTask. by rewrite H, Task_Clone_id. Qed.

Lemma removeTask_archive state id t i :
  findTask state id = Ok (t, mkTaskLocation LocationArchive 0 i) ->
  removeTask state id
  = (Ok (t, mkTaskLocation LocationArchive 0 i),
     set_Archives (delete i (Archives state)) state).
Proof. intros H. unfold removeTask. by rewrite H, Task_Clone_id. Qed.

(** [placeTask] outside the board: no check can fail. *)
Lemma placeTask_backburner task dest state :
  MoveTaskRequest.Location dest = LocationBackburner ->
  placeTask task dest state
  = (None,
     set_Backburner
       (Backburner state
        ++ [set_Source (MoveTaskRequest.Source dest)
              (set_SourceID (MoveTaskRequest.SourceID dest)
                 (set_Focused false (set_Urgent false task)))]) state).
Proof. destruct dest; simpl; intros ->. reflexivity. Qed.

Lemma placeTask_archive task dest state :
  MoveTaskRequest.Location dest = LocationArchive ->
  placeTask task dest state
  = (None,
     set_Archives
       (Archives state
        ++ [set_Source (MoveTaskRequest.Source dest)
              (set_SourceID (MoveTaskRequest.SourceID dest)
                 (set_Focused false (set_Urgent false task)))]) state).
Proof. destruct dest; simpl; intros ->. reflexivity. Qed.

(** The closure of [MoveTask] on a task of an active column that goes
    to [Backburner] or [Archives]. *)
Lemma MoveTask_leaves_its_column id dest state t ci ti :
  findTask state id = Ok (t, mkTaskLocation LocationCategory ci ti) ->
  let c := Categories state !!! ci in
  let named := negb (String.eqb (MoveTaskRequest.SourceID dest) "") in
  let stored :=
    set_Source (if named then MoveTaskRequest.Source dest else CatName c)
      (set_SourceID (if named then MoveTaskRequest.SourceID dest else CatID c)
         (set_Focused false (set_Urgent false t))) in
  let rest :=
    set_Categories (<[ci := set_Tasks (delete ti (Tasks c)) c]> (Categories state)) state in
  (MoveTaskRequest.Location dest = LocationBackburner ->
   MoveTask id dest state
   = (Ok t, set_Backburner (Backburner state ++ [stored]) rest)) /\
  (MoveTaskRequest.Location dest = LocationArchive ->
   MoveTask id dest state
   = (Ok t, set_Archives (Archives state ++ [stored]) rest)).
Proof.
  intros Hfind c named stored rest.
  pose proof Hfind as [_ Hloc]%findTask_Ok.
  inversion Hloc as [? ? c' Hc _ _ _| |]; subst.
  assert (c' = c) as -> by (unfold c; by rewrite (list_lookup_total_correct _ _ _ Hc)).
  assert (Categories rest !!! ci = set_Tasks (delete ti (Tasks c)) c) as Hrest.
  { apply list_lookup_total_correct. simpl. apply list_lookup_insert_eq.
    by eapply lookup_lt_Some. }
  unfold MoveTask. rewrite (removeTask_category _ _ _ _ _ Hfind). fold c rest.
  cbn [Kind CategoryIndex]. rewrite Hrest. cbn [CatID CatName set_Tasks].
  rewrite Task_Clone_id. unfold stored, named. clear stored named.
  split; intros Hdest; rewrite Hdest; cbn [String.eqb Ascii.eqb Bool.eqb orb andb];
    destruct (String.eqb (MoveTaskRequest.SourceID dest) "") eqn:Esrc; cbn [negb].
  - by rewrite placeTask_backburner.
  - by rewrite placeTask_backburner.
  - by rewrite placeTask_archive.
  - by rewrite placeTask_archive.
Qed.

(** X4. Moving a task out of an active column to [Backburner] or
    [Archives] is never refused by the engine.  In memory the task
    leaves its column and is appended with its urgent and focused flags
    cleared; when the request names no source, the identifier and the
    name of the column it left are recorded as its source.  The method
    returns the task as it was before the move, unless the save that
    follows fails: then it returns the error of the save, and the move
    stays in memory. *)
Theorem MoveTask_off_the_board_records_the_source saveLocked id dest state t ci ti :
  findTask state id = Ok (t, mkTaskLocation LocationCategory ci ti) ->
  let c := Categories state !!! ci in
  let named := negb (String.eqb (MoveTaskRequest.SourceID dest) "") in
  let stored :=
    set_Source (if named then MoveTaskRequest.Source dest else CatName c)
      (set_SourceID (if named then MoveTaskRequest.SourceID dest else CatID c)
         (set_Focused false (set_Urgent false t))) in
  let rest :=
    set_Categories (<[ci := set_Tasks (delete ti (Tasks c)) c]> (Categories state)) state in
  (MoveTaskRequest.Location dest = LocationBackburner ->
   let board := set_Backburner (Backburner state ++ [stored]) rest in
   withWrite saveLocked (MoveTask id dest) state = (afterSave saveLocked t board, board)) /\
  (MoveTaskRequest.Location dest = LocationArchive ->
   let board := set_Archives (Archives state ++ [stored]) rest in
   withWrite saveLocked (MoveTask id dest) state = (afterSave saveLocked t board, board)).
Proof.
  intros Hfind c named stored rest.
  destruct (MoveTask_leaves_its_column id dest state t ci ti Hfind) as [Hb Ha].
  split; intros Hdest board; apply withWrite_Ok; auto.
Qed.

Lemma MoveTask_off_the_board_records_the_source_witness :
  withWrite diskOK (MoveTask "t1" intoBackburner) sampleBoard
  = (Ok (sampleTask "t1" 3 true false),
     mkBoardState
       [mkCategory "c1" "Alpha" [sampleTask "t2" 2 false false];
        mkCategory "c2" "Beta" [sampleTask "t3" 5 true false]]
       [sampleTask "b1" 1 false false;
        mkTask "t1" "t1" "" "" "todo" 3 [] [] false false "c1" "Alpha"]
       [sampleTask "a1" 1 false false]
       [mkCategory "p1" "Parked" [sampleTask "pt" 2 false false]]
       []).
Proof.
  apply (proj1 (MoveTask_off_the_board_records_the_source
                  diskOK "t1" intoBackburner sampleBoard (sampleTask "t1" 3 true false)
                  0 0 eq_refl)).
  reflexivity.
Defined.

(** The closure of [MoveTask] between [Backburner] and [Archives]. *)
Lemma MoveTask_off_board_to_off_board id dest state t i :
  let stored :=
    set_Source (MoveTaskRequest.Source dest)
      (set_SourceID (MoveTaskRequest.SourceID dest)
         (set_Focused false (set_Urgent false t))) in
  (findTask state id = Ok (t, mkTaskLocation LocationBackburner 0 i) ->
   MoveTaskRequest.Location dest = LocationArchive ->
   MoveTask id dest state
   = (Ok t, set_Archives (Archives state ++ [stored])
              (set_Backburner (delete i (Backburner state)) state))) /\
  (findTask state id = Ok (t, mkTaskLocation LocationArchive 0 i) ->
   MoveTaskRequest.Location dest = LocationBackburner ->
   MoveTask id dest state
   = (Ok t, set_Backburner (Backburner state ++ [stored])
              (set_Archives (delete i (Archives state)) state))).
Proof.
  intros stored. split; intros Hfind Hdest; unfold MoveTask.
  - rewrite (removeTask_backburner _ _ _ _ Hfind). cbn [Kind].
    rewrite Task_Clone_id.
    match goal with |- context [placeTask t ?d _] =>
      assert (d = dest) as -> by (by repeat case_match) end.
    by rewrite placeTask_archive.
  - rewrite (removeTask_archive _ _ _ _ Hfind). cbn [Kind].
    rewrite Task_Clone_id.
    match goal with |- context [placeTask t ?d _] =>
      assert (d = dest) as -> by (by repeat case_match) end.
    by rewrite placeTask_backburner.
Qed.

(** X5. Between [Backburner] and [Archives] a move is never refused by
    the engine either, and the source the task carried is not kept: the
    task stored takes the source identifier and name of the request,
    empty when the caller does not send them again.  The method returns
    the task as it was before the move, unless the save that follows
    fails: then it returns the error of the save, and the move stays in
    memory. *)
Theorem MoveTask_between_backburner_and_archive saveLocked id dest state t i :
  let stored :=
    set_Source (MoveTaskRequest.Source dest)
      (set_SourceID (MoveTaskRequest.SourceID dest)
         (set_Focused false (set_Urgent false t))) in
  (findTask state id = Ok (t, mkTaskLocation LocationBackburner 0 i) ->
   MoveTaskRequest.Location dest = LocationArchive ->
   let board := set_Archives (Archives state ++ [stored])
                             (set_Backburner (delete i (Backburner state)) state) in
   withWrite saveLocked (MoveTask id dest) state = (afterSave saveLocked t board, board)) /\
  (findTask state id = Ok (t, mkTaskLocation LocationArchive 0 i) ->
   MoveTaskRequest.Location dest = LocationBackburner ->
   let board := set_Backburner (Backburner state ++ [stored])
                               (set_Archives (delete i (Archives state)) state) in
   withWrite saveLocked (MoveTask id dest) state = (afterSave saveLocked t board, board)).
Proof.
  intros stored.
  destruct (MoveTask_off_board_to_off_board id dest state t i) as [Hb Ha].
  split; intros Hfind Hdest board; apply withWrite_Ok; auto.
Qed.

Lemma MoveTask_between_backburner_and_archive_witness :
  withWrite diskFull (MoveTask "b1" (MoveTaskRequest.mk LocationArchive "" None "" ""))
            parkedSourceBoard
  = (Err (Errorf "write temp file: no space left on device"),
     mkBoardState
       [mkCategory "c1" "Alpha" []]
       []
       [mkTask "b1" "b1" "" "" "todo" 1 [] [] false false "" ""]
       [] []).
Proof.
  apply (proj1 (MoveTask_between_backburner_and_archive
                  diskFull "b1" (MoveTaskRequest.mk LocationArchive "" None "" "")
                  parkedSourceBoard
                  (mkTask "b1" "b1" "" "" "todo" 1 [] [] false false "c1" "Alpha") 0)).
  - reflexivity.
  - reflexivity.
Defined.

(** * Conservation of tasks

    Every operation is followed through its effect on the tasks of the
    whole board, read through a key that ignores the flags and the
    recorded source. *)

Ltac board_simpl :=
  unfold set_Categories, set_Backburner, set_Archives,
         set_CategoryBackburner, set_CategoryArchives in *;
  cbn [Categories Backburner Archives CategoryBackburner CategoryArchives fst snd] in *.

Lemma allTasks_eq cats bb ar pb pa :
  allTasks (mkBoardState cats bb ar pb pa)
  = concat (Tasks <$> cats) ++ bb ++ ar ++ concat (Tasks <$> pb) ++ concat (Tasks <$> pa).
Proof. done. Qed.

Lemma columns_insert_Permutation (cats : list Category) i c c' (X : list Task) :
  cats !! i = Some c ->
  Tasks c' ≡ₚ X ++ Tasks c ->
  concat (Tasks <$> <[i := c']> cats) ≡ₚ X ++ concat (Tasks <$> cats).
Proof.
  intros Hc Hperm.
  rewrite insert_take_drop by (by eapply lookup_lt_Some).
  rewrite <- (take_drop_middle _ _ _ Hc) at 3.
  rewrite !fmap_app, !concat_app. simpl. rewrite Hperm. solve_Permutation.
Qed.

Lemma columns_delete_Permutation (cats : list Category) i c :
  cats !! i = Some c ->
  concat (Tasks <$> cats) ≡ₚ Tasks c ++ concat (Tasks <$> delete i cats).
Proof.
  intros Hc. rewrite (delete_Permutation _ _ _ Hc) at 1. done.
Qed.

Lemma columns_insertAt (cats : list Category) i c :
  concat (Tasks <$> insertAt i c cats) ≡ₚ Tasks c ++ concat (Tasks <$> cats).
Proof.
  unfold insertAt. rewrite <- (take_drop i cats) at 3.
  rewrite !fmap_app, !concat_app. simpl. solve_Permutation.
Qed.

Lemma insertAt_Permutation {A : Type} i (x : A) l : insertAt i x l ≡ₚ x :: l.
Proof.
  unfold insertAt. rewrite <- (take_drop i l) at 3. solve_Permutation.
Qed.

Section conserved.

Context {K : Type} (key : Task -> K).
Hypothesis key_Urgent : forall b t, key (set_Urgent b t) = key t.
Hypothesis key_Focused : forall b t, key (set_Focused b t) = key t.
Hypothesis key_SourceID : forall v t, key (set_SourceID v t) = key t.
Hypothesis key_Source : forall v t, key (set_Source v t) = key t.

Lemma key_fmap (f : Task -> Task) (ts : list Task) :
  (forall t, key (f t) = key t) -> key <$> (f <$> ts) = key <$> ts.
Proof.
  intros H. rewrite <- list_fmap_compose. apply list_fmap_ext. intros _ t _. apply H.
Qed.

Lemma key_columns_fmap (f : Category -> Category) (cats : list Category) :
  (forall c, key <$> Tasks (f c) = key <$> Tasks c) ->
  key <$> concat (Tasks <$> (f <$> cats)) = key <$> concat (Tasks <$> cats).
Proof.
  intros H. induction cats as [|c cats IH]; [done|].
  simpl. rewrite !fmap_app, H. by f_equal.
Qed.

Lemma key_columns_alter (f : Category -> Category) i (cats : list Category) :
  (forall c, cats !! i = Some c -> key <$> Tasks (f c) = key <$> Tasks c) ->
  key <$> concat (Tasks <$> alter f i cats) = key <$> concat (Tasks <$> cats).
Proof.
  revert i. induction cats as [|c cats IH]; intros [|i] H; try done.
  - simpl. by rewrite !fmap_app, (H c eq_refl).
  - simpl. rewrite !fmap_app. f_equal. apply IH. intros c' Hc'. by apply H.
Qed.

Lemma key_clearCategoryFocus c :
  key <$> Tasks (clearCategoryFocus c) = key <$> Tasks c.
Proof. simpl. by apply key_fmap. Qed.

Lemma keys_normalizeUrgent state idx u :
  key <$> allTasks (normalizeUrgent state idx u) = key <$> allTasks state.
Proof.
  destruct state as [cats bb ar pb pa]. unfold normalizeUrgent.
  board_simpl.
  rewrite !allTasks_eq, !fmap_app. f_equal.
  apply key_columns_alter. intros c _. simpl. by apply key_fmap.
Qed.

Lemma keys_normalizeFocus state id :
  key <$> allTasks (normalizeFocus state id) = key <$> allTasks state.
Proof.
  destruct state as [cats bb ar pb pa]. unfold normalizeFocus.
  board_simpl.
  rewrite !allTasks_eq, !fmap_app.
  f_equal; [|f_equal; [|f_equal; [|f_equal]]].
  - apply key_columns_fmap. intros c. simpl. by apply key_fmap.
  - by apply key_fmap.
  - by apply key_fmap.
  - apply key_columns_fmap, key_clearCategoryFocus.
  - apply key_columns_fmap, key_clearCategoryFocus.
Qed.

Lemma keys_clearFocus state :
  key <$> allTasks (clearFocus state) = key <$> allTasks state.
Proof.
  destruct state as [cats bb ar pb pa]. unfold clearFocus.
  board_simpl.
  rewrite !allTasks_eq, !fmap_app.
  f_equal; [|f_equal; [|f_equal; [|f_equal]]].
  - apply key_columns_fmap, key_clearCategoryFocus.
  - by apply key_fmap.
  - by apply key_fmap.
  - apply key_columns_fmap, key_clearCategoryFocus.
  - apply key_columns_fmap, key_clearCategoryFocus.
Qed.

Lemma key_insert_same (ts : list Task) i t' :
  (forall t, ts !! i = Some t -> key t' = key t) ->
  key <$> <[i := t']> ts = key <$> ts.
Proof.
  intros H. destruct (ts !! i) as [t|] eqn:Ht.
  - rewrite list_fmap_insert, (H t eq_refl). apply list_insert_id.
    by rewrite list_lookup_fmap, Ht.
  - rewrite list_insert_ge; [done|]. by apply lookup_ge_None.
Qed.

(** Overwriting the task at an address with one of the same key. *)
Lemma keys_setTaskAt loc t' state :
  (forall t, taskAt state loc = Some t -> key t' = key t) ->
  key <$> allTasks (setTaskAt loc t' state) = key <$> allTasks state.
Proof.
  destruct state as [cats bb ar pb pa]. unfold setTaskAt, taskAt.
  board_simpl.
  intros H.
  destruct (String.eqb (Kind loc) LocationCategory).
  - rewrite !allTasks_eq, !fmap_app. f_equal.
    apply key_columns_alter. intros c Hc. simpl.
    apply key_insert_same. intros t Ht. apply H. by rewrite Hc.
  - destruct (String.eqb (Kind loc) LocationBackburner).
    + rewrite !allTasks_eq, !fmap_app. do 2 f_equal. by apply key_insert_same.
    + destruct (String.eqb (Kind loc) LocationArchive); [|done].
      rewrite !allTasks_eq, !fmap_app. do 3 f_equal. by apply key_insert_same.
Qed.

(** [removeTask] takes exactly the task it returns. *)
Lemma keys_removeTask state id t loc :
  findTask state id = Ok (t, loc) ->
  key <$> allTasks state ≡ₚ key t :: (key <$> allTasks (snd (removeTask state id))).
Proof.
  intros Hfind. pose proof Hfind as [_ Hloc]%findTask_Ok.
  destruct Hloc as [ci ti c Hc Ht _ _|i _ Ht _|i _ _ Ht _].
  - rewrite (removeTask_category _ _ _ _ _ Hfind).
    rewrite (list_lookup_total_correct _ _ _ Hc).
    destruct state as [cats bb ar pb pa].
    board_simpl.
    rewrite !allTasks_eq.
    assert (concat (Tasks <$> cats)
            ≡ₚ [t] ++ concat (Tasks <$> <[ci := set_Tasks (delete ti (Tasks c)) c]> cats))
      as ->; [|done].
    rewrite <- (list_insert_id _ _ _ Hc) at 1.
    rewrite <- (list_insert_insert_eq cats ci c (set_Tasks (delete ti (Tasks c)) c)).
    eapply columns_insert_Permutation.
    + apply list_lookup_insert_eq. by eapply lookup_lt_Some.
    + simpl. by apply delete_Permutation.
  - rewrite (removeTask_backburner _ _ _ _ Hfind).
    destruct state as [cats bb ar pb pa].
    board_simpl.
    rewrite !allTasks_eq. rewrite (delete_Permutation _ _ _ Ht) at 1.
    rewrite !fmap_app, fmap_cons. solve_Permutation.
  - rewrite (removeTask_archive _ _ _ _ Hfind).
    destruct state as [cats bb ar pb pa].
    board_simpl.
    rewrite !allTasks_eq. rewrite (delete_Permutation _ _ _ Ht) at 1.
    rewrite !fmap_app, fmap_cons. solve_Permutation.
Qed.

(** A successful [placeTask] adds exactly the task it was given. *)
Lemma keys_placeTask task dest state state' :
  placeTask task dest state = (None, state') ->
  key <$> allTasks state' ≡ₚ key task :: (key <$> allTasks state).
Proof.
  unfold placeTask.
  destruct (MoveTaskRequest.Validate _); [done|].
  destruct (String.eqb _ LocationCategory).
  - destruct (findCategoryIndex _ _) as [idx|] eqn:Eidx; [|done].
    set (u := if Urgent _ then _ else _).
    assert (exists x, u = normalizeUrgent state idx x) as [x Hu].
    { unfold u. destruct (Urgent _); eauto. }
    destruct (ensureCapacity _); [done|]. intros [= <-].
    rewrite <- (keys_normalizeUrgent state idx x), <- Hu.
    assert (Categories u !! idx = Some (Categories u !!! idx)) as Hc.
    { apply list_lookup_lookup_total_lt.
      rewrite Hu, length_Categories_normalizeUrgent.
      apply findCategoryIndex_Some in Eidx as (c & Hc & _). by eapply lookup_lt_Some. }
    destruct u as [cats bb ar pb pa].
    board_simpl. rewrite !allTasks_eq, !fmap_app.
    rewrite (columns_insert_Permutation
               _ _ _ _ [set_Source "" (set_SourceID "" (set_Focused false task))] Hc)
      by (simpl; apply insertAt_Permutation).
    simpl. by rewrite !key_Source, !key_SourceID, !key_Focused.
  - destruct (String.eqb _ LocationBackburner).
    + intros [= <-]. destruct state as [cats bb ar pb pa].
      board_simpl. rewrite !allTasks_eq, !fmap_app. simpl.
      rewrite !key_Source, !key_SourceID, !key_Focused, !key_Urgent, !key_Focused.
      solve_Permutation.
    + destruct (String.eqb _ LocationArchive); [|done].
      intros [= <-]. destruct state as [cats bb ar pb pa].
      board_simpl. rewrite !allTasks_eq, !fmap_app. simpl.
      rewrite !key_Source, !key_SourceID, !key_Focused, !key_Urgent, !key_Focused.
      solve_Permutation.
Qed.

Lemma removeTask_inv state id t loc s1 :
  removeTask state id = (Ok (t, loc), s1) ->
  findTask state id = Ok (t, loc) /\ s1 = snd (removeTask state id).
Proof.
  intros H. unfold removeTask in *.
  destruct (findTask state id) as [[t0 l0]|]; [|done].
  rewrite Task_Clone_id in H. by injection H as -> -> <-.
Qed.

Lemma error_capacity_dec (e : error) :
  {e = Sentinel ErrCapacityExceeded} + {e <> Sentinel ErrCapacityExceeded}.
Proof. destruct e as [[]| |]; (by left) || (by right). Qed.

Lemma taskAt_normalizeUrgent_key state idx u loc t0 :
  taskAt (normalizeUrgent state idx u) loc = Some t0 ->
  exists t1, taskAt state loc = Some t1 /\ key t0 = key t1.
Proof.
  unfold taskAt, normalizeUrgent. board_simpl.
  destruct (String.eqb (Kind loc) LocationCategory); [|by eauto].
  rewrite list_lookup_alter.
  destruct (decide (idx = CategoryIndex loc)) as [->|_]; [|by eauto].
  destruct (Categories state !! CategoryIndex loc) as [c|]; [|done]. simpl.
  rewrite list_lookup_fmap.
  destruct (Tasks c !! TaskIndex loc) as [t1|]; [|done]. simpl.
  intros [= <-]. exists t1. by rewrite key_Urgent.
Qed.

Lemma keys_MoveTask id dest state :
  key <$> allTasks (snd (MoveTask id dest state)) ≡ₚ key <$> allTasks state.
Proof.
  destruct (MoveTask id dest state) as [[t|e] state'] eqn:E; simpl.
  - unfold MoveTask in E.
    destruct (removeTask state id) as [[[task loc]|e1] s1] eqn:Er; [|done].
    apply removeTask_inv in Er as [Hfind ->].
    destruct (placeTask _ _ _) as [[e2|] s2] eqn:Ep; [done|].
    injection E as _ <-.
    by rewrite (keys_placeTask _ _ _ _ Ep), (keys_removeTask _ _ _ _ Hfind).
  - destruct (error_capacity_dec e) as [->|Hne].
    + apply MoveTask_capacity_error_state in E as (t & loc & idx & Hfind & ->).
      rewrite keys_setTaskAt, keys_normalizeUrgent; [done|].
      intros t0 (t1 & Ht1 & ->)%taskAt_normalizeUrgent_key.
      apply findTask_Ok in Hfind as [_ Hloc].
      rewrite (located_taskAt _ _ _ _ Hloc) in Ht1. by injection Ht1 as ->.
    + by rewrite (MoveTask_error_state _ _ _ _ _ E Hne).
Qed.

Lemma keys_detached state id c loc s1 :
  detached state id c loc s1 ->
  key <$> allTasks state ≡ₚ (key <$> Tasks c) ++ (key <$> allTasks s1).
Proof.
  intros [i Hf|i _ Hf|i _ _ Hf]; apply list_find_Some in Hf as (Hc & _);
    destruct state as [cats bb ar pb pa]; board_simpl; rewrite !allTasks_eq.
  - rewrite (columns_delete_Permutation _ _ _ Hc) at 1.
    rewrite !fmap_app. solve_Permutation.
  - rewrite (columns_delete_Permutation _ _ _ Hc) at 1.
    rewrite !fmap_app. solve_Permutation.
  - rewrite (columns_delete_Permutation _ _ _ Hc) at 1.
    rewrite !fmap_app. solve_Permutation.
Qed.

Lemma keys_placeCategory c dest state c' state' :
  placeCategory c dest state = (None, c', state') ->
  key <$> allTasks state' ≡ₚ (key <$> Tasks c) ++ (key <$> allTasks state).
Proof.
  unfold placeCategory.
  destruct (String.eqb _ LocationCategoryBoard).
  - destruct (_ <=? _)%nat; [done|]. destruct (ensureCapacity c); [done|].
    intros [= _ <-]. destruct state as [cats bb ar pb pa]. board_simpl.
    rewrite !allTasks_eq, columns_insertAt, !fmap_app. solve_Permutation.
  - destruct (String.eqb _ LocationBackburner).
    + intros [= _ <-]. destruct state as [cats bb ar pb pa]. board_simpl.
      rewrite !allTasks_eq, !fmap_app, !concat_app, !fmap_app. simpl.
      rewrite app_nil_r, (key_fmap (set_Focused false)) by done. solve_Permutation.
    + destruct (String.eqb _ LocationArchive); [|done].
      intros [= _ <-]. destruct state as [cats bb ar pb pa]. board_simpl.
      rewrite !allTasks_eq, !fmap_app, !concat_app, !fmap_app. simpl.
      rewrite app_nil_r, (key_fmap (set_Focused false)) by done. solve_Permutation.
Qed.

Lemma keys_MoveCategory id dest state :
  key <$> allTasks (snd (MoveCategory id dest state)) ≡ₚ key <$> allTasks state.
Proof.
  destruct (MoveCategory id dest state) as [[c|e] state'] eqn:E; simpl.
  - unfold MoveCategory in E.
    destruct (MoveCategoryRequest.Validate _); [done|].
    destruct (removeCategory state id) as [[[cat loc]|e1] s1] eqn:Er; [|done].
    apply removeCategory_Ok in Er.
    destruct (placeCategory _ _ _) as [[[e2|] cat'] s2] eqn:Ep; [done|].
    injection E as _ <-.
    by rewrite (keys_placeCategory _ _ _ _ _ Ep), (keys_detached _ _ _ _ _ Er).
  - by rewrite (MoveCategory_error_state _ _ _ _ _ E).
Qed.

Lemma keys_SetFocused id state :
  key <$> allTasks (snd (SetFocused id state)) = key <$> allTasks state.
Proof.
  unfold SetFocused. destruct (String.eqb id ""); [apply keys_clearFocus|].
  destruct (findTask state id) as [[t loc]|]; [|done]. simpl.
  rewrite keys_setTaskAt, keys_clearFocus; [done|].
  intros t0 ->. simpl. apply key_Focused.
Qed.

Lemma keys_RenameCategory TrimSpace id name state :
  key <$> allTasks (snd (RenameCategory TrimSpace id name state)) = key <$> allTasks state.
Proof.
  unfold RenameCategory. repeat case_match; try done. simpl.
  match goal with H : findCategoryIndex _ _ = Some _ |- _ =>
    apply findCategoryIndex_lookup_total in H; rename H into Hc end.
  rewrite <- (alter_insert_lookup (set_CatName _) _ _ _ Hc).
  destruct state as [cats bb ar pb pa]. board_simpl.
  rewrite !allTasks_eq, !fmap_app. f_equal. by apply key_columns_alter.
Qed.

Lemma keys_CreateCategory TrimSpace newID name state :
  key <$> allTasks (snd (CreateCategory TrimSpace newID name state)) = key <$> allTasks state.
Proof.
  unfold CreateCategory. repeat case_match; try done. simpl.
  destruct state as [cats bb ar pb pa]. board_simpl.
  rewrite !allTasks_eq, !fmap_app, !concat_app. simpl. by rewrite !app_nil_r.
Qed.

(** The five operations that edit no task keep the keys of the board. *)
Lemma keys_editsNoTask TrimSpace op state :
  editsNoTask op ->
  key <$> allTasks (snd (step TrimSpace op state)) ≡ₚ key <$> allTasks state.
Proof.
  destruct op; try done; intros _; simpl.
  - apply keys_MoveTask.
  - by rewrite keys_CreateCategory.
  - by rewrite keys_RenameCategory.
  - apply keys_MoveCategory.
  - by rewrite keys_SetFocused.
Qed.

(** A successful [CreateTask] adds the task it returns. *)
Lemma keys_CreateTask newID req state t state' :
  CreateTask newID req state = (Ok t, state') ->
  key <$> allTasks state' ≡ₚ key t :: (key <$> allTasks state).
Proof.
  unfold CreateTask.
  destruct (CreateTaskRequest.Validate _) eqn:Hv; [done|].
  rewrite (insertTask_validated _ _ _ Hv). cbv zeta.
  set (task := set_ID _ _).
  destruct (String.eqb _ LocationCategory).
  - destruct (findCategoryIndex _ _) as [idx|] eqn:Eidx; [|done].
    destruct (ensureCapacity _); [done|].
    set (s0 := set_Categories _ state).
    set (s1 := if Urgent task then _ else _).
    set (s2 := if Focused task then _ else _).
    intros [= <- <-].
    assert (key <$> allTasks s2 = key <$> allTasks s1) as ->.
    { unfold s2. destruct (Focused task); [apply keys_normalizeFocus|done]. }
    assert (key <$> allTasks s1 = key <$> allTasks s0) as ->.
    { unfold s1. destruct (Urgent task); [apply keys_normalizeUrgent|done]. }
    apply findCategoryIndex_lookup_total in Eidx.
    unfold s0. destruct state as [cats bb ar pb pa]. board_simpl.
    rewrite !allTasks_eq, !fmap_app.
    rewrite (columns_insert_Permutation _ _ _ _ [task] Eidx)
      by (simpl; apply insertAt_Permutation).
    done.
  - destruct (String.eqb _ LocationBackburner).
    + intros [= <- <-]. destruct state as [cats bb ar pb pa]. board_simpl.
      rewrite !allTasks_eq, !fmap_app. simpl. solve_Permutation.
    + intros [= <- <-]. destruct state as [cats bb ar pb pa]. board_simpl.
      rewrite !allTasks_eq, !fmap_app. simpl. solve_Permutation.
Qed.

(** A successful [DeleteTask] takes one task, found under the
    identifier. *)
Lemma keys_DeleteTask id state state' :
  DeleteTask id state = (Ok (), state') ->
  exists t, ID t = id /\ key <$> allTasks state ≡ₚ key t :: (key <$> allTasks state').
Proof.
  intros E.
  destruct (proj1 (DeleteTask_succeeds_iff id state)) as (t & i & Hfind); [by eauto|].
  rewrite (DeleteTask_archived _ _ _ _ Hfind) in E. injection E as <-.
  exists t. split; [by apply findTask_Ok in Hfind as [? _]|].
  rewrite (keys_removeTask _ _ _ _ Hfind), (removeTask_archive _ _ _ _ Hfind). done.
Qed.

(** [UpdateTask], whatever its outcome, for a key the patch cannot
    change. *)
Lemma keys_UpdateTask id patch state :
  (forall t e t', TaskPatch.Apply patch t = (e, t') -> key t' = key t) ->
  key <$> allTasks (snd (UpdateTask id patch state)) = key <$> allTasks state.
Proof.
  intros Hkey. unfold UpdateTask.
  destruct (findTask state id) as [[t loc]|] eqn:Hfind; [|done].
  destruct (TaskPatch.Apply patch t) as [err t'] eqn:Ea.
  apply Hkey in Ea.
  assert (key <$> allTasks (setTaskAt loc t' state) = key <$> allTasks state) as Hset.
  { apply keys_setTaskAt. intros t0 Ht0.
    apply findTask_Ok in Hfind as [_ Hloc].
    rewrite (located_taskAt _ _ _ _ Hloc) in Ht0. by injection Ht0 as <-. }
  destruct err; [done|].
  repeat case_match; simpl; by rewrite ?keys_normalizeUrgent.
Qed.

(** [ReorderCategoryTasks] on a column of distinct identifiers. *)
Lemma keys_ReorderCategoryTasks id order state :
  (forall i, findCategoryIndex (Categories state) id = Some i ->
             NoDup (ID <$> Tasks (Categories state !!! i))) ->
  key <$> allTasks (snd (ReorderCategoryTasks id order state)) ≡ₚ key <$> allTasks state.
Proof.
  intros Hnd. unfold ReorderCategoryTasks.
  destruct (findCategoryIndex _ _) as [i|] eqn:Ei; [|done].
  specialize (Hnd i eq_refl).
  destruct (decide (order ≡ₚ ID <$> Tasks (Categories state !!! i))) as [Hp|Hp].
  - destruct (reorderTasks_Permutation _ _ Hnd Hp) as (ts' & -> & _ & Hperm). simpl.
    apply findCategoryIndex_lookup_total in Ei.
    destruct state as [cats bb ar pb pa]. board_simpl.
    rewrite !allTasks_eq, !fmap_app.
    by rewrite (columns_insert_Permutation _ _ _ _ [] Ei).
  - by destruct (reorderTasks_mismatch _ _ Hnd Hp) as (e & -> & _).
Qed.

End conserved.

(** * Board-wide invariants *)

Lemma TaskPatch_Apply_ID patch t e t' :
  TaskPatch.Apply patch t = (e, t') -> ID t' = ID t.
Proof.
  unfold TaskPatch.Apply.
  destruct patch as [n d no st sz ls cl u]; simpl.
  destruct st as [st|]; [destruct (ValidateTaskState st)|];
    (destruct sz as [sz|]; [destruct (NormalizeSize sz)|]);
    intros [= _ <-]; by destruct n, d, no, ls, cl, u.
Qed.

Lemma TaskPatch_Apply_wellFormed patch t e t' :
  TaskPatch.Apply patch t = (e, t') -> wellFormed t -> wellFormed t'.
Proof.
  unfold TaskPatch.Apply, wellFormed, validSize.
  destruct patch as [n d no st sz ls cl u]; simpl. intros H [Hsz Hst]. revert H.
  destruct st as [st|]; [destruct (ValidateTaskState st) eqn:Est|];
    (destruct sz as [sz|]; [destruct (NormalizeSize sz) as [sz'|] eqn:Esz|]);
    try apply ValidateTaskState_allowed in Est;
    try (apply NormalizeSize_Ok in Esz as [-> Hsz']);
    intros [= _ <-]; destruct n, d, no, ls, cl, u;
    (split; [assumption|assumption]).
Qed.

Lemma NoDup_column (state : BoardState) i c :
  NoDup (ID <$> boardTasks state) ->
  Categories state !! i = Some c -> NoDup (ID <$> Tasks c).
Proof.
  intros Hnd Hc. unfold boardTasks in Hnd.
  rewrite (columns_delete_Permutation _ _ _ Hc), fmap_app in Hnd.
  by apply NoDup_app in Hnd as [? _].
Qed.

Lemma NoDup_boardTasks state :
  NoDup (ID <$> allTasks state) -> NoDup (ID <$> boardTasks state).
Proof.
  unfold allTasks. rewrite fmap_app. by intros [? _]%NoDup_app.
Qed.

(** X6. [MoveTask], [MoveCategory], [SetFocused], [RenameCategory] and
    [CreateCategory], whatever their outcome, neither add nor drop nor
    edit a task: over the five containers together, the tasks of the
    board are the same before and after, up to their order, their urgent
    and focused flags and their recorded source. *)
Theorem task_contents_are_conserved TrimSpace op state :
  editsNoTask op ->
  taskContent <$> allTasks (snd (step TrimSpace op state))
  ≡ₚ taskContent <$> allTasks state.
Proof. by apply keys_editsNoTask. Qed.

Lemma task_contents_are_conserved_witness :
  taskContent <$> allTasks (snd (step trimSpaceASCII (OpMoveTask "t1" intoBackburner)
                                      sampleBoard))
  ≡ₚ taskContent <$> allTasks sampleBoard.
Proof.
  apply (task_contents_are_conserved trimSpaceASCII (OpMoveTask "t1" intoBackburner)
           sampleBoard I).
Defined.

(** X7. The task identifiers of the board stay pairwise distinct: from a
    board on which no two tasks, in any of the five containers, share an
    identifier, every operation, whatever its outcome, leads to such a
    board again, provided a [CreateTask] stores its task under an
    identifier that is not on the board yet. *)
Theorem task_identifiers_stay_distinct TrimSpace op state :
  NoDup (ID <$> allTasks state) ->
  (forall newID req, op = OpCreateTask newID req ->
                     createdID newID req ∉ ID <$> allTasks state) ->
  NoDup (ID <$> allTasks (snd (step TrimSpace op state))).
Proof.
  intros Hnd Hfresh.
  destruct op as [newID req|id patch|id dest|id|newID name|id name|id dest|id order|id];
    try (rewrite (keys_editsNoTask ID) by done; exact Hnd).
  - simpl. destruct (CreateTask newID req state) as [[t|e] state'] eqn:E; simpl.
    + rewrite (keys_CreateTask ID ltac:(done) ltac:(done) _ _ _ _ _ E).
      apply NoDup_cons. split; [|done].
      assert (ID t = createdID newID req) as ->; [|by apply Hfresh].
      revert E. unfold CreateTask.
      destruct (CreateTaskRequest.Validate _) eqn:Hv; [done|].
      rewrite (insertTask_validated _ _ _ Hv). cbv zeta.
      unfold createdID. rewrite CreateTaskRequest_Normalize_Task.
      repeat case_match; intros [= <- _]; done.
    + by rewrite (CreateTask_error_state _ _ _ _ _ E).
  - simpl. by rewrite (keys_UpdateTask ID ltac:(done) id patch state (TaskPatch_Apply_ID patch)).
  - simpl. destruct (DeleteTask id state) as [[[]|e] state'] eqn:E; simpl.
    + destruct (keys_DeleteTask ID _ _ _ E) as (t & _ & Hp).
      rewrite Hp in Hnd. by apply NoDup_cons in Hnd as [_ ?].
    + by rewrite (DeleteTask_error_state _ _ _ _ E).
  - simpl. rewrite (keys_ReorderCategoryTasks ID); [done|].
    intros i Hi. apply findCategoryIndex_lookup_total in Hi.
    eapply NoDup_column; [|exact Hi]. by apply NoDup_boardTasks.
Qed.

Lemma task_identifiers_stay_distinct_witness :
  NoDup (ID <$> allTasks (snd (step trimSpaceASCII (OpCreateTask "n1" headRequest)
                                    roomyBoard))).
Proof.
  apply (task_identifiers_stay_distinct trimSpaceASCII (OpCreateTask "n1" headRequest)
           roomyBoard).
  - apply (bool_decide_unpack _). vm_compute. reflexivity.
  - intros newID req [= <- <-]. apply (bool_decide_unpack _). vm_compute. reflexivity.
Defined.

Lemma wellFormed_sizeAndState (ts : list Task) :
  Forall wellFormed ts
  <-> Forall (fun k => 1 <= k.1 <= 5 /\ k.2 ∈ allowedStates) (sizeAndState <$> ts).
Proof. by rewrite Forall_fmap. Qed.

Lemma Forall_allTasks_setTaskAt (P : Task -> Prop) loc t' state :
  P t' -> Forall P (allTasks state) -> Forall P (allTasks (setTaskAt loc t' state)).
Proof.
  intros Ht'. destruct state as [cats bb ar pb pa]. unfold setTaskAt. board_simpl.
  repeat case_match; rewrite ?allTasks_eq, ?Forall_app; try done.
  - intros (Hc & ?). split; [|done].
    rewrite Forall_concat, Forall_fmap in *.
    apply Forall_alter; [done|]. intros c _ Hc'. simpl. by apply Forall_insert.
  - intros (? & ? & ?). split; [done|]. split; [|done]. by apply Forall_insert.
  - intros (? & ? & ? & ?). split; [done|]. split; [done|]. split; [|done].
    by apply Forall_insert.
Qed.

Lemma Forall_allTasks_taskAt (P : Task -> Prop) state loc t :
  Forall P (allTasks state) -> taskAt state loc = Some t -> P t.
Proof.
  destruct state as [cats bb ar pb pa]. unfold taskAt. board_simpl.
  rewrite allTasks_eq, !Forall_app, Forall_concat, Forall_fmap.
  intros (Hc & Hb & Ha & _).
  repeat case_match; try done.
  - destruct (cats !! CategoryIndex loc) as [c|] eqn:Ec; [|done]. simpl.
    intros Ht. eapply Forall_lookup_1; [|exact Ht].
    exact (Forall_lookup_1 _ _ _ _ Hc Ec).
  - intros Ht. exact (Forall_lookup_1 _ _ _ _ Hb Ht).
  - intros Ht. exact (Forall_lookup_1 _ _ _ _ Ha Ht).
Qed.

Lemma CreateTask_Ok_wellFormed newID req state t state' :
  CreateTask newID req state = (Ok t, state') ->
  Size t = Size (CreateTaskRequest.Task req) /\
  State t = State (CreateTaskRequest.Task req) /\
  wellFormed t.
Proof.
  unfold CreateTask.
  destruct (CreateTaskRequest.Validate _) eqn:Hv; [done|].
  pose proof (CreateTaskRequest_Validate_None _ Hv) as [Hst Hsz].
  rewrite CreateTaskRequest_Normalize_Task in Hst, Hsz.
  apply ValidateTaskState_allowed in Hst. unfold wellFormed, validSize in *.
  rewrite (insertTask_validated _ _ _ Hv). cbv zeta.
  rewrite CreateTaskRequest_Normalize_Task.
  repeat case_match; intros [= <- _]; done.
Qed.

(** X8. Tasks stay well formed: from a board on which every task, in any
    of the five containers, has a size in 1..5 and an allowed state, and
    whose active columns hold no two tasks with the same identifier, every
    operation, whatever its outcome, leads to a board of well-formed
    tasks.  Also a failed [UpdateTask], which keeps the fields it
    assigned before the error, has only stored validated values. *)
Theorem tasks_stay_well_formed TrimSpace op state :
  Forall wellFormed (allTasks state) ->
  NoDup (ID <$> boardTasks state) ->
  Forall wellFormed (allTasks (snd (step TrimSpace op state))).
Proof.
  intros Hwf Hnd.
  assert (forall b t, sizeAndState (set_Urgent b t) = sizeAndState t) as H1 by done.
  assert (forall b t, sizeAndState (set_Focused b t) = sizeAndState t) as H2 by done.
  assert (forall v t, sizeAndState (set_SourceID v t) = sizeAndState t) as H3 by done.
  assert (forall v t, sizeAndState (set_Source v t) = sizeAndState t) as H4 by done.
  destruct op as [newID req|id patch|id dest|id|newID name|id name|id dest|id order|id];
    try (apply wellFormed_sizeAndState;
         rewrite (keys_editsNoTask sizeAndState) by done;
         by apply wellFormed_sizeAndState).
  - simpl. destruct (CreateTask newID req state) as [[t|e] state'] eqn:E; simpl.
    + apply wellFormed_sizeAndState.
      rewrite (keys_CreateTask sizeAndState ltac:(done) ltac:(done) _ _ _ _ _ E).
      apply Forall_cons. split; [|by apply wellFormed_sizeAndState].
      by apply CreateTask_Ok_wellFormed in E as (_ & _ & ?).
    + by rewrite (CreateTask_error_state _ _ _ _ _ E).
  - simpl. unfold UpdateTask.
    destruct (findTask state id) as [[t loc]|] eqn:Hfind; [|done].
    destruct (TaskPatch.Apply patch t) as [err t'] eqn:Ea.
    assert (wellFormed t') as Ht'.
    { apply (TaskPatch_Apply_wellFormed _ _ _ _ Ea).
      apply findTask_Ok in Hfind as [_ Hloc]. apply located_taskAt in Hloc.
      eapply (Forall_allTasks_taskAt _ _ _ _ Hwf Hloc). }
    pose proof (Forall_allTasks_setTaskAt _ loc t' _ Ht' Hwf) as Hset.
    destruct err; [done|].
    repeat case_match; simpl; try done;
      apply wellFormed_sizeAndState; rewrite keys_normalizeUrgent by done;
      by apply wellFormed_sizeAndState.
  - simpl. destruct (DeleteTask id state) as [[[]|e] state'] eqn:E; simpl.
    + destruct (keys_DeleteTask sizeAndState _ _ _ E) as (t & _ & Hp).
      apply wellFormed_sizeAndState in Hwf. rewrite Hp in Hwf.
      apply wellFormed_sizeAndState. by apply Forall_cons in Hwf as [_ ?].
    + by rewrite (DeleteTask_error_state _ _ _ _ E).
  - simpl. apply wellFormed_sizeAndState.
    rewrite (keys_ReorderCategoryTasks sizeAndState); [by apply wellFormed_sizeAndState|].
    intros i Hi. apply findCategoryIndex_lookup_total in Hi.
    by eapply NoDup_column.
Qed.

Lemma tasks_stay_well_formed_witness :
  Forall wellFormed
         (allTasks (snd (step trimSpaceASCII (OpUpdateTask "t1" sizeFivePatch) sampleBoard))).
Proof.
  apply (tasks_stay_well_formed trimSpaceASCII (OpUpdateTask "t1" sizeFivePatch) sampleBoard).
  - repeat (apply Forall_cons; split;
            [split; [unfold validSize; simpl; lia|vm_compute; set_solver]|]).
    apply Forall_nil. done.
  - apply (bool_decide_unpack _). vm_compute. reflexivity.
Defined.

(** * Finding a task after it has moved *)

Lemma absent_allTasks_findTask state id :
  id ∉ ID <$> allTasks state -> findTask state id = Err (Sentinel ErrTaskNotFound).
Proof.
  intros H. apply Forall_ID_fmap in H.
  destruct state as [cats bb ar pb pa].
  rewrite allTasks_eq, !Forall_app, Forall_concat, Forall_fmap in H.
  destruct H as (Hc & Hb & Ha & _).
  apply findTask_Err. by repeat split.
Qed.

(** On a board of distinct identifiers, a task that has been removed is
    not found any more. *)
Lemma removeTask_absent state id t loc :
  NoDup (ID <$> allTasks state) ->
  findTask state id = Ok (t, loc) ->
  findTask (snd (removeTask state id)) id = Err (Sentinel ErrTaskNotFound).
Proof.
  intros Hnd Hfind. apply absent_allTasks_findTask.
  rewrite (keys_removeTask ID _ _ _ _ Hfind) in Hnd.
  apply NoDup_cons in Hnd as [Hnot _].
  by apply findTask_Ok in Hfind as [<- _].
Qed.

Lemma MoveTask_Ok_inv id dest state t state' :
  MoveTask id dest state = (Ok t, state') ->
  exists loc d,
    findTask state id = Ok (t, loc) /\
    placeTask t d (snd (removeTask state id)) = (None, state') /\
    MoveTaskRequest.Location d = MoveTaskRequest.Location dest /\
    MoveTaskRequest.CategoryID d = MoveTaskRequest.CategoryID dest /\
    MoveTaskRequest.Position d = MoveTaskRequest.Position dest.
Proof.
  unfold MoveTask.
  destruct (removeTask state id) as [[[task loc]|e1] s1] eqn:Er; [|done].
  apply removeTask_inv in Er as [Hfind ->].
  set (d := if _ && _ then _ else dest).
  destruct (placeTask task d _) as [[e2|] s2] eqn:Ep; [done|].
  rewrite Task_Clone_id. intros [= <- <-]. exists loc, d.
  split; [done|]. split; [done|]. unfold d. by repeat case_match.
Qed.

Lemma length_column_normalizeUrgent state idx u i :
  length (Tasks (Categories (normalizeUrgent state idx u) !!! i))
  = length (Tasks (Categories state !!! i)).
Proof.
  unfold normalizeUrgent. board_simpl. rewrite !list_lookup_total_alt.
  destruct (decide (idx = i)) as [->|Hne].
  - rewrite list_lookup_alter_eq.
    destruct (Categories state !! i) as [c|]; [|done]. simpl. by rewrite length_fmap.
  - by rewrite list_lookup_alter_ne.
Qed.

(** What a successful [placeTask] stores, and where. *)
Lemma placeTask_then_findTask task dest state state' :
  placeTask task dest state = (None, state') ->
  findTask state (ID task) = Err (Sentinel ErrTaskNotFound) ->
  exists t',
    findTask state' (ID task) = Ok (t', placedAt dest state) /\
    taskContent t' = taskContent task /\ Focused t' = false /\
    (Kind (placedAt dest state) <> LocationCategory -> Urgent t' = false).
Proof.
  unfold placeTask, placedAt.
  destruct (MoveTaskRequest.Validate _); [done|].
  set (dest' := MoveTaskRequest.Normalize dest).
  destruct (String.eqb (MoveTaskRequest.Location dest') LocationCategory).
  - destruct (findCategoryIndex _ _) as [idx|] eqn:Eidx; [|done].
    set (task' := set_Source "" (set_SourceID "" (set_Focused false task))).
    set (u := if Urgent task' then _ else _).
    assert (exists x, u = normalizeUrgent state idx x) as [x Hu].
    { unfold u. destruct (Urgent task'); eauto. }
    destruct (ensureCapacity _); [done|]. intros [= <-] Hnew.
    exists task'. split; [|done].
    rewrite <- (length_column_normalizeUrgent state idx x idx), <- Hu.
    apply (findTask_inserted u idx _ task').
    + eapply findTask_skeleton_Err; [|exact Hnew].
      by rewrite Hu, idSkeleton_normalizeUrgent.
    + rewrite Hu, length_Categories_normalizeUrgent.
      apply findCategoryIndex_Some in Eidx as (c & Hc & _). by eapply lookup_lt_Some.
    + apply insertIndex_le.
  - destruct (String.eqb (MoveTaskRequest.Location dest') LocationBackburner).
    + intros [= <-] (_ & Habs & Hbb & _)%findTask_Err.
      exists (set_Source (MoveTaskRequest.Source dest')
                (set_SourceID (MoveTaskRequest.SourceID dest')
                   (set_Focused false (set_Urgent false (set_Focused false task))))).
      split; [|done].
      apply findTask_Ok. split; [done|].
      apply located_backburner; simpl.
      * done.
      * by apply list_lookup_middle.
      * by rewrite take_app_length.
    + destruct (String.eqb (MoveTaskRequest.Location dest') LocationArchive); [|done].
      intros [= <-] (_ & Habs & Hbb & Har)%findTask_Err.
      exists (set_Source (MoveTaskRequest.Source dest')
                (set_SourceID (MoveTaskRequest.SourceID dest')
                   (set_Focused false (set_Urgent false (set_Focused false task))))).
      split; [|done].
      apply findTask_Ok. split; [done|].
      apply located_archive; simpl.
      * done.
      * done.
      * by apply list_lookup_middle.
      * by rewrite take_app_length.
Qed.

Lemma placedAt_ext d dest state :
  MoveTaskRequest.Location d = MoveTaskRequest.Location dest ->
  MoveTaskRequest.CategoryID d = MoveTaskRequest.CategoryID dest ->
  MoveTaskRequest.Position d = MoveTaskRequest.Position dest ->
  placedAt d state = placedAt dest state.
Proof.
  destruct d, dest. simpl. intros -> -> ->. unfold placedAt, MoveTaskRequest.Normalize.
  simpl. by destruct (String.eqb _ "").
Qed.

Lemma placedAt_archive dest state :
  MoveTaskRequest.Location dest = LocationArchive ->
  placedAt dest state = mkTaskLocation LocationArchive 0 (length (Archives state)).
Proof. destruct dest. simpl. intros ->. reflexivity. Qed.

(** X9. On a board of distinct task identifiers, a task that has been
    moved is found again under its identifier at the place the request
    asked for: the requested position of the destination column when it
    is within bounds (counted once the task has left its old place), the
    end of the column otherwise, the end of [Backburner] or of
    [Archives].  The stored task says what the task said before; it is
    not focused, and outside the board it is not urgent. *)
Theorem MoveTask_then_findTask id dest state t state' :
  NoDup (ID <$> allTasks state) ->
  MoveTask id dest state = (Ok t, state') ->
  exists t',
    findTask state' id = Ok (t', placedAt dest (snd (removeTask state id))) /\
    taskContent t' = taskContent t /\ Focused t' = false /\
    (Kind (placedAt dest (snd (removeTask state id))) <> LocationCategory ->
     Urgent t' = false).
Proof.
  intros Hnd (loc & d & Hfind & Hplace & Hl & Hc & Hp)%MoveTask_Ok_inv.
  pose proof (removeTask_absent _ _ _ _ Hnd Hfind) as Habs.
  assert (id = ID t) as -> by (by apply findTask_Ok in Hfind as [? _]).
  destruct (placeTask_then_findTask _ _ _ _ Hplace Habs) as (t' & H1 & H2 & H3 & H4).
  rewrite (placedAt_ext _ _ _ Hl Hc Hp) in *.
  by exists t'.
Qed.

Lemma MoveTask_then_findTask_witness :
  exists t',
    findTask (snd (MoveTask "a1" toHeadOfFirst roomyBoard)) "a1"
    = Ok (t', placedAt toHeadOfFirst (snd (removeTask roomyBoard "a1"))) /\
    taskContent t' = taskContent (sampleTask "a1" 1 false false) /\ Focused t' = false /\
    (Kind (placedAt toHeadOfFirst (snd (removeTask roomyBoard "a1"))) <> LocationCategory ->
     Urgent t' = false).
Proof.
  apply (MoveTask_then_findTask "a1" toHeadOfFirst roomyBoard
           (sampleTask "a1" 1 false false) (snd (MoveTask "a1" toHeadOfFirst roomyBoard))).
  - apply (bool_decide_unpack _). vm_compute. reflexivity.
  - reflexivity.
Defined.

(** The closure of [DeleteTask] after the closure of a [MoveTask] to
    [Archives]. *)
Lemma DeleteTask_after_archiving id dest state t state' :
  NoDup (ID <$> allTasks state) ->
  MoveTaskRequest.Location dest = LocationArchive ->
  MoveTask id dest state = (Ok t, state') ->
  DeleteTask id state' = (Ok (), snd (removeTask state id)) /\
  findTask (snd (removeTask state id)) id = Err (Sentinel ErrTaskNotFound).
Proof.
  intros Hnd Hdest (loc & d & Hfind & Hplace & Hl & _)%MoveTask_Ok_inv.
  pose proof (removeTask_absent _ _ _ _ Hnd Hfind) as Habs.
  split; [|done].
  assert (id = ID t) as -> by (by apply findTask_Ok in Hfind as [? _]).
  destruct (placeTask_then_findTask _ _ _ _ Hplace Habs) as (t' & Hfind' & _).
  rewrite Hdest in Hl.
  rewrite (placedAt_archive _ _ Hl) in Hfind'.
  rewrite (DeleteTask_archived _ _ _ _ Hfind').
  rewrite (placeTask_archive _ _ _ Hl) in Hplace. injection Hplace as <-.
  destruct (snd (removeTask state (ID t))) as [cats bb ar pb pa]. board_simpl.
  do 2 f_equal.
  rewrite delete_take_drop, take_app_length, drop_ge by (rewrite length_app; simpl; lia).
  by rewrite app_nil_r.
Qed.

(** X10. Archive, then delete: on a board of distinct task identifiers,
    once the engine has moved a task to [Archives] (the move saved or
    not), [DeleteTask] on it is not refused by the engine, and what it
    leaves in memory is the board the task was taken from: the task is
    gone and nothing else has changed since it left its place.  The
    method returns no error unless the save that follows fails. *)
Theorem archive_then_delete saveLocked id dest state t state' :
  NoDup (ID <$> allTasks state) ->
  MoveTaskRequest.Location dest = LocationArchive ->
  MoveTask id dest state = (Ok t, state') ->
  let rest := snd (removeTask state id) in
  withWrite saveLocked (DeleteTask id) state' = (afterSave saveLocked () rest, rest) /\
  findTask rest id = Err (Sentinel ErrTaskNotFound).
Proof.
  intros Hnd Hdest Hmove rest.
  destruct (DeleteTask_after_archiving _ _ _ _ _ Hnd Hdest Hmove) as [Hdel Hgone].
  split; [by apply withWrite_Ok|done].
Qed.

Lemma archive_then_delete_witness :
  withWrite diskOK (DeleteTask "t2") (snd (MoveTask "t2" intoArchive sampleBoard))
  = (Ok (), snd (removeTask sampleBoard "t2")) /\
  findTask (snd (removeTask sampleBoard "t2")) "t2" = Err (Sentinel ErrTaskNotFound).
Proof.
  apply (archive_then_delete diskOK "t2" intoArchive sampleBoard
           (sampleTask "t2" 2 false false)
           (snd (MoveTask "t2" intoArchive sampleBoard))).
  - apply (bool_decide_unpack _). vm_compute. reflexivity.
  - reflexivity.
  - reflexivity.
Defined.

(** * Moving a category *)

Lemma findCategoryIndex_list_find cats id i :
  findCategoryIndex cats id = Some i ->
  list_find (fun c => CatID c = id) cats = Some (i, cats !!! i).
Proof.
  unfold findCategoryIndex.
  destruct (list_find _ cats) as [[j c]|] eqn:E; [|done]. simpl. intros [= ->].
  apply list_find_Some in E as (Hc & _). by rewrite (list_lookup_total_correct _ _ _ Hc).
Qed.

Lemma MoveCategoryRequest_named dest loc :
  MoveCategoryRequest.Location dest = loc -> loc <> "" ->
  MoveCategoryRequest.Normalize dest = dest.
Proof.
  intros <- Hne. unfold MoveCategoryRequest.Normalize.
  destruct (String.eqb _ "") eqn:E; [|done]. by apply String.eqb_eq in E.
Qed.

Lemma placeCategory_backburner cat dest state :
  MoveCategoryRequest.Location dest = LocationBackburner ->
  placeCategory cat dest state
  = (None, clearCategoryFocus cat,
     set_CategoryBackburner (CategoryBackburner state ++ [clearCategoryFocus cat]) state).
Proof. unfold placeCategory. by intros ->. Qed.

Lemma placeCategory_archive cat dest state :
  MoveCategoryRequest.Location dest = LocationArchive ->
  placeCategory cat dest state
  = (None, clearCategoryFocus cat,
     set_CategoryArchives (CategoryArchives state ++ [clearCategoryFocus cat]) state).
Proof. unfold placeCategory. by intros ->. Qed.

Lemma placeCategory_board cat dest state :
  MoveCategoryRequest.Location dest = LocationCategoryBoard ->
  (length (Categories state) < CategoryLimit)%nat ->
  ensureCapacity cat = None ->
  placeCategory cat dest state
  = (None, cat,
     set_Categories
       (insertAt (insertIndex (MoveCategoryRequest.Position dest)
                              (length (Categories state))) cat (Categories state))
       state).
Proof.
  unfold placeCategory. intros -> Hlen ->. rewrite String.eqb_refl.
  destruct (CategoryLimit <=? length (Categories state))%nat eqn:E; [|done].
  apply Nat.leb_le in E. lia.
Qed.

Lemma MoveCategory_detached id dest state c loc state1 :
  MoveCategoryRequest.Location dest <> "" ->
  MoveCategoryRequest.Validate dest = None ->
  detached state id c loc state1 ->
  MoveCategory id dest state
  = match placeCategory c dest state1 with
    | (Some e, cat, state2) => (Err e, restoreCategory state2 cat loc)
    | (None, cat, state2) => (Ok cat, state2)
    end.
Proof.
  intros Hne Hv Hd%removeCategory_Ok. unfold MoveCategory.
  rewrite (MoveCategoryRequest_named dest _ eq_refl Hne), Hv, Hd.
  destruct (placeCategory c dest state1) as [[[e|] cat] state2]; [done|].
  by rewrite Category_Clone_id.
Qed.

(** The closure of [MoveCategory] on a category of the board that goes
    to [CategoryBackburner] or [CategoryArchives]. *)
Lemma MoveCategory_parks id dest state i :
  findCategoryIndex (Categories state) id = Some i ->
  let parked := clearCategoryFocus (Categories state !!! i) in
  let rest := set_Categories (delete i (Categories state)) state in
  (MoveCategoryRequest.Location dest = LocationBackburner ->
   MoveCategory id dest state
   = (Ok parked,
      set_CategoryBackburner (CategoryBackburner state ++ [parked]) rest)) /\
  (MoveCategoryRequest.Location dest = LocationArchive ->
   MoveCategory id dest state
   = (Ok parked,
      set_CategoryArchives (CategoryArchives state ++ [parked]) rest)).
Proof.
  intros Hi%findCategoryIndex_list_find parked rest.
  pose proof (detached_board state id _ i Hi) as Hd.
  split; intros Hdest.
  - rewrite (MoveCategory_detached _ _ _ _ _ _ ltac:(by rewrite Hdest)
               ltac:(unfold MoveCategoryRequest.Validate; by rewrite Hdest) Hd).
    by rewrite placeCategory_backburner.
  - rewrite (MoveCategory_detached _ _ _ _ _ _ ltac:(by rewrite Hdest)
               ltac:(unfold MoveCategoryRequest.Validate; by rewrite Hdest) Hd).
    by rewrite placeCategory_archive.
Qed.

(** X11. Parking a category of the board is never refused by the
    engine: in memory the category leaves the board with all its tasks
    and is appended to [CategoryBackburner] or [CategoryArchives]; its
    tasks keep every field but the focused flag, which is cleared.  The
    method returns the category as parked, unless the save that follows
    fails: then it returns the error of the save, and the category stays
    parked in memory. *)
Theorem MoveCategory_off_the_board_clears_focus saveLocked id dest state i :
  findCategoryIndex (Categories state) id = Some i ->
  let parked := clearCategoryFocus (Categories state !!! i) in
  let rest := set_Categories (delete i (Categories state)) state in
  (MoveCategoryRequest.Location dest = LocationBackburner ->
   let board := set_CategoryBackburner (CategoryBackburner state ++ [parked]) rest in
   withWrite saveLocked (MoveCategory id dest) state
   = (afterSave saveLocked parked board, board)) /\
  (MoveCategoryRequest.Location dest = LocationArchive ->
   let board := set_CategoryArchives (CategoryArchives state ++ [parked]) rest in
   withWrite saveLocked (MoveCategory id dest) state
   = (afterSave saveLocked parked board, board)).
Proof.
  intros Hi parked rest.
  destruct (MoveCategory_parks id dest state i Hi) as [Hb Ha].
  split; intros Hdest board; apply withWrite_Ok; auto.
Qed.

Lemma MoveCategory_off_the_board_clears_focus_witness :
  withWrite diskOK (MoveCategory "c1" (MoveCategoryRequest.mk LocationBackburner None))
            roomyBoard
  = (Ok (mkCategory "c1" "Alpha"
           [sampleTask "t1" 2 true false; sampleTask "t2" 2 false false]),
     mkBoardState
       [mkCategory "c2" "Beta" [sampleTask "t3" 5 true false]]
       [sampleTask "b1" 3 false false]
       [sampleTask "a1" 1 false false]
       [mkCategory "p1" "Parked" [sampleTask "pt" 4 true false];
        mkCategory "c1" "Alpha"
          [sampleTask "t1" 2 true false; sampleTask "t2" 2 false false]]
       []).
Proof.
  apply (proj1 (MoveCategory_off_the_board_clears_focus
                  diskOK "c1" (MoveCategoryRequest.mk LocationBackburner None) roomyBoard 0
                  eq_refl)).
  reflexivity.
Defined.

Lemma ensureCapacity_loop_sizes total (ts ts' : list Task) :
  Size <$> ts = Size <$> ts' ->
  ensureCapacity_loop total ts = ensureCapacity_loop total ts'.
Proof.
  revert total ts'. induction ts as [|t ts IH]; intros total [|t' ts'] H; try done.
  simpl in *. injection H as -> H. destruct (_ <? _); [done|]. by apply IH.
Qed.

Lemma ensureCapacity_clearCategoryFocus c :
  ensureCapacity (clearCategoryFocus c) = ensureCapacity c.
Proof.
  unfold ensureCapacity. apply ensureCapacity_loop_sizes. simpl.
  rewrite <- list_fmap_compose. by apply list_fmap_ext.
Qed.

(** X12. A parked category comes back as it is: when the board holds
    fewer than [CategoryLimit] columns and the category passes the
    capacity check, a category found in [CategoryBackburner] (and on no
    active column) is taken out of it and inserted at the requested
    position of the board, or at its end when the position is missing or
    out of bounds, with its tasks and their flags untouched. *)
Theorem MoveCategory_back_to_the_board id dest state i c :
  Forall (fun c => CatID c <> id) (Categories state) ->
  list_find (fun c => CatID c = id) (CategoryBackburner state) = Some (i, c) ->
  MoveCategoryRequest.Location dest = LocationCategoryBoard ->
  (length (Categories state) < CategoryLimit)%nat ->
  ensureCapacity c = None ->
  MoveCategory id dest state
  = (Ok c,
     set_Categories
       (insertAt (insertIndex (MoveCategoryRequest.Position dest)
                              (length (Categories state))) c (Categories state))
       (set_CategoryBackburner (delete i (CategoryBackburner state)) state)).
Proof.
  intros Hnot Hi Hdest Hlen Hcap.
  pose proof (detached_backburner state id _ i Hnot Hi) as Hd.
  rewrite (MoveCategory_detached _ _ _ _ _ _ ltac:(by rewrite Hdest)
             ltac:(unfold MoveCategoryRequest.Validate; by rewrite Hdest) Hd).
  by rewrite placeCategory_board.
Qed.

Lemma MoveCategory_back_to_the_board_witness :
  MoveCategory "p1" (MoveCategoryRequest.mk LocationCategoryBoard (Some 1)) sampleBoard
  = (Ok (mkCategory "p1" "Parked" [sampleTask "pt" 2 false false]),
     mkBoardState
       [mkCategory "c1" "Alpha" [sampleTask "t1" 3 true false; sampleTask "t2" 2 false false];
        mkCategory "p1" "Parked" [sampleTask "pt" 2 false false];
        mkCategory "c2" "Beta" [sampleTask "t3" 5 true false]]
       [sampleTask "b1" 1 false false]
       [sampleTask "a1" 1 false false]
       []
       []).
Proof.
  apply (MoveCategory_back_to_the_board
           "p1" (MoveCategoryRequest.mk LocationCategoryBoard (Some 1)) sampleBoard 0
           (mkCategory "p1" "Parked" [sampleTask "pt" 2 false false])).
  - repeat constructor; done.
  - reflexivity.
  - reflexivity.
  - simpl. unfold CategoryLimit. lia.
  - reflexivity.
Defined.

(** The closures of a [MoveCategory] to [CategoryBackburner] and of the
    [MoveCategory] that brings the category back to its index. *)
Lemma MoveCategory_parked_and_restored id state i :
  findCategoryIndex (Categories state) id = Some i ->
  Forall (fun c => CatID c <> id) (delete i (Categories state) ++ CategoryBackburner state) ->
  (length (Categories state) <= CategoryLimit)%nat ->
  ensureCapacity (Categories state !!! i) = None ->
  let parked := clearCategoryFocus (Categories state !!! i) in
  exists state1,
    MoveCategory id (MoveCategoryRequest.mk LocationBackburner None) state
    = (Ok parked, state1) /\
    MoveCategory id (MoveCategoryRequest.mk LocationCategoryBoard (Some (Z.of_nat i))) state1
    = (Ok parked, set_Categories (<[i := parked]> (Categories state)) state).
Proof.
  intros Hi [Hcats Hpb]%Forall_app Hlen Hcap parked.
  pose proof (findCategoryIndex_lt _ _ _ Hi) as Hlt.
  apply findCategoryIndex_list_find in Hi.
  eexists. split.
  { rewrite (MoveCategory_detached id (MoveCategoryRequest.mk LocationBackburner None)
               state _ _ _ ltac:(by simpl) ltac:(reflexivity)
               (detached_board state id _ i Hi)).
    by rewrite placeCategory_backburner. }
  fold parked.
  set (state1 := set_CategoryBackburner _ _).
  assert (list_find (fun c => CatID c = id) (CategoryBackburner state1)
          = Some (length (CategoryBackburner state), parked)) as Hfind.
  { apply list_find_Some. simpl. split; [by apply list_lookup_middle|].
    split; [by apply list_find_Some in Hi as (_ & ? & _)|].
    intros j c Hj Hlt'. rewrite lookup_app_l in Hj by done.
    exact (Forall_lookup_1 _ _ _ _ Hpb Hj). }
  rewrite (MoveCategory_detached
             id (MoveCategoryRequest.mk LocationCategoryBoard (Some (Z.of_nat i)))
             state1 _ _ _ ltac:(by simpl) ltac:(reflexivity)
             (detached_backburner state1 id _ _ Hcats Hfind)).
  rewrite placeCategory_board; [|done| |].
  - unfold state1. board_simpl. cbn [MoveCategoryRequest.Position]. f_equal.
    assert (insertIndex (Some (Z.of_nat i)) (length (delete i (Categories state))) = i) as ->.
    { unfold insertIndex. rewrite length_delete by (by apply lookup_lt_is_Some_2).
      destruct (_ && _) eqn:E; [by rewrite Nat2Z.id|].
      apply andb_false_iff in E as [E|E]; [apply Z.leb_gt in E|apply Z.leb_gt in E]; lia. }
    destruct state as [cats bb ar pb pa]. board_simpl.
    f_equal.
    + by apply insertAt_delete_insert.
    + rewrite delete_take_drop, take_app_length, drop_ge
        by (rewrite length_app; simpl; lia).
      by rewrite app_nil_r.
  - simpl. rewrite length_delete by (by apply lookup_lt_is_Some_2). lia.
  - unfold parked. by rewrite ensureCapacity_clearCategoryFocus.
Qed.

(** X13. Park and restore: a category of the board that is parked in
    [CategoryBackburner] and then moved back to the board at the index it
    had is back where it was, on a board with at most [CategoryLimit]
    columns, when the category passes the capacity check and its
    identifier is carried by no other active column and by no category of
    [CategoryBackburner].  The engine refuses neither move, and the board
    in memory after the two is the board before them, except that the
    tasks of the category are no longer focused.  Each of the two
    methods returns the category as parked, unless its save fails: then
    it returns the error of the save, and its move stays in memory. *)
Theorem MoveCategory_park_and_restore save1 save2 id state i :
  findCategoryIndex (Categories state) id = Some i ->
  Forall (fun c => CatID c <> id) (delete i (Categories state) ++ CategoryBackburner state) ->
  (length (Categories state) <= CategoryLimit)%nat ->
  ensureCapacity (Categories state !!! i) = None ->
  let parked := clearCategoryFocus (Categories state !!! i) in
  let board := set_Categories (<[i := parked]> (Categories state)) state in
  exists state1,
    withWrite save1 (MoveCategory id (MoveCategoryRequest.mk LocationBackburner None)) state
    = (afterSave save1 parked state1, state1) /\
    withWrite save2
              (MoveCategory id (MoveCategoryRequest.mk LocationCategoryBoard
                                                       (Some (Z.of_nat i)))) state1
    = (afterSave save2 parked board, board).
Proof.
  intros Hi Hfree Hlen Hcap parked board.
  destruct (MoveCategory_parked_and_restored id state i Hi Hfree Hlen Hcap)
    as (state1 & H1 & H2).
  exists state1. split; by apply withWrite_Ok.
Qed.

Lemma MoveCategory_park_and_restore_witness :
  exists state1,
    withWrite diskFull (MoveCategory "c1" (MoveCategoryRequest.mk LocationBackburner None))
              roomyBoard
    = (Err (Errorf "write temp file: no space left on device"), state1) /\
    withWrite diskOK
              (MoveCategory "c1" (MoveCategoryRequest.mk LocationCategoryBoard
                                                         (Some (Z.of_nat 0)))) state1
    = (Ok (clearCategoryFocus (Categories roomyBoard !!! 0%nat)),
       set_Categories
         (<[0%nat := clearCategoryFocus (Categories roomyBoard !!! 0%nat)]>
            (Categories roomyBoard)) roomyBoard).
Proof.
  apply (MoveCategory_park_and_restore diskFull diskOK "c1" roomyBoard 0).
  - reflexivity.
  - repeat constructor; done.
  - simpl. unfold CategoryLimit. lia.
  - reflexivity.
Defined.

(** * The HTTP layer *)

(** ** Errors and status codes *)

Lemma ValidateTaskState_typed st e :
  ValidateTaskState st = Some e -> errors_Is e ErrInvalidState = true.
Proof. unfold ValidateTaskState. case_bool_decide; [done|]. by intros [= <-]. Qed.

Lemma NormalizeSize_typed size e :
  NormalizeSize size = Err e -> e = Sentinel ErrInvalidTaskSize.
Proof. unfold NormalizeSize. case_match; [|done]. by intros [= <-]. Qed.

(** An error built on a sentinel wraps it. *)
Ltac wraps :=
  match goal with
  | |- exists s, errors_Is (Sentinel ?x) s = true => by exists x
  | |- exists s, errors_Is (Wrapf ?x _) s = true => by exists x
  end.

Lemma findTask_wraps state id e :
  findTask state id = Err e -> exists s, errors_Is e s = true.
Proof. intros (-> & _)%findTask_Err. wraps. Qed.

Lemma CreateTaskRequest_Validate_wraps req e :
  CreateTaskRequest.Validate req = Some e -> exists s, errors_Is e s = true.
Proof.
  unfold CreateTaskRequest.Validate.
  destruct (ValidateTaskState _) eqn:Est.
  { intros [= <-]. eauto using ValidateTaskState_typed. }
  destruct (NormalizeSize _) eqn:Esz.
  - repeat case_match; try done; intros [= <-]; wraps.
  - apply NormalizeSize_typed in Esz as ->. intros [= <-]. wraps.
Qed.

Lemma CreateTask_wraps newID req state e state' :
  CreateTask newID req state = (Err e, state') -> exists s, errors_Is e s = true.
Proof.
  unfold CreateTask.
  destruct (CreateTaskRequest.Validate _) eqn:Hv.
  { intros [= <- _]. by eapply CreateTaskRequest_Validate_wraps. }
  rewrite (insertTask_validated _ _ _ Hv). cbv zeta.
  destruct (String.eqb _ LocationCategory).
  - destruct (findCategoryIndex _ _); [|intros [= <- _]; wraps].
    destruct (ensureCapacity _) eqn:Ecap; [|done].
    apply ensureCapacity_error in Ecap as ->. intros [= <- _]. wraps.
  - by destruct (String.eqb _ LocationBackburner).
Qed.

Lemma TaskPatch_Apply_wraps patch t e t' :
  TaskPatch.Apply patch t = (Some e, t') -> exists s, errors_Is e s = true.
Proof.
  unfold TaskPatch.Apply. cbv zeta.
  assert (forall task,
            match (match TaskPatch.Size patch with
                   | Some v =>
                     match NormalizeSize v with
                     | Err e => inl e
                     | Ok size => inr (set_Size size task)
                     end
                   | None => inr task
                   end) with
            | inl e0 => e0 = Sentinel ErrInvalidTaskSize
            | inr _ => True
            end) as Hsize.
  { intros task. destruct (TaskPatch.Size patch) as [sz|]; [|done].
    destruct (NormalizeSize sz) eqn:Esz; [done|]. by apply NormalizeSize_typed in Esz. }
  destruct (TaskPatch.State patch) as [st|].
  - destruct (ValidateTaskState st) eqn:Est.
    + intros [= <- _]. exists ErrInvalidState. by eapply ValidateTaskState_typed.
    + match goal with |- context [match ?x with inl _ => _ | inr _ => _ end] =>
        match type of x with (error + Task)%type =>
          match x with context [set_State st ?task] =>
            specialize (Hsize (set_State st task)) end end end.
      destruct (match TaskPatch.Size patch with Some _ => _ | None => _ end); [|done].
      subst. intros [= <- _]. wraps.
  - match goal with |- context [match ?x with inl _ => _ | inr _ => _ end] =>
      match x with context [inr ?task] => specialize (Hsize task) end end.
    destruct (match TaskPatch.Size patch with Some _ => _ | None => _ end); [|done].
    subst. intros [= <- _]. wraps.
Qed.

Lemma UpdateTask_wraps id patch state e state' :
  UpdateTask id patch state = (Err e, state') -> exists s, errors_Is e s = true.
Proof.
  unfold UpdateTask.
  destruct (findTask state id) as [[t loc]|e0] eqn:Hfind.
  - destruct (TaskPatch.Apply patch t) as [[e1|] t'] eqn:Ea.
    + intros [= <- _]. by eapply TaskPatch_Apply_wraps.
    + destruct (String.eqb (Kind loc) LocationCategory); [|done].
      destruct (ensureCapacity _) eqn:Ecap; [|done].
      apply ensureCapacity_error in Ecap as ->. intros [= <- _]. wraps.
  - intros [= <- _]. by eapply findTask_wraps.
Qed.

Lemma placeTask_wraps task dest state e state' :
  placeTask task dest state = (Some e, state') -> exists s, errors_Is e s = true.
Proof.
  unfold placeTask.
  destruct (MoveTaskRequest.Validate _) eqn:Hv.
  { intros [= <- _]. revert Hv. unfold MoveTaskRequest.Validate.
    repeat case_match; try done; intros [= <-]; wraps. }
  destruct (String.eqb _ LocationCategory).
  - destruct (findCategoryIndex _ _); [|intros [= <- _]; wraps].
    destruct (ensureCapacity _) eqn:Ecap; [|done].
    apply ensureCapacity_error in Ecap as ->. intros [= <- _]. wraps.
  - repeat case_match; try done. intros [= <- _]. wraps.
Qed.

Lemma MoveTask_wraps id dest state e state' :
  MoveTask id dest state = (Err e, state') -> exists s, errors_Is e s = true.
Proof.
  unfold MoveTask.
  destruct (removeTask state id) as [[[task loc]|e1] s1] eqn:Er.
  - destruct (placeTask _ _ _) as [[e2|] s2] eqn:Ep; [|done].
    intros [= <- _]. by eapply placeTask_wraps.
  - unfold removeTask in Er. destruct (findTask state id) as [[? ?]|]; [done|].
    injection Er as <- _. intros [= <- _]. wraps.
Qed.

Lemma MoveCategory_wraps id dest state e state' :
  MoveCategory id dest state = (Err e, state') -> exists s, errors_Is e s = true.
Proof.
  unfold MoveCategory.
  destruct (MoveCategoryRequest.Validate _) eqn:Hv.
  { intros [= <- _]. revert Hv. unfold MoveCategoryRequest.Validate.
    case_match; [done|]. intros [= <-]. wraps. }
  destruct (removeCategory state id) as [[[cat loc]|e1] s1] eqn:Er.
  - destruct (placeCategory _ _ _) as [[[e2|] cat'] s2] eqn:Ep; [|done].
    intros [= <- _]. revert Ep. unfold placeCategory.
    repeat case_match; try done; intros [= <- _ _]; try wraps.
    match goal with H : ensureCapacity _ = Some _ |- _ =>
      apply ensureCapacity_error in H as -> end.
    wraps.
  - apply removeCategory_Err in Er as (-> & _). intros [= <- _]. wraps.
Qed.

Lemma ReorderCategoryTasks_wraps id order state e state' :
  ReorderCategoryTasks id order state = (Err e, state') ->
  exists s, errors_Is e s = true.
Proof.
  unfold ReorderCategoryTasks, reorderTasks.
  destruct (findCategoryIndex _ _); [|intros [= <- _]; wraps].
  destruct (negb _); [intros [= <- _]; wraps|].
  destruct (placeByIndex _ _ _) eqn:Ep; [done|].
  intros [= <- _]. eauto using placeByIndex_Err.
Qed.

Lemma step_wraps TrimSpace op state e state' :
  step TrimSpace op state = (Some e, state') ->
  (forall id, op <> OpDeleteTask id) ->
  exists s, errors_Is e s = true.
Proof.
  intros Hstep Hop. destruct op; simpl in Hstep; unfold outcome in Hstep.
  - destruct (CreateTask _ _ _) as [[?|e0] ?] eqn:E; [done|].
    injection Hstep as <- _. by eapply CreateTask_wraps.
  - destruct (UpdateTask _ _ _) as [[?|e0] ?] eqn:E; [done|].
    injection Hstep as <- _. by eapply UpdateTask_wraps.
  - destruct (MoveTask _ _ _) as [[?|e0] ?] eqn:E; [done|].
    injection Hstep as <- _. by eapply MoveTask_wraps.
  - by destruct (Hop id).
  - revert Hstep. unfold CreateCategory.
    repeat case_match; try done; intros [= <- _]; wraps.
  - revert Hstep. unfold RenameCategory.
    repeat case_match; try done; intros [= <- _]; wraps.
  - destruct (MoveCategory _ _ _) as [[?|e0] ?] eqn:E; [done|].
    injection Hstep as <- _. by eapply MoveCategory_wraps.
  - destruct (ReorderCategoryTasks _ _ _) as [[?|e0] ?] eqn:E; [done|].
    injection Hstep as <- _. by eapply ReorderCategoryTasks_wraps.
  - revert Hstep. unfold SetFocused.
    destruct (String.eqb taskID ""); [done|].
    destruct (findTask state taskID) as [[? ?]|e0] eqn:E; [done|].
    intros [= <- _]. by eapply findTask_wraps.
Qed.

(** A method, from its closure: the error of the closure, or the
    answer of the save. *)
Lemma storeStep_step saveLocked TrimSpace op state :
  storeStep saveLocked TrimSpace op state
  = match step TrimSpace op state with
    | (Some e, state') => (Some e, state')
    | (None, state') => (Errorf <$> saveLocked state', state')
    end.
Proof.
  destruct op; simpl; unfold outcome, withWrite;
    match goal with |- context [match ?r with _ => _ end] =>
      destruct r as [[a|e] state'] end;
    simpl; by destruct (saveLocked state').
Qed.

(** X14. The errors of the store, as the HTTP layer answers them.  An
    error returned by a method other than [DeleteTask] is either the
    error of its closure, which wraps one of the nine sentinel errors and
    which [writeDomainError] answers with 400, 404 or 409 and the text of
    the error; or the error of the save, after a closure that succeeded:
    it is answered with 500 and the text ["internal server error"], and
    what the closure did stays in memory. *)
Theorem only_a_failed_save_is_answered_500 saveLocked TrimSpace op state e state' :
  storeStep saveLocked TrimSpace op state = (Some e, state') ->
  (forall id, op <> OpDeleteTask id) ->
  (step TrimSpace op state = (Some e, state') /\
   Status (writeDomainError e) ∈ [StatusBadRequest; StatusNotFound; StatusConflict] /\
   Payload (writeDomainError e) = JSONError (Error e)) \/
  (exists message,
     step TrimSpace op state = (None, state') /\
     saveLocked state' = Some message /\
     e = Errorf message /\
     writeDomainError e = writeError StatusInternalServerError "internal server error").
Proof.
  rewrite storeStep_step. intros Hstep Hop.
  destruct (step TrimSpace op state) as [[e0|] st] eqn:E.
  - left. injection Hstep as <- <-. split; [done|].
    destruct (step_wraps _ _ _ _ _ E Hop) as [s Hs].
    destruct e0 as [s'|s' msg|msg]; [| |done];
      destruct s'; (split; [|reflexivity]); simpl; set_solver.
  - right. destruct (saveLocked st) as [message|] eqn:Es; [|done].
    injection Hstep as <- <-. by exists message.
Qed.

Lemma only_a_failed_save_is_answered_500_witness :
  (step trimSpaceASCII (OpMoveTask "t2" intoFullColumn) sampleBoard
   = (Some (Sentinel ErrCapacityExceeded), snd (MoveTask "t2" intoFullColumn sampleBoard)) /\
   Status (writeDomainError (Sentinel ErrCapacityExceeded))
   ∈ [StatusBadRequest; StatusNotFound; StatusConflict] /\
   Payload (writeDomainError (Sentinel ErrCapacityExceeded))
   = JSONError (Error (Sentinel ErrCapacityExceeded))) \/
  (exists message,
     step trimSpaceASCII (OpMoveTask "t2" intoFullColumn) sampleBoard
     = (None, snd (MoveTask "t2" intoFullColumn sampleBoard)) /\
     diskFull (snd (MoveTask "t2" intoFullColumn sampleBoard)) = Some message /\
     Sentinel ErrCapacityExceeded = Errorf message /\
     writeDomainError (Sentinel ErrCapacityExceeded)
     = writeError StatusInternalServerError "internal server error").
Proof.
  apply (only_a_failed_save_is_answered_500 diskFull trimSpaceASCII
           (OpMoveTask "t2" intoFullColumn)
           sampleBoard (Sentinel ErrCapacityExceeded)
           (snd (MoveTask "t2" intoFullColumn sampleBoard))).
  - reflexivity.
  - intros id. discriminate.
Defined.

(** ** Paths *)

Lemma stripPrefix_app prefix s : stripPrefix prefix (prefix ++ s) = Some s.
Proof.
  induction prefix as [|c prefix IH]; [by destruct s|].
  simpl. by rewrite Ascii.eqb_refl.
Qed.

Lemma TrimPrefix_app prefix s : TrimPrefix (prefix ++ s) prefix = s.
Proof. unfold TrimPrefix. by rewrite stripPrefix_app. Qed.

Lemma string_length_app (s1 s2 : string) :
  String.length (s1 ++ s2) = (String.length s1 + String.length s2)%nat.
Proof. induction s1 as [|c s1 IH]; simpl; [done|]. by rewrite IH. Qed.

Lemma stripSuffix_app suffix s : stripSuffix suffix (s ++ suffix) = Some s.
Proof.
  induction s as [|c s IH].
  - simpl. destruct suffix; simpl; [done|]. by rewrite Ascii.eqb_refl, String.eqb_refl.
  - change (String c s +:+ suffix) with (String c (s +:+ suffix)).
    cbn [stripSuffix]. rewrite IH.
    destruct (String.eqb (String c (s +:+ suffix)) suffix) eqn:E; [|done].
    apply String.eqb_eq in E. apply (f_equal String.length) in E.
    simpl in E. rewrite string_length_app in E. lia.
Qed.

Lemma HasSuffix_app s suffix : HasSuffix (s ++ suffix) suffix = true.
Proof. unfold HasSuffix. rewrite stripSuffix_app. by apply bool_decide_eq_true. Qed.

Lemma TrimSuffix_app s suffix : TrimSuffix (s ++ suffix) suffix = s.
Proof. unfold TrimSuffix. by rewrite stripSuffix_app. Qed.

Lemma TrimSuffix_without s suffix : HasSuffix s suffix = false -> TrimSuffix s suffix = s.
Proof.
  unfold HasSuffix, TrimSuffix. intros H%bool_decide_eq_false.
  destruct (stripSuffix suffix s); [|done]. by destruct H.
Qed.

Lemma append_nonempty (s suffix : string) : suffix <> "" -> String.eqb (s ++ suffix) "" = false.
Proof.
  intros H. apply String.eqb_neq. intros E. apply (f_equal String.length) in E.
  rewrite string_length_app in E. destruct suffix; [done|]. simpl in E. lia.
Qed.

(** An identifier the multiplexer lets through is not empty and has no
    slash at either end. *)
Lemma routed_nonempty id : routed id -> id <> "".
Proof. intros H ->. by apply Forall_cons in H as [[? _] _]. Qed.

Lemma segments_cons s : exists seg segs, segments s = seg :: segs.
Proof.
  induction s as [|c s (seg & segs & IH)]; simpl; [by eauto|].
  destruct (Ascii.eqb c slash); [by eauto|]. rewrite IH. by eauto.
Qed.

Lemma tail_segments_String c s :
  Ascii.eqb c slash = false -> tail (segments (String c s)) = tail (segments s).
Proof.
  intros E. simpl. rewrite E. by destruct (segments_cons s) as (seg & segs & ->).
Qed.

Lemma trimRightByte_segments s :
  Forall (fun seg => seg <> "") (tail (segments s)) -> trimRightByte s slash = s.
Proof.
  induction s as [|c s IH]; [done|]. intros H. simpl.
  destruct (Ascii.eqb c slash) eqn:E.
  - simpl in H. rewrite E in H. simpl in H.
    assert (s <> "") as Hs by (intros ->; by apply Forall_cons in H as [? _]).
    rewrite IH by (destruct (segments_cons s) as (seg & segs & Hseg);
                   rewrite Hseg in *; simpl; by apply Forall_cons in H as [_ ?]).
    apply String.eqb_neq in Hs. by rewrite Hs.
  - rewrite (tail_segments_String _ _ E) in H. rewrite (IH H).
    by rewrite andb_false_r.
Qed.

Lemma stripSuffix_slash_segments s :
  Forall (fun seg => seg <> "") (tail (segments s)) -> stripSuffix "/" s = None.
Proof.
  induction s as [|c s IH]; [done|]. intros H.
  change (stripSuffix "/" (String c s))
    with (if String.eqb (String c s) "/" then Some EmptyString
          else String c <$> stripSuffix "/" s).
  destruct (String.eqb (String c s) "/") eqn:Eq.
  - apply String.eqb_eq in Eq. rewrite Eq in H. vm_compute in H.
    by apply Forall_cons in H as [? _].
  - destruct (Ascii.eqb c slash) eqn:E.
    + simpl in H. rewrite E in H. simpl in H.
      rewrite IH; [done|].
      destruct (segments_cons s) as (seg & segs & Hseg).
      rewrite Hseg in *. simpl. by apply Forall_cons in H as [_ ?].
    + rewrite (tail_segments_String _ _ E) in H. by rewrite (IH H).
Qed.

Lemma routed_tail id :
  routed id -> Forall (fun seg => seg <> "") (tail (segments id)).
Proof.
  unfold routed. intros H. destruct (segments id) as [|seg segs]; [done|]. simpl.
  apply Forall_cons in H as [_ H]. eapply Forall_impl; [exact H|]. by intros ? [? _].
Qed.

Lemma routed_TrimByte id : routed id -> TrimByte id slash = id.
Proof.
  intros H. unfold TrimByte. rewrite (trimRightByte_segments _ (routed_tail _ H)).
  destruct id as [|c s]; [done|]. simpl.
  destruct (Ascii.eqb c slash) eqn:E; [|done].
  unfold routed in H. simpl in H. rewrite E in H. by apply Forall_cons in H as [[? _] _].
Qed.

Lemma routed_HasSuffix_slash id : routed id -> HasSuffix id "/" = false.
Proof.
  intros H. unfold HasSuffix. rewrite (stripSuffix_slash_segments _ (routed_tail _ H)).
  apply bool_decide_eq_false. by intros [? ?].
Qed.

Section paths.

Variable saveLocked : BoardState -> option string.
Variable Body : Type.
Variable decodeTaskPatch : Body -> string + TaskPatch.t.
Variable decodeMoveTaskRequest : Body -> string + MoveTaskRequest.t.

(** X15. The path of a task reaches the task.  Take an identifier whose
    paths the multiplexer hands to the handler: none of its segments is
    empty, ["."] or [".."].  When it does not end in ["/move"], [PATCH]
    and [DELETE] on ["/api/tasks/" ++ id] are answered from the methods
    [UpdateTask id] and [DeleteTask id]; [POST] on
    ["/api/tasks/" ++ id ++ "/move"] is answered from the method
    [MoveTask id].  The ["/move"] suffix is tested first: under it every
    other method is refused with 405 and the board is left alone, so a
    task whose identifier ends in ["/move"] can be neither patched nor
    deleted. *)
Theorem task_paths_reach_the_task id body state :
  routed id ->
  (HasSuffix id "/move" = false ->
   (forall patch,
      decodeTaskPatch body = inr patch ->
      handleTaskByID saveLocked Body decodeTaskPatch decodeMoveTaskRequest
                     "PATCH" ("/api/tasks/" ++ id) body state
      = respondTask (withWrite saveLocked (UpdateTask id patch) state)) /\
   handleTaskByID saveLocked Body decodeTaskPatch decodeMoveTaskRequest
                  "DELETE" ("/api/tasks/" ++ id) body state
   = respondBoard (withWrite saveLocked (DeleteTask id) state)) /\
  (forall req,
     decodeMoveTaskRequest body = inr req ->
     handleTaskByID saveLocked Body decodeTaskPatch decodeMoveTaskRequest
                    "POST" ("/api/tasks/" ++ id ++ "/move") body state
     = respondTask (withWrite saveLocked (MoveTask id req) state)) /\
  (forall method,
     method <> "POST" ->
     handleTaskByID saveLocked Body decodeTaskPatch decodeMoveTaskRequest
                    method ("/api/tasks/" ++ id ++ "/move") body state
     = (methodNotAllowed ["POST"], state)).
Proof.
  intros Hrouted.
  pose proof (routed_nonempty _ Hrouted) as Hne.
  pose proof (routed_TrimByte _ Hrouted) as Htrim.
  pose proof (routed_HasSuffix_slash _ Hrouted) as Hslash.
  split; [|split].
  - intros Hmove. unfold handleTaskByID.
    rewrite TrimPrefix_app. cbv zeta.
    apply String.eqb_neq in Hne. rewrite Hne, Hmove, Htrim.
    split; [|done]. intros patch ->. done.
  - intros req Hreq. unfold handleTaskByID.
    rewrite TrimPrefix_app. cbv zeta.
    rewrite append_nonempty by done.
    rewrite HasSuffix_app, TrimSuffix_app, (TrimSuffix_without _ _ Hslash).
    unfold handleMoveTask. by rewrite Hreq.
  - intros method Hm. unfold handleTaskByID.
    rewrite TrimPrefix_app. cbv zeta.
    rewrite append_nonempty by done. rewrite HasSuffix_app.
    unfold handleMoveTask. apply String.eqb_neq in Hm. by rewrite Hm.
Qed.

End paths.

Lemma task_paths_reach_the_task_witness :
  handleTaskByID diskOK unit (fun _ => inr renamePatch) (fun _ => inr intoBackburner)
                 "PATCH" "/api/tasks/t2" tt sampleBoard
  = respondTask (withWrite diskOK (UpdateTask "t2" renamePatch) sampleBoard) /\
  handleTaskByID diskOK unit (fun _ => inr renamePatch) (fun _ => inr intoBackburner)
                 "POST" "/api/tasks/t2/move" tt sampleBoard
  = respondTask (withWrite diskOK (MoveTask "t2" intoBackburner) sampleBoard).
Proof.
  assert (routed "t2") as Hrouted by (repeat constructor; done).
  pose proof (task_paths_reach_the_task diskOK unit (fun _ => inr renamePatch)
                (fun _ => inr intoBackburner) "t2" tt sampleBoard Hrouted) as (H1 & H2 & _).
  split.
  - apply (proj1 (H1 eq_refl) renamePatch eq_refl).
  - apply (H2 intoBackburner eq_refl).
Defined.

(** ** The category patch *)

Lemma RenameCategory_Ok_inv TrimSpace id name state cat state' :
  RenameCategory TrimSpace id name state = (Ok cat, state') ->
  exists i,
    findCategoryIndex (Categories state) id = Some i /\
    cat = set_CatName (TrimSpace name) (Categories state !!! i) /\
    state' = set_Categories (<[i := cat]> (Categories state)) state.
Proof.
  unfold RenameCategory. repeat case_match; try done.
  rewrite Category_Clone_id. intros [= <- <-]. eauto.
Qed.

Lemma findCategoryIndex_renamed cats id i name :
  findCategoryIndex cats id = Some i ->
  findCategoryIndex (<[i := set_CatName name (cats !!! i)]> cats) id = Some i.
Proof.
  intros Hi. pose proof (findCategoryIndex_lookup_total _ _ _ Hi) as Hc.
  rewrite <- (alter_insert_lookup (set_CatName name) _ _ _ Hc).
  rewrite <- Hi. apply findCategoryIndex_CatID.
  rewrite (list_fmap_alter CatID (set_CatName name) (fun x => x)).
  - by rewrite list_alter_id.
  - by apply Forall_forall.
Qed.

(** X16. A category patch that carries a name and an order is not one
    operation: [RenameCategory] runs first and [ReorderCategoryTasks]
    after it.  When the rename succeeds, saved and all, and the order is
    refused, the client is answered 400 with the reorder's error, and the
    category keeps its new name in the board. *)
Theorem category_patch_renames_before_it_reorders
        saveLocked TrimSpace id name order state cat state1 e :
  withWrite saveLocked (RenameCategory TrimSpace id name) state = (Ok cat, state1) ->
  fst (ReorderCategoryTasks id order state1) = Err e ->
  patchCategory TrimSpace saveLocked id (CategoryPatch.mk (Some name) (Some order)) state
  = (writeError StatusBadRequest (Error e), state1) /\
  exists i,
    findCategoryIndex (Categories state1) id = Some i /\
    CatName (Categories state1 !!! i) = TrimSpace name.
Proof.
  intros Hmethod Hord.
  pose proof Hmethod as [Hren _]%withWrite_Ok_inv.
  destruct (ReorderCategoryTasks id order state1) as [r state2] eqn:E. simpl in Hord. subst r.
  pose proof (ReorderCategoryTasks_error_state _ _ _ _ _ E) as ->.
  apply RenameCategory_Ok_inv in Hren as Hinv. destruct Hinv as (i & Hi & Hcat & Hst).
  assert (findCategoryIndex (Categories state1) id = Some i) as Hi1.
  { rewrite Hst, Hcat. simpl. by apply findCategoryIndex_renamed. }
  split.
  - unfold patchCategory. cbn [CategoryPatch.Name CategoryPatch.Order].
    rewrite Hmethod, (withWrite_Err _ _ _ _ _ E). cbn [fst snd]. f_equal.
    revert E. unfold ReorderCategoryTasks, reorderTasks. rewrite Hi1.
    destruct (negb _); [by intros [= <-]|].
    destruct (placeByIndex _ _ _) eqn:Ep; [done|].
    intros [= <-]. apply placeByIndex_Err in Ep.
    unfold writeDomainError. by rewrite Ep.
  - exists i. split; [done|].
    rewrite Hst, Hcat. simpl.
    rewrite list_lookup_total_insert_eq; [done|].
    by eapply findCategoryIndex_lt.
Qed.

Lemma category_patch_renames_before_it_reorders_witness :
  patchCategory trimSpaceASCII diskOK "c1" (CategoryPatch.mk (Some " Gamma ") (Some ["t1"]))
                sampleBoard
  = (writeError StatusBadRequest
       (Error (Wrapf ErrInvalidRequest "task order length mismatch")),
     snd (RenameCategory trimSpaceASCII "c1" " Gamma " sampleBoard)) /\
  exists i,
    findCategoryIndex
      (Categories (snd (RenameCategory trimSpaceASCII "c1" " Gamma " sampleBoard))) "c1"
    = Some i /\
    CatName (Categories (snd (RenameCategory trimSpaceASCII "c1" " Gamma " sampleBoard)) !!! i)
    = trimSpaceASCII " Gamma ".
Proof.
  apply (category_patch_renames_before_it_reorders diskOK trimSpaceASCII "c1" " Gamma " ["t1"]
           sampleBoard
           (mkCategory "c1" "Gamma"
              [sampleTask "t1" 3 true false; sampleTask "t2" 2 false false])
           (snd (RenameCategory trimSpaceASCII "c1" " Gamma " sampleBoard))
           (Wrapf ErrInvalidRequest "task order length mismatch")).
  - reflexivity.
  - reflexivity.
Defined.

(** ** The paths of a category *)

Section categoryPaths.

Variable TrimSpace : string -> string.
Variable saveLocked : BoardState -> option string.
Variable Body : Type.
Variable decodeCategoryPatch : Body -> string + CategoryPatch.t.
Variable decodeMoveCategoryRequest : Body -> string + MoveCategoryRequest.t.

(** X22. The path of a category reaches the category.  Take an
    identifier whose paths the multiplexer hands to the handler: none of
    its segments is empty, ["."] or [".."].  When it does not end in
    ["/move"], [PATCH] on ["/api/categories/" ++ id] is answered from the
    patch of the category [id], and every other method, [DELETE]
    included, is refused with 405 and the board is left alone; [POST] on
    ["/api/categories/" ++ id ++ "/move"] is answered from the method
    [MoveCategory id].  The bare path ["/api/categories/"] is answered
    404 whatever the method, without a look at the board. *)
Theorem category_paths_reach_the_category id body state :
  (routed id ->
   (HasSuffix id "/move" = false ->
    (forall patch,
       decodeCategoryPatch body = inr patch ->
       handleCategoryByID TrimSpace saveLocked Body decodeCategoryPatch
                          decodeMoveCategoryRequest
                          "PATCH" ("/api/categories/" ++ id) body state
       = patchCategory TrimSpace saveLocked id patch state) /\
    (forall method,
       method <> "PATCH" ->
       handleCategoryByID TrimSpace saveLocked Body decodeCategoryPatch
                          decodeMoveCategoryRequest
                          method ("/api/categories/" ++ id) body state
       = (methodNotAllowed ["PATCH"], state))) /\
   (forall req,
      decodeMoveCategoryRequest body = inr req ->
      handleCategoryByID TrimSpace saveLocked Body decodeCategoryPatch
                         decodeMoveCategoryRequest
                         "POST" ("/api/categories/" ++ id ++ "/move") body state
      = respondCategory (withWrite saveLocked (MoveCategory id req) state))) /\
  (forall method,
     handleCategoryByID TrimSpace saveLocked Body decodeCategoryPatch
                        decodeMoveCategoryRequest
                        method "/api/categories/" body state
     = (NotFound, state)).
Proof.
  split; [|done].
  intros Hrouted.
  pose proof (routed_nonempty _ Hrouted) as Hne.
  pose proof (routed_TrimByte _ Hrouted) as Htrim.
  pose proof (routed_HasSuffix_slash _ Hrouted) as Hslash.
  apply String.eqb_neq in Hne.
  split.
  - intros Hmove. unfold handleCategoryByID.
    rewrite TrimPrefix_app. cbv zeta.
    rewrite Hne, Hmove, Htrim, Hne.
    split.
    + intros patch ->. done.
    + intros method Hm%String.eqb_neq. by rewrite Hm.
  - intros req Hreq. unfold handleCategoryByID.
    rewrite TrimPrefix_app. cbv zeta.
    rewrite append_nonempty by done.
    rewrite HasSuffix_app, TrimSuffix_app, (TrimSuffix_without _ _ Hslash), Hne.
    unfold handleMoveCategory. by rewrite Hreq.
Qed.

End categoryPaths.

Lemma category_paths_reach_the_category_witness :
  handleCategoryByID trimSpaceASCII diskOK unit
                     (fun _ => inr headOrder) (fun _ => inr parkRequest)
                     "PATCH" "/api/categories/c1" tt sampleBoard
  = patchCategory trimSpaceASCII diskOK "c1" headOrder sampleBoard /\
  handleCategoryByID trimSpaceASCII diskOK unit
                     (fun _ => inr headOrder) (fun _ => inr parkRequest)
                     "POST" "/api/categories/c1/move" tt sampleBoard
  = respondCategory (withWrite diskOK (MoveCategory "c1" parkRequest) sampleBoard).
Proof.
  assert (routed "c1") as Hrouted by (repeat constructor; done).
  destruct (category_paths_reach_the_category trimSpaceASCII diskOK unit
              (fun _ => inr headOrder) (fun _ => inr parkRequest) "c1" tt sampleBoard)
    as [H _].
  destruct (H Hrouted) as [H1 H2].
  split.
  - apply (proj1 (H1 eq_refl) headOrder eq_refl).
  - apply (H2 parkRequest eq_refl).
Defined.

(** * The seeded board *)

Lemma CreateCategory_board_at_limit TrimSpace newID name state :
  (CategoryLimit <= length (Categories state))%nat ->
  exists e, CreateCategory TrimSpace newID name state = (Err e, state) /\
            (errors_Is e ErrInvalidRequest || errors_Is e ErrDuplicateCategory
             || errors_Is e ErrCategoryLimit) = true.
Proof.
  intros Hlen. unfold CreateCategory.
  repeat case_match; try (eexists; split; [reflexivity|reflexivity]).
  match goal with H : (_ <=? _)%nat = false |- _ => apply Nat.leb_gt in H; lia end.
Qed.

(** X17. A new installation starts on a full, valid board, whatever
    identifiers [NewID] draws: [seedBoard] holds [CategoryLimit] columns
    of distinct names, each carrying exactly [ColumnCapacity] points in
    well-formed tasks, none of them urgent or focused, and nothing is
    parked.  So on the seeded board no task can be created in a column
    (a valid request for a column fails with [ErrCapacityExceeded], or
    with [ErrCategoryNotFound] when no column has the identifier) and no
    category can be created. *)
Theorem the_seeded_board_is_full TrimSpace (newID : nat -> string) :
  let board := seedBoard newID in
  (length (Categories board) = CategoryLimit /\
   Forall (fun c => sumSizes (Tasks c) = ColumnCapacity) (Categories board) /\
   Forall (fun t => wellFormed t /\ Urgent t = false /\ Focused t = false) (allTasks board) /\
   NoDup (CatName <$> Categories board) /\
   offBoardTasks board = []) /\
  (forall id req,
     CreateTaskRequest.Validate (CreateTaskRequest.Normalize req) = None ->
     CreateTaskRequest.Location (CreateTaskRequest.Normalize req) = LocationCategory ->
     CreateTask id req board = (Err (Sentinel ErrCapacityExceeded), board) \/
     CreateTask id req board = (Err (Sentinel ErrCategoryNotFound), board)) /\
  (forall id name,
     exists e, CreateCategory TrimSpace id name board = (Err e, board) /\
               (errors_Is e ErrInvalidRequest || errors_Is e ErrDuplicateCategory
                || errors_Is e ErrCategoryLimit) = true).
Proof.
  intros board.
  assert (Forall (fun c => sumSizes (Tasks c) = ColumnCapacity) (Categories board)) as Hfull.
  { repeat constructor. }
  assert (Forall (fun t => wellFormed t /\ Urgent t = false /\ Focused t = false)
                 (allTasks board)) as Hwf.
  { repeat (apply Forall_cons; split;
            [split; [split; [unfold validSize; simpl; lia|vm_compute; set_solver]|done]|]).
    apply Forall_nil. done. }
  split; [|split].
  - split; [done|]. split; [done|]. split; [done|]. split; [|done].
    apply (bool_decide_unpack _). by vm_compute.
  - intros id req Hv Hloc.
    destruct (findCategoryIndex (Categories board)
                (CreateTaskRequest.CategoryID (CreateTaskRequest.Normalize req)))
      as [idx|] eqn:Eidx.
    + left. apply (CreateTask_exceeds id req board idx); try done.
      * unfold columnsValid. unfold allTasks, boardTasks in Hwf.
        apply Forall_app in Hwf as [Hb _]. rewrite Forall_concat, Forall_fmap in Hb.
        eapply Forall_impl; [exact Hb|]. intros c Hc. simpl.
        eapply Forall_impl; [exact Hc|]. by intros t [[? _] _].
      * pose proof (findCategoryIndex_lookup_total _ _ _ Eidx) as Hc.
        rewrite (Forall_lookup_1 _ _ _ _ Hfull Hc).
        apply CreateTaskRequest_Validate_None in Hv as [_ Hsz].
        unfold validSize, ColumnCapacity in *. lia.
    + right. unfold CreateTask. rewrite Hv, (insertTask_validated _ _ _ Hv). cbv zeta.
      by rewrite Hloc, String.eqb_refl, Eidx.
  - intros id name. by apply CreateCategory_board_at_limit.
Qed.

Lemma the_seeded_board_is_full_witness :
  CreateTask "n1" seedRequest (seedBoard seedIDs)
  = (Err (Sentinel ErrCapacityExceeded), seedBoard seedIDs) \/
  CreateTask "n1" seedRequest (seedBoard seedIDs)
  = (Err (Sentinel ErrCategoryNotFound), seedBoard seedIDs).
Proof.
  apply (proj1 (proj2 (the_seeded_board_is_full trimSpaceASCII seedIDs)) "n1" seedRequest).
  - reflexivity.
  - reflexivity.
Defined.

(** * Flags *)

Lemma TaskPatch_Apply_Focused patch t e t' :
  TaskPatch.Apply patch t = (e, t') -> Focused t' = Focused t.
Proof.
  unfold TaskPatch.Apply.
  destruct patch as [n d no st sz ls cl u]; simpl.
  destruct st as [st|]; [destruct (ValidateTaskState st)|];
    (destruct sz as [sz|]; [destruct (NormalizeSize sz)|]);
    intros [= _ <-]; by destruct n, d, no, ls, cl, u.
Qed.

Lemma filter_none {A : Type} (P : A -> Prop) `{!forall x, Decision (P x)} (l : list A) :
  Forall (fun x => ~ P x) l -> filter P l = [].
Proof.
  induction 1 as [|x l Hx _ IH]; [done|]. by rewrite filter_cons_False.
Qed.

Section flags.

Variable flag : Task -> bool.

(** The number of flagged tasks of a list, from the list of its
    flags. *)
Lemma flagged_flags (ts : list Task) :
  length (filter (fun t => flag t = true) ts)
  = length (filter (fun b => b = true) (flag <$> ts)).
Proof.
  induction ts as [|t ts IH]; [done|].
  rewrite fmap_cons, !filter_cons.
  destruct (decide (flag t = true)); simpl; by rewrite IH.
Qed.

Lemma flagged_Permutation (ts ts' : list Task) :
  flag <$> ts ≡ₚ flag <$> ts' ->
  length (filter (fun t => flag t = true) ts)
  = length (filter (fun t => flag t = true) ts').
Proof. intros H. by rewrite !flagged_flags, H. Qed.

Lemma flagged_cons_le (ts ts' : list Task) b :
  flag <$> ts ≡ₚ b :: (flag <$> ts') ->
  (length (filter (fun t => flag t = true) ts')
   <= length (filter (fun t => flag t = true) ts))%nat.
Proof.
  intros H. rewrite !flagged_flags, H, filter_cons.
  destruct (decide (b = true)); simpl; lia.
Qed.

Lemma flagged_cons_false (ts ts' : list Task) :
  flag <$> ts' ≡ₚ false :: (flag <$> ts) ->
  length (filter (fun t => flag t = true) ts')
  = length (filter (fun t => flag t = true) ts).
Proof. intros H. rewrite !flagged_flags, H. by rewrite filter_cons_False. Qed.

(** On a list of distinct identifiers, at most one task is flagged when
    every flagged task carries the same identifier. *)
Lemma flagged_one_identifier (ts : list Task) id :
  NoDup (ID <$> ts) ->
  Forall (fun t => flag t = true -> ID t = id) ts ->
  (length (filter (fun t => flag t = true) ts) <= 1)%nat.
Proof.
  induction ts as [|t ts IH]; [simpl; lia|].
  rewrite fmap_cons. intros [Hnot Hnd]%NoDup_cons [Ht Hts]%Forall_cons.
  rewrite filter_cons. destruct (decide (flag t = true)) as [Hf|_]; [|by apply IH].
  rewrite filter_none; [simpl; lia|].
  apply Forall_forall. intros t' Hin Hf'. apply Hnot. apply list_elem_of_fmap.
  exists t'. split; [|done]. rewrite (Ht Hf). symmetry.
  exact (proj1 (Forall_forall _ _) Hts t' Hin Hf').
Qed.

End flags.

(** ** Focus *)

Lemma trues_app (l k : list bool) :
  length (filter (fun b => b = true) (l ++ k))
  = (length (filter (fun b => b = true) l) + length (filter (fun b => b = true) k))%nat.
Proof. by rewrite filter_app, length_app. Qed.

Lemma trues_cleared (ts : list Task) :
  length (filter (fun b => b = true) (Focused <$> (set_Focused false <$> ts))) = 0%nat.
Proof.
  rewrite <- flagged_flags. fold (focusedTasks (set_Focused false <$> ts)).
  by rewrite focusedTasks_cleared.
Qed.

(** The shape of a successful [CreateTask]: the returned task joins the
    board, in a column or at the end of [Backburner] or [Archives], then
    the two flags are normalized around it. *)
Lemma CreateTask_Ok_shape newID req state t state' :
  CreateTask newID req state = (Ok t, state') ->
  exists s0 idx,
    allTasks s0 ≡ₚ t :: allTasks state /\
    state' = (let s1 := if Urgent t then normalizeUrgent s0 idx (ID t) else s0 in
              if Focused t then normalizeFocus s1 (ID t) else s1) /\
    (Focused t = false ->
     Focused <$> allTasks state' ≡ₚ false :: (Focused <$> allTasks state)) /\
    CategoryBackburner s0 = CategoryBackburner state /\
    CategoryArchives s0 = CategoryArchives state /\
    ((exists i,
        (idx < length (Categories state))%nat /\
        Categories s0
        = <[idx := set_Tasks (insertAt i t (Tasks (Categories state !!! idx)))
                             (Categories state !!! idx)]> (Categories state)) \/
     (Categories s0 = Categories state /\ Urgent t = false /\ Focused t = false)).
Proof.
  unfold CreateTask.
  destruct (CreateTaskRequest.Validate _) eqn:Hv; [done|].
  rewrite (insertTask_validated _ _ _ Hv). cbv zeta.
  set (task := set_ID _ _).
  destruct (String.eqb _ LocationCategory).
  - destruct (findCategoryIndex _ _) as [idx|] eqn:Eidx; [|done].
    destruct (ensureCapacity _); [done|].
    set (s0 := set_Categories _ state).
    set (s1 := if Urgent task then _ else _).
    set (s2 := if Focused task then _ else _).
    intros [= <- <-]. exists s0, idx.
    assert (allTasks s0 ≡ₚ task :: allTasks state) as Hperm.
    { apply findCategoryIndex_lookup_total in Eidx.
      unfold s0. destruct state as [cats bb ar pb pa]. board_simpl.
      rewrite !allTasks_eq.
      rewrite (columns_insert_Permutation _ _ _ _ [task] Eidx)
        by (simpl; apply insertAt_Permutation).
      done. }
    split; [done|]. split; [done|]. split; [|split; [done|split; [done|]]].
    + intros Hf. unfold s2. rewrite Hf. unfold s1.
      assert (Focused <$> allTasks (if Urgent task
                                    then normalizeUrgent s0 idx (ID task) else s0)
              = Focused <$> allTasks s0) as ->.
      { destruct (Urgent task); [by apply keys_normalizeUrgent|done]. }
      by rewrite Hperm, fmap_cons, Hf.
    + left. eexists. split; [by eapply findCategoryIndex_lt|]. reflexivity.
  - destruct (String.eqb _ LocationBackburner).
    + intros [= <- <-]. eexists _, 0%nat. cbn [Urgent Focused set_Focused set_Urgent].
      split; [|split; [reflexivity|split; [|split; [done|split; [done|by right]]]]].
      * destruct state as [cats bb ar pb pa]. board_simpl.
        rewrite !allTasks_eq. solve_Permutation.
      * intros _. destruct state as [cats bb ar pb pa]. board_simpl.
        rewrite !allTasks_eq, !fmap_app. simpl. solve_Permutation.
    + intros [= <- <-]. eexists _, 0%nat. cbn [Urgent Focused set_Focused set_Urgent].
      split; [|split; [reflexivity|split; [|split; [done|split; [done|by right]]]]].
      * destruct state as [cats bb ar pb pa]. board_simpl.
        rewrite !allTasks_eq. solve_Permutation.
      * intros _. destruct state as [cats bb ar pb pa]. board_simpl.
        rewrite !allTasks_eq, !fmap_app. simpl. solve_Permutation.
Qed.

Lemma normalizeFocus_focused state id :
  Forall (fun t => Focused t = true -> ID t = id) (allTasks (normalizeFocus state id)).
Proof.
  destruct state as [cats bb ar pb pa]. unfold normalizeFocus. board_simpl.
  rewrite allTasks_eq, !Forall_app, !Forall_concat, !Forall_fmap.
  repeat split.
  - apply Forall_forall. intros c _. simpl. rewrite Forall_fmap.
    apply Forall_forall. intros t _. simpl.
    destruct (String.eqb (ID t) id) eqn:E; [|done]. by apply String.eqb_eq in E.
  - by apply Forall_forall.
  - by apply Forall_forall.
  - apply Forall_forall. intros c _. simpl. rewrite Forall_fmap. by apply Forall_forall.
  - apply Forall_forall. intros c _. simpl. rewrite Forall_fmap. by apply Forall_forall.
Qed.

Lemma clearFocus_unfocused state :
  Forall (fun t => Focused t = false) (allTasks (clearFocus state)).
Proof.
  destruct state as [cats bb ar pb pa]. unfold clearFocus. board_simpl.
  rewrite allTasks_eq, !Forall_app, !Forall_concat, !Forall_fmap.
  repeat split; try (by apply Forall_forall);
    apply Forall_forall; intros c _; simpl; rewrite Forall_fmap; by apply Forall_forall.
Qed.

(** [placeTask] stores the task unfocused. *)
Lemma Focused_placeTask task dest state state' :
  placeTask task dest state = (None, state') ->
  Focused <$> allTasks state' ≡ₚ false :: (Focused <$> allTasks state).
Proof.
  unfold placeTask.
  destruct (MoveTaskRequest.Validate _); [done|].
  destruct (String.eqb _ LocationCategory).
  - destruct (findCategoryIndex _ _) as [idx|] eqn:Eidx; [|done].
    set (u := if Urgent _ then _ else _).
    assert (exists x, u = normalizeUrgent state idx x) as [x Hu].
    { unfold u. destruct (Urgent _); eauto. }
    destruct (ensureCapacity _); [done|]. intros [= <-].
    rewrite <- (keys_normalizeUrgent Focused ltac:(done) state idx x), <- Hu.
    assert (Categories u !! idx = Some (Categories u !!! idx)) as Hc.
    { apply list_lookup_lookup_total_lt.
      rewrite Hu, length_Categories_normalizeUrgent.
      apply findCategoryIndex_Some in Eidx as (c & Hc & _). by eapply lookup_lt_Some. }
    destruct u as [cats bb ar pb pa]. board_simpl. rewrite !allTasks_eq, !fmap_app.
    rewrite (columns_insert_Permutation
               _ _ _ _ [set_Source "" (set_SourceID "" (set_Focused false task))] Hc)
      by (simpl; apply insertAt_Permutation).
    done.
  - destruct (String.eqb _ LocationBackburner).
    + intros [= <-]. destruct state as [cats bb ar pb pa].
      board_simpl. rewrite !allTasks_eq, !fmap_app. simpl. solve_Permutation.
    + destruct (String.eqb _ LocationArchive); [|done].
      intros [= <-]. destruct state as [cats bb ar pb pa].
      board_simpl. rewrite !allTasks_eq, !fmap_app. simpl. solve_Permutation.
Qed.

Lemma focused_MoveTask id dest state :
  (length (focusedTasks (allTasks (snd (MoveTask id dest state))))
   <= length (focusedTasks (allTasks state)))%nat.
Proof.
  unfold focusedTasks.
  destruct (MoveTask id dest state) as [[t|e] state'] eqn:E; simpl.
  - apply MoveTask_Ok_inv in E as (loc & d & Hfind & Hplace & _).
    rewrite (flagged_cons_false Focused _ _ (Focused_placeTask _ _ _ _ Hplace)).
    exact (flagged_cons_le Focused _ _ _ (keys_removeTask Focused _ _ _ _ Hfind)).
  - destruct (error_capacity_dec e) as [->|Hne].
    + apply MoveTask_capacity_error_state in E as (t & loc & idx & Hfind & ->).
      apply Nat.eq_le_incl, flagged_Permutation.
      rewrite keys_setTaskAt, keys_normalizeUrgent; [done|done|].
      intros t0 (t1 & Ht1 & ->)%(taskAt_normalizeUrgent_key Focused ltac:(done)).
      apply findTask_Ok in Hfind as [_ Hloc].
      rewrite (located_taskAt _ _ _ _ Hloc) in Ht1. by injection Ht1 as ->.
    + by rewrite (MoveTask_error_state _ _ _ _ _ E Hne).
Qed.

Lemma focused_placeCategory c dest state c' state' :
  placeCategory c dest state = (None, c', state') ->
  (length (focusedTasks (allTasks state'))
   <= length (focusedTasks (Tasks c)) + length (focusedTasks (allTasks state)))%nat.
Proof.
  unfold focusedTasks. rewrite !flagged_flags. unfold placeCategory.
  destruct (String.eqb _ LocationCategoryBoard).
  - destruct (_ <=? _)%nat; [done|]. destruct (ensureCapacity c); [done|].
    intros [= _ <-]. destruct state as [cats bb ar pb pa]. board_simpl.
    rewrite !allTasks_eq, columns_insertAt, !fmap_app, !trues_app. lia.
  - destruct (String.eqb _ LocationBackburner).
    + intros [= _ <-]. destruct state as [cats bb ar pb pa]. board_simpl.
      rewrite !allTasks_eq, !fmap_app, !concat_app, !fmap_app, !trues_app. simpl.
      rewrite app_nil_r, trues_cleared. lia.
    + destruct (String.eqb _ LocationArchive); [|done].
      intros [= _ <-]. destruct state as [cats bb ar pb pa]. board_simpl.
      rewrite !allTasks_eq, !fmap_app, !concat_app, !fmap_app, !trues_app. simpl.
      rewrite app_nil_r, trues_cleared. lia.
Qed.

Lemma focused_MoveCategory id dest state :
  (length (focusedTasks (allTasks (snd (MoveCategory id dest state))))
   <= length (focusedTasks (allTasks state)))%nat.
Proof.
  destruct (MoveCategory id dest state) as [[c|e] state'] eqn:E; simpl.
  - unfold MoveCategory in E.
    destruct (MoveCategoryRequest.Validate _); [done|].
    destruct (removeCategory state id) as [[[cat loc]|e1] s1] eqn:Er; [|done].
    apply removeCategory_Ok in Er.
    destruct (placeCategory _ _ _) as [[[e2|] cat'] s2] eqn:Ep; [done|].
    injection E as _ <-.
    pose proof (focused_placeCategory _ _ _ _ _ Ep) as Hle.
    pose proof (keys_detached Focused _ _ _ _ _ Er) as Hd.
    unfold focusedTasks in *. rewrite !flagged_flags in *.
    rewrite Hd, trues_app. lia.
  - by rewrite (MoveCategory_error_state _ _ _ _ _ E).
Qed.

(** X18. At most one task is focused: from a board of distinct task
    identifiers on which at most one task, over the five containers
    together, is focused, every operation, whatever its outcome, leads
    to a board with at most one focused task, provided a [CreateTask]
    stores its task under an identifier that is not on the board yet. *)
Theorem at_most_one_task_is_focused TrimSpace op state :
  NoDup (ID <$> allTasks state) ->
  (forall newID req, op = OpCreateTask newID req ->
                     createdID newID req ∉ ID <$> allTasks state) ->
  (length (focusedTasks (allTasks state)) <= 1)%nat ->
  (length (focusedTasks (allTasks (snd (step TrimSpace op state)))) <= 1)%nat.
Proof.
  intros Hnd Hfresh Hone.
  pose proof (fun n (K : (n <= _)%nat) => Nat.le_trans n _ _ K Hone) as Hle.
  destruct op as [newID req|id patch|id dest|id|newID name|id name|id dest|id order|id];
    simpl.
  - destruct (CreateTask newID req state) as [[t|e] state'] eqn:E; simpl.
    + assert (NoDup (ID <$> allTasks state')) as Hnd'.
      { rewrite (keys_CreateTask ID ltac:(done) ltac:(done) _ _ _ _ _ E).
        apply NoDup_cons. split; [|done].
        assert (ID t = createdID newID req) as ->; [|by apply Hfresh].
        revert E. unfold CreateTask.
        destruct (CreateTaskRequest.Validate _) eqn:Hv; [done|].
        rewrite (insertTask_validated _ _ _ Hv). cbv zeta.
        unfold createdID. rewrite CreateTaskRequest_Normalize_Task.
        repeat case_match; intros [= <- _]; done. }
      destruct (CreateTask_Ok_shape _ _ _ _ _ E) as (s0 & idx & _ & Hst & Hunf & _).
      destruct (Focused t) eqn:Hf.
      * unfold focusedTasks. apply (flagged_one_identifier Focused _ (ID t) Hnd').
        rewrite Hst. cbv zeta. apply normalizeFocus_focused.
      * unfold focusedTasks in *.
        by rewrite (flagged_cons_false Focused _ _ (Hunf eq_refl)).
    + by rewrite (CreateTask_error_state _ _ _ _ _ E).
  - unfold focusedTasks in *.
    rewrite (flagged_Permutation Focused _ (allTasks state)); [done|].
    by rewrite (keys_UpdateTask Focused ltac:(done) id patch state
                  (TaskPatch_Apply_Focused patch)).
  - apply Hle, focused_MoveTask.
  - destruct (DeleteTask id state) as [[[]|e] state'] eqn:E; simpl.
    + destruct (keys_DeleteTask Focused _ _ _ E) as (t & _ & Hp).
      apply Hle. exact (flagged_cons_le Focused _ _ _ Hp).
    + by rewrite (DeleteTask_error_state _ _ _ _ E).
  - unfold focusedTasks in *.
    rewrite (flagged_Permutation Focused _ (allTasks state)); [done|].
    by rewrite keys_CreateCategory.
  - unfold focusedTasks in *.
    rewrite (flagged_Permutation Focused _ (allTasks state)); [done|].
    by rewrite keys_RenameCategory.
  - apply Hle, focused_MoveCategory.
  - unfold focusedTasks in *.
    rewrite (flagged_Permutation Focused _ (allTasks state)); [done|].
    apply keys_ReorderCategoryTasks. intros i Hi.
    apply findCategoryIndex_lookup_total in Hi.
    eapply NoDup_column; [|exact Hi]. by apply NoDup_boardTasks.
  - assert (NoDup (ID <$> allTasks (snd (SetFocused id state)))) as Hnd'.
    { by rewrite (keys_SetFocused ID ltac:(done)). }
    revert Hnd'. unfold SetFocused. destruct (String.eqb id "").
    { simpl. intros _. unfold focusedTasks. rewrite filter_none; [simpl; lia|].
      eapply Forall_impl; [apply clearFocus_unfocused|]. simpl. congruence. }
    destruct (findTask state id) as [[t loc]|e] eqn:Hfind; simpl; [|done].
    intros Hnd'. unfold focusedTasks. apply (flagged_one_identifier Focused _ id Hnd').
    apply Forall_allTasks_setTaskAt.
    + intros _. simpl.
      destruct (findTask_skeleton _ (clearFocus state) _ _ _
                  (eq_sym (idSkeleton_clearFocus state)) Hfind) as (t0 & Hf0 & ->).
      simpl. by apply findTask_Ok in Hf0 as [? _].
    + eapply Forall_impl; [apply clearFocus_unfocused|]. simpl. congruence.
Qed.

Lemma at_most_one_task_is_focused_witness :
  (length (focusedTasks
             (allTasks (snd (step trimSpaceASCII (OpSetFocused "t1") roomyBoard)))) <= 1)%nat.
Proof.
  apply (at_most_one_task_is_focused trimSpaceASCII (OpSetFocused "t1") roomyBoard).
  - apply (bool_decide_unpack _). vm_compute. reflexivity.
  - intros newID req. discriminate.
  - vm_compute. lia.
Defined.

(** * Categories *)

Section categories.

Context {K : Type} (key : Category -> K).
Hypothesis key_clear : forall c, key (clearCategoryFocus c) = key c.
Hypothesis key_Tasks : forall ts c, key (set_Tasks ts c) = key c.

Lemma ckey_fmap (f : Category -> Category) (cats : list Category) :
  (forall c, key (f c) = key c) -> key <$> (f <$> cats) = key <$> cats.
Proof.
  intros H. rewrite <- list_fmap_compose. apply list_fmap_ext. intros _ c _. apply H.
Qed.

Lemma ckey_alter (f : Category -> Category) i (cats : list Category) :
  (forall c, key (f c) = key c) -> key <$> alter f i cats = key <$> cats.
Proof.
  intros H. rewrite (list_fmap_alter key f (fun x => x)).
  - by rewrite list_alter_id.
  - apply Forall_forall. intros c _. apply H.
Qed.

Lemma ckey_insert i c' (cats : list Category) :
  key c' = key (cats !!! i) -> key <$> <[i := c']> cats = key <$> cats.
Proof.
  intros H. destruct (cats !! i) as [c|] eqn:Hc.
  - rewrite (list_lookup_total_correct _ _ _ Hc) in H.
    rewrite list_fmap_insert, H. apply list_insert_id.
    by rewrite list_lookup_fmap, Hc.
  - rewrite list_insert_ge; [done|]. by apply lookup_ge_None.
Qed.

(** The keys of the three containers, one by one. *)
Lemma ckeys_normalizeUrgent state idx u :
  key <$> Categories (normalizeUrgent state idx u) = key <$> Categories state /\
  CategoryBackburner (normalizeUrgent state idx u) = CategoryBackburner state /\
  CategoryArchives (normalizeUrgent state idx u) = CategoryArchives state.
Proof.
  unfold normalizeUrgent. simpl. split; [|done]. by apply ckey_alter.
Qed.

Lemma ckeys_normalizeFocus state id :
  key <$> Categories (normalizeFocus state id) = key <$> Categories state /\
  key <$> CategoryBackburner (normalizeFocus state id) = key <$> CategoryBackburner state /\
  key <$> CategoryArchives (normalizeFocus state id) = key <$> CategoryArchives state.
Proof.
  unfold normalizeFocus. simpl. repeat split; by apply ckey_fmap.
Qed.

Lemma ckeys_clearFocus state :
  key <$> Categories (clearFocus state) = key <$> Categories state /\
  key <$> CategoryBackburner (clearFocus state) = key <$> CategoryBackburner state /\
  key <$> CategoryArchives (clearFocus state) = key <$> CategoryArchives state.
Proof.
  unfold clearFocus. simpl. repeat split; by apply ckey_fmap.
Qed.

Lemma ckeys_setTaskAt loc t state :
  key <$> Categories (setTaskAt loc t state) = key <$> Categories state /\
  CategoryBackburner (setTaskAt loc t state) = CategoryBackburner state /\
  CategoryArchives (setTaskAt loc t state) = CategoryArchives state.
Proof.
  unfold setTaskAt. repeat case_match; simpl; (split; [|done]); try done.
  by apply ckey_alter.
Qed.

Lemma ckeys_removeTask state id :
  key <$> Categories (snd (removeTask state id)) = key <$> Categories state /\
  CategoryBackburner (snd (removeTask state id)) = CategoryBackburner state /\
  CategoryArchives (snd (removeTask state id)) = CategoryArchives state.
Proof.
  unfold removeTask. repeat case_match; simpl; (split; [|done]); try done.
  by apply ckey_alter.
Qed.

Lemma ckeys_placeTask task dest state :
  key <$> Categories (snd (placeTask task dest state)) = key <$> Categories state /\
  CategoryBackburner (snd (placeTask task dest state)) = CategoryBackburner state /\
  CategoryArchives (snd (placeTask task dest state)) = CategoryArchives state.
Proof.
  unfold placeTask.
  destruct (MoveTaskRequest.Validate _); [done|].
  destruct (String.eqb _ LocationCategory).
  - destruct (findCategoryIndex _ _) as [idx|]; [|done].
    set (u := if Urgent _ then _ else _).
    assert (exists x, u = normalizeUrgent state idx x) as [x Hu].
    { unfold u. destruct (Urgent _); eauto. }
    destruct (ckeys_normalizeUrgent state idx x) as (H1 & H2 & H3).
    rewrite <- Hu in *.
    destruct (ensureCapacity _); simpl; rewrite <- H1, <- H2, <- H3;
      (split; [|done]); (rewrite ckey_insert; [done|by rewrite !key_Tasks]).
  - repeat case_match; done.
Qed.

Lemma ckeys_MoveTask id dest state :
  key <$> Categories (snd (MoveTask id dest state)) = key <$> Categories state /\
  CategoryBackburner (snd (MoveTask id dest state)) = CategoryBackburner state /\
  CategoryArchives (snd (MoveTask id dest state)) = CategoryArchives state.
Proof.
  destruct (MoveTask id dest state) as [[t|e] state'] eqn:E; simpl.
  - apply MoveTask_Ok_inv in E as (loc & d & Hfind & Hplace & _).
    destruct (ckeys_placeTask t d (snd (removeTask state id))) as (H1 & H2 & H3).
    destruct (ckeys_removeTask state id) as (H4 & H5 & H6).
    rewrite Hplace in *. simpl in *. by rewrite H1, H2, H3.
  - destruct (error_capacity_dec e) as [->|Hne].
    + apply MoveTask_capacity_error_state in E as (t & loc & idx & Hfind & ->).
      destruct (ckeys_setTaskAt loc t (normalizeUrgent state idx (urgentIDOf t)))
        as (H1 & H2 & H3).
      destruct (ckeys_normalizeUrgent state idx (urgentIDOf t)) as (H4 & H5 & H6).
      by rewrite H1, H2, H3.
    + by rewrite (MoveTask_error_state _ _ _ _ _ E Hne).
Qed.

Lemma ckeys_flags (t : Task) idx s0 :
  let s1 := if Urgent t then normalizeUrgent s0 idx (ID t) else s0 in
  let s2 := if Focused t then normalizeFocus s1 (ID t) else s1 in
  key <$> Categories s2 = key <$> Categories s0 /\
  key <$> CategoryBackburner s2 = key <$> CategoryBackburner s0 /\
  key <$> CategoryArchives s2 = key <$> CategoryArchives s0.
Proof.
  intros s1 s2.
  assert (key <$> Categories s1 = key <$> Categories s0 /\
          key <$> CategoryBackburner s1 = key <$> CategoryBackburner s0 /\
          key <$> CategoryArchives s1 = key <$> CategoryArchives s0) as (H1 & H2 & H3).
  { unfold s1. destruct (Urgent t); [|done].
    destruct (ckeys_normalizeUrgent s0 idx (ID t)) as (? & -> & ->). done. }
  unfold s2. destruct (Focused t); [|done].
  destruct (ckeys_normalizeFocus s1 (ID t)) as (-> & -> & ->). done.
Qed.

Lemma ckeys_CreateTask newID req state :
  key <$> Categories (snd (CreateTask newID req state)) = key <$> Categories state /\
  key <$> CategoryBackburner (snd (CreateTask newID req state))
  = key <$> CategoryBackburner state /\
  key <$> CategoryArchives (snd (CreateTask newID req state))
  = key <$> CategoryArchives state.
Proof.
  destruct (CreateTask newID req state) as [[t|e] state'] eqn:E; simpl.
  - destruct (CreateTask_Ok_shape _ _ _ _ _ E)
      as (s0 & idx & _ & -> & _ & Hb & Ha & Hc).
    pose proof (ckeys_flags t idx s0) as H. cbv zeta in *.
    destruct H as (-> & -> & ->). rewrite Hb, Ha.
    split; [|done].
    destruct Hc as [(i & _ & ->)|(-> & _)]; [|done]. apply ckey_insert, key_Tasks.
  - by rewrite (CreateTask_error_state _ _ _ _ _ E).
Qed.

Lemma ckeys_UpdateTask id patch state :
  key <$> Categories (snd (UpdateTask id patch state)) = key <$> Categories state /\
  CategoryBackburner (snd (UpdateTask id patch state)) = CategoryBackburner state /\
  CategoryArchives (snd (UpdateTask id patch state)) = CategoryArchives state.
Proof.
  unfold UpdateTask.
  destruct (findTask state id) as [[t loc]|]; [|done].
  destruct (TaskPatch.Apply patch t) as [err t'].
  destruct (ckeys_setTaskAt loc t' state) as (H1 & H2 & H3).
  destruct err; [done|].
  destruct (String.eqb (Kind loc) LocationCategory).
  - assert (exists x, (if Urgent t'
                       then normalizeUrgent (setTaskAt loc t' state) (CategoryIndex loc) (ID t')
                       else normalizeUrgent (setTaskAt loc t' state) (CategoryIndex loc) "")
                      = normalizeUrgent (setTaskAt loc t' state) (CategoryIndex loc) x)
      as [x ->] by (destruct (Urgent t'); eauto).
    destruct (ckeys_normalizeUrgent (setTaskAt loc t' state) (CategoryIndex loc) x)
      as (H4 & H5 & H6).
    destruct (ensureCapacity _); cbn [snd]; by rewrite H4, H5, H6.
  - done.
Qed.

Lemma ckeys_DeleteTask id state :
  Categories (snd (DeleteTask id state)) = Categories state /\
  CategoryBackburner (snd (DeleteTask id state)) = CategoryBackburner state /\
  CategoryArchives (snd (DeleteTask id state)) = CategoryArchives state.
Proof.
  destruct (DeleteTask id state) as [[[]|e] state'] eqn:E; simpl.
  - destruct (proj1 (DeleteTask_succeeds_iff id state)) as (t & i & Hfind); [by eauto|].
    rewrite (DeleteTask_archived _ _ _ _ Hfind) in E. by injection E as <-.
  - by rewrite (DeleteTask_error_state _ _ _ _ E).
Qed.

Lemma ckeys_ReorderCategoryTasks id order state :
  key <$> Categories (snd (ReorderCategoryTasks id order state)) = key <$> Categories state /\
  CategoryBackburner (snd (ReorderCategoryTasks id order state)) = CategoryBackburner state /\
  CategoryArchives (snd (ReorderCategoryTasks id order state)) = CategoryArchives state.
Proof.
  unfold ReorderCategoryTasks, reorderTasks.
  repeat case_match; simplify_eq; simpl; (split; [|done]); try done.
  apply ckey_insert, key_Tasks.
Qed.

Lemma ckeys_SetFocused id state :
  key <$> Categories (snd (SetFocused id state)) = key <$> Categories state /\
  key <$> CategoryBackburner (snd (SetFocused id state)) = key <$> CategoryBackburner state /\
  key <$> CategoryArchives (snd (SetFocused id state)) = key <$> CategoryArchives state.
Proof.
  unfold SetFocused. destruct (String.eqb id ""); [apply ckeys_clearFocus|].
  destruct (findTask state id) as [[t loc]|]; [|done]. simpl.
  destruct (ckeys_setTaskAt loc (set_Focused true (default t (taskAt (clearFocus state) loc)))
              (clearFocus state)) as (-> & -> & ->).
  apply ckeys_clearFocus.
Qed.

(** The operations on tasks keep the keys of every container. *)
Lemma ckeys_editsNoCategory TrimSpace op state :
  editsNoCategory op ->
  key <$> Categories (snd (step TrimSpace op state)) = key <$> Categories state /\
  key <$> CategoryBackburner (snd (step TrimSpace op state))
  = key <$> CategoryBackburner state /\
  key <$> CategoryArchives (snd (step TrimSpace op state)) = key <$> CategoryArchives state.
Proof.
  destruct op; try done; intros _; simpl.
  - apply ckeys_CreateTask.
  - destruct (ckeys_UpdateTask id patch state) as (-> & -> & ->). done.
  - destruct (ckeys_MoveTask id dest state) as (-> & -> & ->). done.
  - destruct (ckeys_DeleteTask id state) as (-> & -> & ->). done.
  - destruct (ckeys_ReorderCategoryTasks id order state) as (-> & -> & ->). done.
  - apply ckeys_SetFocused.
Qed.

(** [MoveCategory] moves one category between the containers. *)
Lemma ckeys_detached state id c loc state1 :
  detached state id c loc state1 ->
  key <$> allCategories state ≡ₚ key c :: (key <$> allCategories state1).
Proof.
  intros [i Hf|i _ Hf|i _ _ Hf]; apply list_find_Some in Hf as (Hc & _);
    unfold allCategories; simpl; rewrite (delete_Permutation _ _ _ Hc) at 1;
    rewrite !fmap_app, ?fmap_cons; solve_Permutation.
Qed.

Lemma ckeys_placeCategory c dest state c' state' :
  placeCategory c dest state = (None, c', state') ->
  key <$> allCategories state' ≡ₚ key c :: (key <$> allCategories state).
Proof.
  unfold placeCategory, allCategories.
  destruct (String.eqb _ LocationCategoryBoard).
  - destruct (_ <=? _)%nat; [done|]. destruct (ensureCapacity c); [done|].
    intros [= _ <-]. simpl. rewrite insertAt_Permutation. by rewrite !fmap_app.
  - destruct (String.eqb _ LocationBackburner).
    + intros [= _ <-]. simpl. rewrite !fmap_app. simpl. rewrite key_clear.
      solve_Permutation.
    + destruct (String.eqb _ LocationArchive); [|done].
      intros [= _ <-]. simpl. rewrite !fmap_app. simpl. rewrite key_clear.
      solve_Permutation.
Qed.

Lemma ckeys_MoveCategory id dest state :
  key <$> allCategories (snd (MoveCategory id dest state)) ≡ₚ key <$> allCategories state.
Proof.
  destruct (MoveCategory id dest state) as [[c|e] state'] eqn:E; simpl.
  - unfold MoveCategory in E.
    destruct (MoveCategoryRequest.Validate _); [done|].
    destruct (removeCategory state id) as [[[cat loc]|e1] s1] eqn:Er; [|done].
    apply removeCategory_Ok in Er.
    destruct (placeCategory _ _ _) as [[[e2|] cat'] s2] eqn:Ep; [done|].
    injection E as _ <-.
    by rewrite (ckeys_placeCategory _ _ _ _ _ Ep), (ckeys_detached _ _ _ _ _ Er).
  - by rewrite (MoveCategory_error_state _ _ _ _ _ E).
Qed.

End categories.

(** X19. The operations on tasks and on the focus, whatever their
    outcome, leave the categories where they are: each of the three
    category containers holds the same categories, under the same
    identifiers and names and in the same order, before and after. *)
Theorem task_operations_keep_the_categories TrimSpace op state :
  editsNoCategory op ->
  header <$> Categories (snd (step TrimSpace op state)) = header <$> Categories state /\
  header <$> CategoryBackburner (snd (step TrimSpace op state))
  = header <$> CategoryBackburner state /\
  header <$> CategoryArchives (snd (step TrimSpace op state))
  = header <$> CategoryArchives state.
Proof. by apply ckeys_editsNoCategory. Qed.

Lemma task_operations_keep_the_categories_witness :
  header <$> Categories (snd (step trimSpaceASCII (OpMoveTask "t1" intoBackburner)
                                   sampleBoard))
  = header <$> Categories sampleBoard /\
  header <$> CategoryBackburner (snd (step trimSpaceASCII (OpMoveTask "t1" intoBackburner)
                                           sampleBoard))
  = header <$> CategoryBackburner sampleBoard /\
  header <$> CategoryArchives (snd (step trimSpaceASCII (OpMoveTask "t1" intoBackburner)
                                         sampleBoard))
  = header <$> CategoryArchives sampleBoard.
Proof.
  apply (task_operations_keep_the_categories trimSpaceASCII
           (OpMoveTask "t1" intoBackburner) sampleBoard I).
Defined.

(** * Category names *)

Lemma NoDup_insert_fresh {A : Type} (l : list A) i x :
  NoDup l ->
  (forall j y, l !! j = Some y -> j <> i -> y <> x) ->
  NoDup (<[i := x]> l).
Proof.
  intros Hnd Hx. apply NoDup_alt. intros a b y Ha Hb.
  apply list_lookup_insert_Some in Ha as [(<- & <- & _)|(Hai & Ha)];
    apply list_lookup_insert_Some in Hb as [(<- & Hxy & _)|(Hbi & Hb)]; try done.
  - by destruct (Hx _ _ Hb (not_eq_sym Hbi)).
  - subst y. by destruct (Hx _ _ Ha (not_eq_sym Hai)).
  - by eapply (proj1 (NoDup_alt l) Hnd).
Qed.

Lemma allCategories_fmap {K : Type} (key : Category -> K) state :
  key <$> allCategories state
  = (key <$> Categories state) ++ (key <$> CategoryBackburner state)
    ++ (key <$> CategoryArchives state).
Proof. unfold allCategories. by rewrite !fmap_app. Qed.

Lemma CreateCategory_Ok_inv TrimSpace newID name state cat state' :
  CreateCategory TrimSpace newID name state = (Ok cat, state') ->
  cat = mkCategory newID (TrimSpace name) [] /\
  state' = set_Categories (Categories state ++ [cat]) state /\
  ~ nameTaken (TrimSpace name) state.
Proof.
  unfold CreateCategory.
  pose proof (CreateCategory_duplicate_check TrimSpace (TrimSpace name) state) as Hdup.
  destruct (String.eqb _ ""); [done|].
  do 3 (destruct (bool_decide _); [done|]).
  destruct (_ <=? _)%nat; [done|].
  intros [= <- <-]. split; [done|]. split; [done|].
  intros Ht. by apply Hdup in Ht.
Qed.

Lemma RenameCategory_Ok_free TrimSpace id name state cat state' :
  RenameCategory TrimSpace id name state = (Ok cat, state') ->
  ~ nameTakenByOther (TrimSpace name) id state.
Proof.
  unfold RenameCategory.
  pose proof (RenameCategory_duplicate_check TrimSpace id (TrimSpace name) state) as Hdup.
  destruct (String.eqb _ ""); [done|].
  do 3 (destruct (bool_decide _); [done|]).
  intros _ Ht. by apply Hdup in Ht.
Qed.

(** X20. Category identifiers and category names stay pairwise
    distinct: from a board on which no two categories, in any of the
    three category containers, share an identifier or a name, every
    operation, whatever its outcome, leads to such a board again,
    provided a [CreateCategory] draws an identifier that no category
    carries yet. *)
Theorem category_names_stay_distinct TrimSpace op state :
  NoDup (CatID <$> allCategories state) ->
  NoDup (CatName <$> allCategories state) ->
  (forall newID name, op = OpCreateCategory newID name ->
                      newID ∉ CatID <$> allCategories state) ->
  NoDup (CatID <$> allCategories (snd (step TrimSpace op state))) /\
  NoDup (CatName <$> allCategories (snd (step TrimSpace op state))).
Proof.
  intros Hids Hnames Hfresh.
  assert (forall op', editsNoCategory op' ->
            NoDup (CatID <$> allCategories (snd (step TrimSpace op' state))) /\
            NoDup (CatName <$> allCategories (snd (step TrimSpace op' state)))) as Hframe.
  { intros op' Hop'.
    destruct (ckeys_editsNoCategory CatID ltac:(done) ltac:(done) TrimSpace op' state Hop')
      as (H1 & H2 & H3).
    destruct (ckeys_editsNoCategory CatName ltac:(done) ltac:(done) TrimSpace op' state Hop')
      as (H4 & H5 & H6).
    rewrite !allCategories_fmap, H1, H2, H3, H4, H5, H6, <- !allCategories_fmap. done. }
  destruct op as [newID req|id patch|id dest|id|newID name|id name|id dest|id order|id];
    try (by apply Hframe).
  - simpl. destruct (CreateCategory TrimSpace newID name state) as [[cat|e] state'] eqn:E.
    + apply CreateCategory_Ok_inv in E as (-> & -> & Hfree). simpl.
      unfold allCategories in *. simpl.
      rewrite <- !(assoc_L (++)). rewrite !fmap_app, !fmap_cons in *. simpl.
      split.
      * rewrite <- Permutation_middle. apply NoDup_cons. split; [exact (Hfresh _ _ eq_refl)|done].
      * rewrite <- Permutation_middle. apply NoDup_cons. split; [|done].
        intros Hin. apply Hfree. unfold nameTaken. apply Exists_exists.
        rewrite <- !fmap_app in Hin.
        apply list_elem_of_fmap in Hin as (c & -> & Hc). by exists c.
    + by rewrite (CreateCategory_error_state _ _ _ _ _ _ E).
  - simpl. destruct (RenameCategory TrimSpace id name state) as [[cat|e] state'] eqn:E.
    + pose proof (RenameCategory_Ok_free _ _ _ _ _ _ E) as Hfree.
      apply RenameCategory_Ok_inv in E as (i & Hi & -> & ->). simpl.
      pose proof (findCategoryIndex_lt _ _ _ Hi) as Hlt.
      pose proof (findCategoryIndex_lookup_total _ _ _ Hi) as Hc.
      apply findCategoryIndex_Some in Hi as (c & Hc' & Hid & _).
      rewrite Hc in Hc'. injection Hc' as <-.
      unfold allCategories in *. simpl. split.
      * rewrite fmap_app, list_fmap_insert. simpl.
        rewrite list_insert_id; [by rewrite <- fmap_app|].
        by rewrite list_lookup_fmap, Hc.
      * rewrite <- insert_app_l by done.
        rewrite list_fmap_insert. simpl.
        apply NoDup_insert_fresh; [done|].
        intros j y Hj Hji Hy. apply Hfree. unfold nameTakenByOther.
        rewrite list_lookup_fmap in Hj.
        destruct ((Categories state ++ CategoryBackburner state ++ CategoryArchives state)
                    !! j) as [c'|] eqn:Hc'; [|done].
        simpl in Hj. injection Hj as <-.
        apply Exists_exists. exists c'. split; [by eapply list_elem_of_lookup_2|].
        split; [done|]. intros Hsame. apply Hji.
        apply (proj1 (NoDup_alt _) Hids j i id).
        -- by rewrite list_lookup_fmap, Hc', <- Hsame.
        -- rewrite list_lookup_fmap, lookup_app_l, Hc by done. simpl. by rewrite Hid.
    + by rewrite (RenameCategory_error_state _ _ _ _ _ _ E).
  - simpl. split.
    + by rewrite (ckeys_MoveCategory CatID ltac:(done)).
    + by rewrite (ckeys_MoveCategory CatName ltac:(done)).
Qed.

Lemma category_names_stay_distinct_witness :
  NoDup (CatID <$> allCategories
           (snd (step trimSpaceASCII (OpRenameCategory "c2" " Gamma ") sampleBoard))) /\
  NoDup (CatName <$> allCategories
           (snd (step trimSpaceASCII (OpRenameCategory "c2" " Gamma ") sampleBoard))).
Proof.
  apply (category_names_stay_distinct trimSpaceASCII (OpRenameCategory "c2" " Gamma ")
           sampleBoard).
  - apply (bool_decide_unpack _). vm_compute. reflexivity.
  - apply (bool_decide_unpack _). vm_compute. reflexivity.
  - intros newID name. discriminate.
Defined.

(** * Urgency *)

Lemma TaskPatch_Apply_Err_Urgent patch t e t' :
  TaskPatch.Apply patch t = (Some e, t') -> Urgent t' = Urgent t.
Proof.
  unfold TaskPatch.Apply.
  destruct patch as [n d no st sz ls cl u]; simpl.
  destruct st as [st|]; [destruct (ValidateTaskState st)|];
    (destruct sz as [sz|]; [destruct (NormalizeSize sz)|]);
    try done; intros [= _ <-]; by destruct n, d, no.
Qed.

Lemma oneUrgent_flags c :
  oneUrgent c
  <-> (length (filter (fun b => b = true) (Urgent <$> Tasks c)) <= 1)%nat.
Proof. unfold oneUrgent, urgentTasks. by rewrite flagged_flags. Qed.

Lemma Forall_oneUrgent_flags (cats : list Category) :
  Forall oneUrgent cats
  <-> Forall (fun bs => (length (filter (fun b => b = true) bs) <= 1)%nat)
             ((fun c => Urgent <$> Tasks c) <$> cats).
Proof.
  rewrite Forall_fmap. apply Forall_proper; [|done]. intros c. apply oneUrgent_flags.
Qed.

Lemma Urgent_fmap_Focused b (ts : list Task) :
  Urgent <$> (set_Focused b <$> ts) = Urgent <$> ts.
Proof. rewrite <- list_fmap_compose. by apply list_fmap_ext. Qed.

Lemma Forall_oneUrgent_fmap (f : Category -> Category) (cats : list Category) :
  (forall c, Urgent <$> Tasks (f c) = Urgent <$> Tasks c) ->
  Forall oneUrgent cats -> Forall oneUrgent (f <$> cats).
Proof.
  intros H. rewrite !Forall_oneUrgent_flags, <- list_fmap_compose.
  assert ((fun c => Urgent <$> Tasks c) ∘ f <$> cats
          = (fun c => Urgent <$> Tasks c) <$> cats) as ->; [|done].
  apply list_fmap_ext. intros i c _. apply H.
Qed.

Lemma Forall_oneUrgent_clear (cats : list Category) :
  Forall oneUrgent cats -> Forall oneUrgent (clearCategoryFocus <$> cats).
Proof. apply Forall_oneUrgent_fmap. intros c. apply Urgent_fmap_Focused. Qed.

(** Overwriting a task of a list by one that is not urgent, or by one as
    urgent as the task it replaces, adds no urgent task. *)
Lemma urgentTasks_insert (ts : list Task) i t' :
  (forall t0, ts !! i = Some t0 -> Urgent t' = false \/ Urgent t0 = Urgent t') ->
  (length (urgentTasks (<[i := t']> ts)) <= length (urgentTasks ts))%nat.
Proof.
  intros H. destruct (ts !! i) as [t0|] eqn:Ht.
  - rewrite insert_take_drop by (by eapply lookup_lt_Some).
    rewrite <- (take_drop_middle _ _ _ Ht) at 3.
    unfold urgentTasks. rewrite !filter_app, !filter_cons, !length_app.
    destruct (H t0 eq_refl) as [Hf|He].
    + rewrite Hf. destruct (decide (false = true)); [done|].
      destruct (decide (Urgent t0 = true)); simpl; lia.
    + rewrite He. by destruct (decide (Urgent t' = true)).
  - rewrite list_insert_ge; [done|]. by apply lookup_ge_None.
Qed.

Lemma urgentTasks_delete (ts : list Task) i :
  (length (urgentTasks (delete i ts)) <= length (urgentTasks ts))%nat.
Proof.
  unfold urgentTasks. revert i. induction ts as [|t ts IH]; intros [|i]; simpl; [done..| |].
  - rewrite filter_cons. destruct (decide _); simpl; lia.
  - rewrite !filter_cons. specialize (IH i). destruct (decide _); simpl; lia.
Qed.

Lemma urgentTasks_insertAt (ts : list Task) i t :
  length (urgentTasks (insertAt i t ts))
  = ((if Urgent t then 1 else 0) + length (urgentTasks ts))%nat.
Proof.
  unfold urgentTasks. rewrite insertAt_Permutation, filter_cons.
  destruct (Urgent t); by destruct (decide _).
Qed.

(** The column [normalizeUrgent] has run over: its urgent tasks are the
    tasks that carry the identifier. *)
Lemma urgentTasks_normalized (ts : list Task) u :
  NoDup (ID <$> ts) ->
  (length (urgentTasks ((fun t => set_Urgent (String.eqb (ID t) u) t) <$> ts)) <= 1)%nat /\
  (u ∉ ID <$> ts ->
   urgentTasks ((fun t => set_Urgent (String.eqb (ID t) u) t) <$> ts) = []).
Proof.
  intros Hnd. split.
  - apply (flagged_one_identifier Urgent _ u).
    + by rewrite ID_fmap_flags.
    + rewrite Forall_fmap. apply Forall_forall. intros t _. simpl.
      by intros ?%String.eqb_eq.
  - intros Hnot. apply filter_none. rewrite Forall_fmap.
    apply Forall_forall. intros t Hin. simpl. intros Hu%String.eqb_eq.
    apply Hnot. apply list_elem_of_fmap. by exists t.
Qed.

Lemma Forall_oneUrgent_normalizeUrgent state idx u :
  NoDup (ID <$> boardTasks state) ->
  (forall j c, Categories state !! j = Some c -> j <> idx -> oneUrgent c) ->
  Forall oneUrgent (Categories (normalizeUrgent state idx u)).
Proof.
  intros Hnd Hothers. unfold normalizeUrgent. simpl.
  apply Forall_lookup. intros j c'. rewrite list_lookup_alter.
  destruct (decide (idx = j)) as [<-|Hne].
  - destruct (Categories state !! idx) as [c|] eqn:Hc; [|done]. simpl. intros [= <-].
    unfold oneUrgent. simpl.
    by apply urgentTasks_normalized, (NoDup_column state idx).
  - intros Hc. by apply (Hothers j).
Qed.

Lemma Forall_oneUrgent_others (cats : list Category) idx :
  Forall oneUrgent cats ->
  forall j c, cats !! j = Some c -> j <> idx -> oneUrgent c.
Proof. intros H j c Hc _. exact (Forall_lookup_1 _ _ _ _ H Hc). Qed.

Lemma Forall_oneUrgent_insert (cats : list Category) idx c' :
  Forall oneUrgent cats -> oneUrgent c' -> Forall oneUrgent (<[idx := c']> cats).
Proof. intros. by apply Forall_insert. Qed.

Lemma Forall_oneUrgent_setTaskAt loc t' state :
  (forall t0, taskAt state loc = Some t0 -> Urgent t' = false \/ Urgent t0 = Urgent t') ->
  Forall oneUrgent (Categories state) ->
  Forall oneUrgent (Categories (setTaskAt loc t' state)).
Proof.
  intros H Hall. unfold setTaskAt, taskAt in *.
  destruct (String.eqb (Kind loc) LocationCategory); [|by repeat case_match].
  simpl. apply Forall_lookup. intros j c'. rewrite list_lookup_alter.
  destruct (decide (CategoryIndex loc = j)) as [<-|Hne].
  - destruct (Categories state !! CategoryIndex loc) as [c|] eqn:Hc; [|done].
    simpl. intros [= <-]. unfold oneUrgent. simpl.
    etrans; [apply urgentTasks_insert|exact (Forall_lookup_1 _ _ _ _ Hall Hc)].
    intros t0 Ht0. apply H. simpl. done.
  - intros Hc. exact (Forall_lookup_1 _ _ _ _ Hall Hc).
Qed.

Lemma Forall_oneUrgent_removeTask state id :
  Forall oneUrgent (Categories state) ->
  Forall oneUrgent (Categories (snd (removeTask state id))).
Proof.
  intros Hall. unfold removeTask.
  destruct (findTask state id) as [[t loc]|]; [|done]. simpl.
  destruct (String.eqb (Kind loc) LocationCategory); [|by repeat case_match].
  simpl. apply Forall_alter; [done|]. intros c Hc Hone. unfold oneUrgent. simpl.
  etrans; [apply urgentTasks_delete|done].
Qed.

Lemma taskAt_normalizeUrgent_inv state idx u loc t0 :
  taskAt (normalizeUrgent state idx u) loc = Some t0 ->
  exists t1, taskAt state loc = Some t1 /\
             (t0 = t1 \/ t0 = set_Urgent (String.eqb (ID t1) u) t1).
Proof.
  unfold taskAt, normalizeUrgent. simpl.
  destruct (String.eqb (Kind loc) LocationCategory); [|by eauto].
  rewrite list_lookup_alter.
  destruct (decide (idx = CategoryIndex loc)) as [->|_]; [|by eauto].
  destruct (Categories state !! CategoryIndex loc) as [c|]; [|done]. simpl.
  rewrite list_lookup_fmap.
  destruct (Tasks c !! TaskIndex loc) as [t1|]; [|done]. simpl.
  intros [= <-]. eauto.
Qed.

Lemma NoDup_boardTasks_fresh state s0 t :
  allTasks s0 ≡ₚ t :: allTasks state ->
  NoDup (ID <$> allTasks state) -> ID t ∉ ID <$> allTasks state ->
  NoDup (ID <$> boardTasks s0).
Proof.
  intros Hp Hnd Hnew. apply NoDup_boardTasks. rewrite Hp, fmap_cons.
  by apply NoDup_cons.
Qed.

Lemma oneUrgent_CreateTask newID req state :
  NoDup (ID <$> allTasks state) ->
  createdID newID req ∉ ID <$> allTasks state ->
  Forall oneUrgent (Categories state) ->
  Forall oneUrgent (Categories (snd (CreateTask newID req state))).
Proof.
  intros Hnd Hfresh Hall.
  destruct (CreateTask newID req state) as [[t|e] state'] eqn:E; simpl.
  - assert (ID t = createdID newID req) as Hid.
    { revert E. unfold CreateTask.
      destruct (CreateTaskRequest.Validate _) eqn:Hv; [done|].
      rewrite (insertTask_validated _ _ _ Hv). cbv zeta.
      unfold createdID. rewrite CreateTaskRequest_Normalize_Task.
      repeat case_match; intros [= <- _]; done. }
    destruct (CreateTask_Ok_shape _ _ _ _ _ E)
      as (s0 & idx & Hperm & -> & _ & _ & _ & Hc).
    cbv zeta.
    assert (Forall oneUrgent
                   (Categories (if Urgent t then normalizeUrgent s0 idx (ID t) else s0)))
      as H1.
    { destruct Hc as [(i & Hlt & Hc)|(Hc & -> & _)]; [|by rewrite Hc].
      destruct (Urgent t) eqn:Hu.
      - apply Forall_oneUrgent_normalizeUrgent.
        + eapply NoDup_boardTasks_fresh; [done|done|by rewrite Hid].
        + intros j c Hj Hne. rewrite Hc, list_lookup_insert_ne in Hj by done.
          exact (Forall_lookup_1 _ _ _ _ Hall Hj).
      - rewrite Hc. apply Forall_insert; [done|].
        unfold oneUrgent. simpl. rewrite urgentTasks_insertAt, Hu. simpl.
        apply (Forall_lookup_1 _ _ _ _ Hall (list_lookup_lookup_total_lt _ _ Hlt)). }
    destruct (Focused t); [|done].
    unfold normalizeFocus. simpl. revert H1. apply Forall_oneUrgent_fmap.
    intros c. simpl. rewrite <- list_fmap_compose. by apply list_fmap_ext.
  - by rewrite (CreateTask_error_state _ _ _ _ _ E).
Qed.

Lemma Categories_setTaskAt_others loc t' state j :
  j <> CategoryIndex loc ->
  Categories (setTaskAt loc t' state) !! j = Categories state !! j.
Proof.
  intros Hne. unfold setTaskAt. repeat case_match; simpl; try done.
  by rewrite list_lookup_alter_ne.
Qed.

Lemma oneUrgent_UpdateTask id patch state :
  NoDup (ID <$> allTasks state) ->
  Forall oneUrgent (Categories state) ->
  Forall oneUrgent (Categories (snd (UpdateTask id patch state))).
Proof.
  intros Hnd Hall. unfold UpdateTask.
  destruct (findTask state id) as [[t loc]|] eqn:Hfind; [|done].
  destruct (TaskPatch.Apply patch t) as [err t'] eqn:Ea.
  pose proof Hfind as [_ Hloc]%findTask_Ok. apply located_taskAt in Hloc.
  destruct err as [e|].
  - simpl. apply Forall_oneUrgent_setTaskAt; [|done].
    intros t0 Ht0. right. rewrite Hloc in Ht0. injection Ht0 as <-.
    symmetry. by eapply TaskPatch_Apply_Err_Urgent.
  - destruct (String.eqb (Kind loc) LocationCategory) eqn:Ek.
    + assert (exists x, (if Urgent t'
                         then normalizeUrgent (setTaskAt loc t' state)
                                              (CategoryIndex loc) (ID t')
                         else normalizeUrgent (setTaskAt loc t' state)
                                              (CategoryIndex loc) "")
                        = normalizeUrgent (setTaskAt loc t' state) (CategoryIndex loc) x)
        as [x ->] by (destruct (Urgent t'); eauto).
      assert (Forall oneUrgent
                (Categories (normalizeUrgent (setTaskAt loc t' state)
                                             (CategoryIndex loc) x))) as H.
      { apply Forall_oneUrgent_normalizeUrgent.
        - apply NoDup_boardTasks. rewrite (keys_setTaskAt ID); [done|].
          intros t0 Ht0. rewrite Hloc in Ht0. injection Ht0 as <-.
          by eapply TaskPatch_Apply_ID.
        - intros j c Hj Hne. rewrite Categories_setTaskAt_others in Hj by done.
          exact (Forall_lookup_1 _ _ _ _ Hall Hj). }
      by destruct (ensureCapacity _).
    + simpl. unfold setTaskAt. rewrite Ek. by repeat case_match.
Qed.

Lemma oneUrgent_placeTask task dest state state' :
  placeTask task dest state = (None, state') ->
  NoDup (ID <$> allTasks state) -> ID task ∉ ID <$> allTasks state ->
  Forall oneUrgent (Categories state) ->
  Forall oneUrgent (Categories state').
Proof.
  unfold placeTask.
  destruct (MoveTaskRequest.Validate _); [done|].
  destruct (String.eqb _ LocationCategory).
  - destruct (findCategoryIndex _ _) as [idx|] eqn:Eidx; [|done].
    set (task' := set_Source "" (set_SourceID "" (set_Focused false task))).
    set (u := if Urgent task' then _ else _).
    destruct (ensureCapacity _); [done|]. intros [= <-] Hnd Hnew Hall. simpl.
    pose proof (findCategoryIndex_lookup_total _ _ _ Eidx) as Hc.
    assert (exists x, u = normalizeUrgent state idx x /\
                      (Urgent task = true -> x = ID task)) as (x & Hu & Hx).
    { unfold u. change (Urgent task') with (Urgent task).
      destruct (Urgent task); eexists; (split; [reflexivity|]); done. }
    assert (Forall oneUrgent (Categories u)) as Hallu.
    { rewrite Hu. apply Forall_oneUrgent_normalizeUrgent;
        [by apply NoDup_boardTasks|by apply Forall_oneUrgent_others]. }
    apply Forall_insert; [done|]. unfold oneUrgent. simpl.
    rewrite urgentTasks_insertAt. change (Urgent task') with (Urgent task).
    destruct (Urgent task) eqn:Hurg.
    + rewrite Hu. unfold normalizeUrgent. simpl.
      erewrite list_lookup_total_correct; last first.
      { rewrite list_lookup_alter_eq, Hc. done. }
      simpl. rewrite (proj2 (urgentTasks_normalized _ x
                               (NoDup_column state idx _ (NoDup_boardTasks _ Hnd) Hc)));
        [simpl; lia|].
      rewrite (Hx eq_refl). intros Hin. apply Hnew.
      unfold allTasks, boardTasks. rewrite fmap_app. apply elem_of_app. left.
      rewrite (columns_delete_Permutation _ _ _ Hc), fmap_app.
      apply elem_of_app. by left.
    + simpl. apply (Forall_lookup_1 _ _ idx _ Hallu).
      apply list_lookup_lookup_total_lt.
      rewrite Hu, length_Categories_normalizeUrgent. by eapply lookup_lt_Some.
  - repeat case_match; try done; by intros [= <-].
Qed.

Lemma oneUrgent_MoveTask id dest state :
  NoDup (ID <$> allTasks state) ->
  Forall oneUrgent (Categories state) ->
  Forall oneUrgent (Categories (snd (MoveTask id dest state))).
Proof.
  intros Hnd Hall.
  destruct (MoveTask id dest state) as [[t|e] state'] eqn:E; simpl.
  - apply MoveTask_Ok_inv in E as (loc & d & Hfind & Hplace & _).
    pose proof (keys_removeTask ID _ _ _ _ Hfind) as Hp.
    rewrite Hp in Hnd. apply NoDup_cons in Hnd as [Hnew Hnd1].
    eapply oneUrgent_placeTask; [exact Hplace|done|done|].
    by apply Forall_oneUrgent_removeTask.
  - destruct (error_capacity_dec e) as [->|Hne].
    + apply MoveTask_capacity_error_state in E as (t & loc & idx & Hfind & ->).
      apply findTask_Ok in Hfind as [_ Hloc]. apply located_taskAt in Hloc.
      apply Forall_oneUrgent_setTaskAt.
      * intros t0 (t1 & Ht1 & Ht0)%taskAt_normalizeUrgent_inv.
        rewrite Hloc in Ht1. injection Ht1 as <-.
        destruct (Urgent t) eqn:Hu; [right|by left].
        destruct Ht0 as [->| ->]; [done|]. simpl.
        unfold urgentIDOf. by rewrite Hu, String.eqb_refl.
      * apply Forall_oneUrgent_normalizeUrgent;
          [by apply NoDup_boardTasks|by apply Forall_oneUrgent_others].
    + by rewrite (MoveTask_error_state _ _ _ _ _ E Hne).
Qed.

Lemma oneUrgent_ReorderCategoryTasks id order state :
  NoDup (ID <$> allTasks state) ->
  Forall oneUrgent (Categories state) ->
  Forall oneUrgent (Categories (snd (ReorderCategoryTasks id order state))).
Proof.
  intros Hnd Hall. unfold ReorderCategoryTasks.
  destruct (findCategoryIndex _ _) as [i|] eqn:Ei; [|done].
  apply findCategoryIndex_lookup_total in Ei.
  pose proof (NoDup_column state i _ (NoDup_boardTasks _ Hnd) Ei) as Hcol.
  destruct (decide (order ≡ₚ ID <$> Tasks (Categories state !!! i))) as [Hp|Hp].
  - destruct (reorderTasks_Permutation _ _ Hcol Hp) as (ts' & -> & _ & Hperm). simpl.
    apply Forall_insert; [done|]. unfold oneUrgent, urgentTasks. simpl.
    rewrite Hperm. exact (Forall_lookup_1 _ _ _ _ Hall Ei).
  - by destruct (reorderTasks_mismatch _ _ Hcol Hp) as (e & -> & _).
Qed.

Lemma oneUrgent_SetFocused id state :
  Forall oneUrgent (Categories state) ->
  Forall oneUrgent (Categories (snd (SetFocused id state))).
Proof.
  intros Hall.
  assert (Forall oneUrgent (Categories (clearFocus state))) as Hclear.
  { unfold clearFocus. simpl. by apply Forall_oneUrgent_clear. }
  unfold SetFocused. destruct (String.eqb id ""); [done|].
  destruct (findTask state id) as [[t loc]|]; [|done]. simpl.
  apply Forall_oneUrgent_setTaskAt; [|done].
  intros t0 ->. by right.
Qed.

(** The parked categories under the operations on tasks: untouched, or
    with the focus of their tasks cleared. *)
Lemma parked_CreateTask newID req state :
  Forall oneUrgent (CategoryBackburner state ++ CategoryArchives state) ->
  Forall oneUrgent (CategoryBackburner (snd (CreateTask newID req state))
                    ++ CategoryArchives (snd (CreateTask newID req state))).
Proof.
  intros [Hb Ha]%Forall_app. apply Forall_app.
  destruct (CreateTask newID req state) as [[t|e] state'] eqn:E; simpl.
  - destruct (CreateTask_Ok_shape _ _ _ _ _ E)
      as (s0 & idx & _ & -> & _ & Hb0 & Ha0 & _).
    cbv zeta.
    assert (CategoryBackburner (if Urgent t then normalizeUrgent s0 idx (ID t) else s0)
            = CategoryBackburner state /\
            CategoryArchives (if Urgent t then normalizeUrgent s0 idx (ID t) else s0)
            = CategoryArchives state) as [H1 H2] by (by destruct (Urgent t)).
    destruct (Focused t); [|by rewrite H1, H2].
    unfold normalizeFocus. simpl. rewrite H1, H2.
    split; by apply Forall_oneUrgent_clear.
  - by rewrite (CreateTask_error_state _ _ _ _ _ E).
Qed.

Lemma parked_SetFocused id state :
  Forall oneUrgent (CategoryBackburner state ++ CategoryArchives state) ->
  Forall oneUrgent (CategoryBackburner (snd (SetFocused id state))
                    ++ CategoryArchives (snd (SetFocused id state))).
Proof.
  intros [Hb Ha]%Forall_app. apply Forall_app.
  assert (Forall oneUrgent (CategoryBackburner (clearFocus state)) /\
          Forall oneUrgent (CategoryArchives (clearFocus state))) as Hclear.
  { unfold clearFocus. simpl. split; by apply Forall_oneUrgent_clear. }
  unfold SetFocused. destruct (String.eqb id ""); [done|].
  destruct (findTask state id) as [[t loc]|]; [|done]. simpl.
  destruct (ckeys_setTaskAt header ltac:(done) loc
              (set_Focused true (default t (taskAt (clearFocus state) loc)))
              (clearFocus state)) as (_ & -> & ->).
  done.
Qed.

(** X21. At most one urgent task per category: from a board of distinct
    task identifiers on which no category, active or parked, holds two
    urgent tasks, every operation, whatever its outcome, leads to such a
    board again, provided a [CreateTask] stores its task under an
    identifier that is not on the board yet. *)
Theorem at_most_one_urgent_task_per_category TrimSpace op state :
  NoDup (ID <$> allTasks state) ->
  (forall newID req, op = OpCreateTask newID req ->
                     createdID newID req ∉ ID <$> allTasks state) ->
  Forall oneUrgent (allCategories state) ->
  Forall oneUrgent (allCategories (snd (step TrimSpace op state))).
Proof.
  intros Hnd Hfresh. unfold allCategories. intros [Hc Hp]%Forall_app.
  pose proof Hp as [Hb Ha]%Forall_app.
  destruct op as [newID req|id patch|id dest|id|newID name|id name|id dest|id order|id];
    simpl.
  - apply Forall_app. split.
    + apply oneUrgent_CreateTask; [done|exact (Hfresh _ _ eq_refl)|done].
    + by apply parked_CreateTask.
  - destruct (ckeys_UpdateTask header ltac:(done) id patch state) as (_ & -> & ->).
    apply Forall_app. split; [by apply oneUrgent_UpdateTask|done].
  - destruct (ckeys_MoveTask header ltac:(done) id dest state) as (_ & -> & ->).
    apply Forall_app. split; [by apply oneUrgent_MoveTask|done].
  - destruct (ckeys_DeleteTask id state) as (-> & -> & ->).
    by apply Forall_app.
  - unfold CreateCategory. repeat case_match; simpl; try (by apply Forall_app).
    rewrite <- (assoc_L (++)). apply Forall_app. split; [done|].
    apply Forall_cons. split; [|done]. unfold oneUrgent. simpl. lia.
  - unfold RenameCategory. repeat case_match; simpl; try (by apply Forall_app).
    apply Forall_app. split; [|done]. apply Forall_insert; [done|].
    match goal with H : findCategoryIndex _ _ = Some _ |- _ =>
      apply findCategoryIndex_lookup_total in H;
      exact (Forall_lookup_1 _ _ _ _ Hc H) end.
  - fold (allCategories (snd (MoveCategory id dest state))).
    apply Forall_oneUrgent_flags.
    rewrite (ckeys_MoveCategory (fun c => Urgent <$> Tasks c)).
    + apply Forall_oneUrgent_flags. by apply Forall_app.
    + intros c. apply Urgent_fmap_Focused.
  - destruct (ckeys_ReorderCategoryTasks header ltac:(done) id order state)
      as (_ & -> & ->).
    apply Forall_app. split; [by apply oneUrgent_ReorderCategoryTasks|done].
  - apply Forall_app. split; [by apply oneUrgent_SetFocused|by apply parked_SetFocused].
Qed.

Lemma at_most_one_urgent_task_per_category_witness :
  Forall oneUrgent
         (allCategories (snd (step trimSpaceASCII (OpMoveTask "t1" toSecond) roomyBoard))).
Proof.
  apply (at_most_one_urgent_task_per_category trimSpaceASCII (OpMoveTask "t1" toSecond)
           roomyBoard).
  - apply (bool_decide_unpack _). vm_compute. reflexivity.
  - intros newID req. discriminate.
  - repeat constructor.
Defined.

(** * Updating a task in place *)

Lemma idSkeleton_setTaskAt state loc t0 t' :
  taskAt state loc = Some t0 -> ID t' = ID t0 ->
  idSkeleton (setTaskAt loc t' state) = idSkeleton state.
Proof.
  unfold taskAt, setTaskAt, idSkeleton. intros Ht Hid.
  destruct (String.eqb (Kind loc) LocationCategory).
  - simpl. f_equal. f_equal.
    destruct (Categories state !! CategoryIndex loc) as [c|] eqn:Hc; [|done].
    simpl in Ht. apply list_eq. intros j.
    rewrite !list_lookup_fmap, list_lookup_alter.
    destruct (decide (CategoryIndex loc = j)) as [<-|]; [|done].
    rewrite Hc. simpl. f_equal.
    by rewrite list_fmap_insert, Hid, list_insert_id by (by rewrite list_lookup_fmap, Ht).
  - destruct (String.eqb (Kind loc) LocationBackburner).
    + simpl. f_equal. f_equal.
      by rewrite list_fmap_insert, Hid, list_insert_id by (by rewrite list_lookup_fmap, Ht).
    + destruct (String.eqb (Kind loc) LocationArchive); [|done].
      simpl. f_equal.
      by rewrite list_fmap_insert, Hid, list_insert_id by (by rewrite list_lookup_fmap, Ht).
Qed.

Lemma taskAt_setTaskAt state loc t0 t' :
  taskAt state loc = Some t0 -> taskAt (setTaskAt loc t' state) loc = Some t'.
Proof.
  unfold taskAt, setTaskAt. intros Ht.
  destruct (String.eqb (Kind loc) LocationCategory) eqn:E1.
  - simpl. rewrite list_lookup_alter_eq.
    destruct (Categories state !! CategoryIndex loc) as [c|]; [|done]. simpl in *.
    apply list_lookup_insert_eq. by eapply lookup_lt_Some.
  - destruct (String.eqb (Kind loc) LocationBackburner) eqn:E2.
    + simpl. apply list_lookup_insert_eq. by eapply lookup_lt_Some.
    + destruct (String.eqb (Kind loc) LocationArchive) eqn:E3; [|done].
      simpl. apply list_lookup_insert_eq. by eapply lookup_lt_Some.
Qed.

Lemma set_Urgent_own (t : Task) :
  ID t <> "" -> set_Urgent (String.eqb (ID t) (urgentIDOf t)) t = t.
Proof.
  intros Hne. unfold urgentIDOf. destruct (Urgent t) eqn:Hu.
  - rewrite String.eqb_refl. by apply set_Urgent_Urgent.
  - apply String.eqb_neq in Hne. rewrite Hne. by apply set_Urgent_Urgent.
Qed.

(** The board [UpdateTask] leaves, whatever its outcome: the patched task
    is written at the address of the task, and the urgent flags of its
    column are set anew unless the patch was refused. *)
Lemma UpdateTask_state id patch state t loc :
  findTask state id = Ok (t, loc) ->
  let patched := snd (TaskPatch.Apply patch t) in
  snd (UpdateTask id patch state) = setTaskAt loc patched state \/
  (Kind loc = LocationCategory /\
   snd (UpdateTask id patch state)
   = normalizeUrgent (setTaskAt loc patched state) (CategoryIndex loc) (urgentIDOf patched)).
Proof.
  intros Hfind. unfold UpdateTask. rewrite Hfind.
  destruct (TaskPatch.Apply patch t) as [[e|] t1]; simpl; [by left|].
  destruct (String.eqb (Kind loc) LocationCategory) eqn:Ek; [|by left].
  right. split; [by apply String.eqb_eq|].
  unfold urgentIDOf. by destruct (Urgent t1), (ensureCapacity _).
Qed.

(** X23. [UpdateTask] never moves a task.  For a task found under a
    non-empty identifier, whatever the outcome of the update (success, a
    patch refused part-way, a column over capacity), the task is found
    afterwards under the same identifier at the same address, and it
    holds the fields the patch assigned before it stopped; when the
    update succeeds, the task returned is the task stored. *)
Theorem UpdateTask_then_findTask id patch state t loc :
  id <> "" ->
  findTask state id = Ok (t, loc) ->
  let patched := snd (TaskPatch.Apply patch t) in
  findTask (snd (UpdateTask id patch state)) id = Ok (patched, loc) /\
  (forall t' state', UpdateTask id patch state = (Ok t', state') -> t' = patched).
Proof.
  intros Hne Hfind patched.
  pose proof Hfind as [Hid Hloc]%findTask_Ok. apply located_taskAt in Hloc.
  assert (ID patched = ID t) as Hpid.
  { unfold patched. destruct (TaskPatch.Apply patch t) as [e t1] eqn:Ea.
    by eapply TaskPatch_Apply_ID. }
  assert (idSkeleton state = idSkeleton (snd (UpdateTask id patch state))
          /\ taskAt (snd (UpdateTask id patch state)) loc = Some patched) as [Hsk Hat].
  { destruct (UpdateTask_state id patch state t loc Hfind) as [-> |[Hk ->]].
    - split; [symmetry; by eapply idSkeleton_setTaskAt|by eapply taskAt_setTaskAt].
    - split.
      + rewrite idSkeleton_normalizeUrgent. symmetry. by eapply idSkeleton_setTaskAt.
      + destruct loc as [k ci ti]. simpl in Hk. subst k. simpl.
        rewrite taskAt_normalizeUrgent.
        rewrite (taskAt_setTaskAt _ _ _ _ Hloc). simpl. f_equal.
        apply set_Urgent_own. fold patched. by rewrite Hpid, Hid. }
  split.
  - destruct (findTask_skeleton _ _ _ _ _ Hsk Hfind) as (t' & Hf & Ht').
    rewrite Hat in Ht'. by injection Ht' as <-.
  - intros t' state' E. rewrite E in Hat. simpl in Hat.
    revert E. unfold UpdateTask. rewrite Hfind.
    fold patched. destruct (TaskPatch.Apply patch t) as [[e|] t1] eqn:Ea; [done|].
    cbv zeta. simpl in patched.
    destruct (if String.eqb (Kind loc) LocationCategory then _ else None); [done|].
    intros [= <- <-]. by rewrite Hat, Task_Clone_id.
Qed.

Lemma UpdateTask_then_findTask_witness :
  findTask (snd (UpdateTask "t2" renamePatch sampleBoard)) "t2"
  = Ok (snd (TaskPatch.Apply renamePatch (mkTask "t2" "t2" "" "" "todo" 2 [] [] false false "" "")),
        mkTaskLocation LocationCategory 0 1).
Proof.
  apply (UpdateTask_then_findTask "t2" renamePatch sampleBoard
           (mkTask "t2" "t2" "" "" "todo" 2 [] [] false false "" "")
           (mkTaskLocation LocationCategory 0 1)).
  - done.
  - reflexivity.
Defined.
